(** * The SQLAlchemy repository of starlite-saqlalchemy

    A shallow embedding of [repository/sqlalchemy.py] (with the column
    defaults and the [before_flush] hook of [db/orm.py]), of the
    heartbeat and the queue namespace of [worker.py] and of the startup
    handlers of [lifespan.py], and the properties of their operations.

    The code is translated function by function.  What it calls in
    SQLAlchemy (the session, statement construction and execution) is
    not part of the repository; it is described here by a small
    executable model of one mapped table and one unit of work. *)

From Stdlib Require Import ZArith String Ascii List Bool Lia.
From stdpp Require Import base option list gmap strings.

Open Scope Z_scope.
Open Scope string_scope.
Open Scope list_scope.

(** ** Python values held by columns and keyword arguments *)

(** Integers stand for every scalar with an order or an identity only
    (UUIDs, datetimes as timestamps, ints); [VNone] is Python's [None],
    stored as SQL NULL. *)
Inductive value :=
  | VNone
  | VInt (n : Z)
  | VStr (s : string).

#[global] Instance value_eq_dec : EqDecision value.
Proof. solve_decision. Defined.

(** A [dict[str, Any]] of column values: the attribute state of an ORM
    instance, a table row, the keyword arguments [**kwargs]. *)
Abbreviation dict := (gmap string value).

(** [getattr(instance, name)]; a mapped attribute that was never set
    reads [None]. *)
Definition getattr (d : dict) (name : string) : value :=
  default VNone (d !! name).

(** ** Exceptions *)

Inductive exn_class :=
  | IntegrityError
  | MultipleResultsFound
  | NoResultFound
  | InvalidRequestError
  | StaleDataError
  | ArgumentError
  | SQLAlchemyError
  | ConflictError
  | StarliteSaqlalchemyError
  | NotFoundError
  | ValueError
  | TypeError.

#[global] Instance exn_class_eq_dec : EqDecision exn_class.
Proof. solve_decision. Defined.

(** [issubclass(c, SQLAlchemyError)] in [sqlalchemy.exc] and
    [sqlalchemy.orm.exc]. *)
Definition is_SQLAlchemyError (c : exn_class) : bool :=
  match c with
  | IntegrityError | MultipleResultsFound | NoResultFound
  | InvalidRequestError | StaleDataError | ArgumentError | SQLAlchemyError => true
  | ConflictError | StarliteSaqlalchemyError | NotFoundError | ValueError
  | TypeError => false
  end.

(** An exception object: its class, [str(exc)] and, after
    [raise ... from exc], the class and text of [__cause__]. *)
Record exn := Exn {
  exc_class : exn_class;
  exc_str : string;
  exc_cause : option (exn_class * string)
}.

#[global] Instance exn_eq_dec : EqDecision exn.
Proof. solve_decision. Defined.

Definition new_exn (c : exn_class) (msg : string) : exn := Exn c msg None.

Inductive result (A : Type) :=
  | Ok (a : A)
  | Raise (e : exn).
Arguments Ok {A} a.
Arguments Raise {A} e.

(** The next statement runs when the one before returned. *)
Definition and_then {A B} (r : result A) (k : A → result B) : result B :=
  match r with
  | Ok a => k a
  | Raise e => Raise e
  end.

(** ** Statements *)

(** The criteria the repository adds to a statement. *)
Inductive clause :=
  | Lt (field : string) (bound : Z)             (* field < bound *)
  | Gt (field : string) (bound : Z)             (* field > bound *)
  | Eq (field : string) (val : value)           (* field == val *)
  | In_ (field : string) (values : list value). (* field.in_(values) *)

#[global] Instance clause_eq_dec : EqDecision clause.
Proof. solve_decision. Defined.

(** What a row of the result holds, the [RowT] of [Select[RowT]]:
    the entity (as [select(model_type)] and every [base_select] of type
    [Select[tuple[ModelT]]] do), [count(id)] alone, or the entity with
    [over(count(id))]. *)
Inductive RowT :=
  | Entity
  | CountId
  | EntityCountOver.

Record Select (T : RowT) := MkSelect {
  whereclause : list clause;
  limit_clause : option nat;
  offset_clause : option nat
}.
Arguments MkSelect {T} _ _ _.
Arguments whereclause {T} _.
Arguments limit_clause {T} _.
Arguments offset_clause {T} _.

(** [select(self.model_type)] *)
Definition select_model : Select Entity := MkSelect [] None None.

(** [statement.where(criterion)] *)
Definition where_ {T} (statement : Select T) (c : clause) : Select T :=
  MkSelect (whereclause statement ++ [c]) (limit_clause statement) (offset_clause statement).

(** [statement.limit(n)] and [statement.offset(n)]: each call replaces
    the previous value. *)
Definition limit {T} (statement : Select T) (n : nat) : Select T :=
  MkSelect (whereclause statement) (Some n) (offset_clause statement).

Definition offset {T} (statement : Select T) (n : nat) : Select T :=
  MkSelect (whereclause statement) (limit_clause statement) (Some n).

(** [statement.with_only_columns(count(model.id), maintain_column_froms=True).order_by(None)]
    (row order is not modelled: results come in storage order). *)
Definition with_only_columns_count {T} (statement : Select T) : Select CountId :=
  MkSelect (whereclause statement) (limit_clause statement) (offset_clause statement).

(** [statement.add_columns(over(count(model.id)))] *)
Definition add_columns_count_over (statement : Select Entity) : Select EntityCountOver :=
  MkSelect (whereclause statement) (limit_clause statement) (offset_clause statement).

(** [column < other] and [column > other], as the column's operators
    build them: SQLAlchemy has no order comparison with [None] and
    raises [ArgumentError]. *)
Definition comparison_with_None : exn :=
  new_exn ArgumentError
    "Only '=', '!=', 'is_()', 'is_not()', 'is_distinct_from()', 'is_not_distinct_from()' operators can be used with None/True/False".

Definition lt_ (field : string) (other : option Z) : result clause :=
  match other with
  | Some bound => Ok (Lt field bound)
  | None => Raise comparison_with_None
  end.

Definition gt_ (field : string) (other : option Z) : result clause :=
  match other with
  | Some bound => Ok (Gt field bound)
  | None => Raise comparison_with_None
  end.

(** SQL meaning of a criterion on a row.  A comparison with NULL is not
    true; [col == None] is rendered [col IS NULL]; [IN] over the empty
    list is false for every row. *)
Definition holds (c : clause) (row : dict) : bool :=
  match c with
  | Lt f y =>
      match getattr row f with
      | VInt x => bool_decide (x < y)
      | _ => false
      end
  | Gt f y =>
      match getattr row f with
      | VInt x => bool_decide (y < x)
      | _ => false
      end
  | Eq f v => bool_decide (getattr row f = v)
  | In_ f vs =>
      match getattr row f with
      | VNone => false
      | x => bool_decide (x ∈ vs)
      end
  end.

(** The rows a statement's WHERE selects. *)
Definition selected {T} (statement : Select T) (rows : list dict) : list dict :=
  List.filter (fun row => forallb (fun c => holds c row) (whereclause statement)) rows.

(** LIMIT and OFFSET on the rows produced. *)
Definition window {T A} (statement : Select T) (l : list A) : list A :=
  let l' := drop (default 0%nat (offset_clause statement)) l in
  match limit_clause statement with
  | Some n => take n l'
  | None => l'
  end.

(** ** Filters ([repository/filters.py]) *)

(** Modelled from the spec: [repository/filters.py] is not in the
    sources.  The three filter variants of the data model, Range as
    [BeforeAfter], Membership as [CollectionFilter], Page as
    [LimitOffset], with the fields the repository reads.  A page's limit
    and offset are a cardinality and a start position.  [OtherFilter]
    stands for any other object handed in as a filter. *)
Inductive FilterTypes :=
  | BeforeAfter (field_name : string) (before after : option Z)
  | CollectionFilter (field_name : string) (values : list value)
  | LimitOffset (limit offset : nat)
  | OtherFilter (repr : string).

#[global] Instance FilterTypes_eq_dec : EqDecision FilterTypes.
Proof. solve_decision. Defined.

(** Modelled from the spec: [repository/abc.py] is not in the sources.
    The identifier attribute of the record type contract is the primary
    key column [id] of [orm.Base]. *)
Definition id_attribute : string := "id".

(** [db/orm.py]: the columns of [orm.Base].  Every model type has them;
    what else a model type has is not in the sources.  The statements
    below are built as for a model type that has every attribute they
    name: the [AttributeError] of [getattr(self.model_type, name)] on a
    name the model type lacks is not described. *)
Definition Base_columns : list string := ["id"; "created"; "updated"].

(** ** Building statements *)

(** The repository object.  [self.statement] is what the operations
    start from; [self.session] is the state threaded through the
    operations below. *)
Record SQLAlchemyRepository := MkRepository {
  statement : Select Entity
}.

(** The constructor: [self.statement = base_select or select(self.model_type)].
    The [or] asks [base_select] for its truth value, which a statement
    does not have: the constructor returns only when no [base_select]
    is given. *)
Definition SQLAlchemyRepository__init__ (base_select : option (Select Entity))
    : result SQLAlchemyRepository :=
  match base_select with
  | Some _ => Raise (new_exn TypeError "Boolean value of this clause is not defined")
  | None => Ok (MkRepository select_model)
  end.

Definition _apply_limit_offset_pagination {T}
    (limit_ offset_ : nat) (statement : Select T) : Select T :=
  offset (limit statement limit_) offset_.

Definition _filter_in_collection {T}
    (field_name : string) (values : list value) (statement : Select T) : Select T :=
  match values with
  | [] => statement
  | _ => where_ statement (In_ field_name values)
  end.

(** The criterion for [after] compares with [before], as the source
    does. *)
Definition _filter_on_datetime_field {T}
    (field_name : string) (before after : option Z) (statement : Select T)
    : result (Select T) :=
  and_then
    match before with
    | Some _ => and_then (lt_ field_name before) (fun c => Ok (where_ statement c))
    | None => Ok statement
    end
    (fun statement =>
       match after with
       | Some _ => and_then (gt_ field_name before) (fun c => Ok (where_ statement c))
       | None => Ok statement
       end).

(** [for key, val in kwargs.items(): statement = statement.where(... == val)] *)
Definition _filter_select_by_kwargs {T} (statement : Select T) (kwargs : dict) : Select T :=
  foldl (fun st kv => where_ st (Eq kv.1 kv.2)) statement (map_to_list kwargs).

Fixpoint _apply_filters {T} (filters : list FilterTypes) (apply_pagination : bool)
    (statement : Select T) : result (Select T) :=
  match filters with
  | [] => Ok statement
  | filter_ :: rest =>
      match filter_ with
      | LimitOffset l o =>
          if apply_pagination
          then _apply_filters rest apply_pagination (_apply_limit_offset_pagination l o statement)
          else _apply_filters rest apply_pagination statement
      | BeforeAfter f b a =>
          match _filter_on_datetime_field f b a statement with
          | Ok statement => _apply_filters rest apply_pagination statement
          | Raise e => Raise e
          end
      | CollectionFilter f vs =>
          _apply_filters rest apply_pagination (_filter_in_collection f vs statement)
      | OtherFilter repr =>
          Raise (new_exn StarliteSaqlalchemyError ("Unexpected filter: " +:+ repr))
      end
  end.

(** ** The exception translation boundary *)

(** What leaves a [with wrap_sqlalchemy_exception():] block whose body
    raised [exc]: the two [except] clauses in order, anything else
    propagates. *)
Definition translate (exc : exn) : exn :=
  if bool_decide (exc_class exc = IntegrityError)
  then Exn ConflictError "" (Some (exc_class exc, exc_str exc))
  else if is_SQLAlchemyError (exc_class exc)
  then Exn StarliteSaqlalchemyError ("An exception occurred: " +:+ exc_str exc)
           (Some (exc_class exc, exc_str exc))
  else exc.

(** ** The unit of work and the table behind it *)

(** An ORM instance: its attribute state and, once it is persistent,
    its identity key (the primary key it was loaded or inserted with). *)
Record orm_instance := MkInstance {
  attrs : dict;
  key : option value
}.

(** [session.bind.dialect]: the capability flags the bulk operations
    branch on. *)
Record Dialect := MkDialect {
  insert_executemany_returning : bool;
  update_executemany_returning : bool;
  delete_executemany_returning : bool
}.

(** The session with what it reaches.  Instances are Python objects:
    they are named by their address in [heap].  [owned] lists the
    instances attached to the session: pending (no [key] yet),
    persistent, or deleted by a flush ([gone]) and not yet expunged.
    An instance outside [owned] is transient or detached.  [dirty] and
    [deleted] are [session.dirty] and [session.deleted]; [table] holds
    the rows of the mapped table in storage order; [uuid_next] and
    [clock] are what [uuid4()] and [datetime.now()] give next. *)
Record Session := MkSession {
  table : list dict;
  heap : gmap nat orm_instance;
  next_obj : nat;
  owned : list nat;
  dirty : list nat;
  deleted : list nat;
  gone : list nat;
  uuid_next : Z;
  clock : Z;
  dialect : Dialect
}.

Definition set_table (f : list dict -> list dict) (s : Session) : Session :=
  MkSession (f (table s)) (heap s) (next_obj s) (owned s) (dirty s) (deleted s)
            (gone s) (uuid_next s) (clock s) (dialect s).
Definition set_heap (f : gmap nat orm_instance -> gmap nat orm_instance) (s : Session) : Session :=
  MkSession (table s) (f (heap s)) (next_obj s) (owned s) (dirty s) (deleted s)
            (gone s) (uuid_next s) (clock s) (dialect s).
Definition set_next_obj (f : nat -> nat) (s : Session) : Session :=
  MkSession (table s) (heap s) (f (next_obj s)) (owned s) (dirty s) (deleted s)
            (gone s) (uuid_next s) (clock s) (dialect s).
Definition set_owned (f : list nat -> list nat) (s : Session) : Session :=
  MkSession (table s) (heap s) (next_obj s) (f (owned s)) (dirty s) (deleted s)
            (gone s) (uuid_next s) (clock s) (dialect s).
Definition set_dirty (f : list nat -> list nat) (s : Session) : Session :=
  MkSession (table s) (heap s) (next_obj s) (owned s) (f (dirty s)) (deleted s)
            (gone s) (uuid_next s) (clock s) (dialect s).
Definition set_deleted (f : list nat -> list nat) (s : Session) : Session :=
  MkSession (table s) (heap s) (next_obj s) (owned s) (dirty s) (f (deleted s))
            (gone s) (uuid_next s) (clock s) (dialect s).
Definition set_gone (f : list nat -> list nat) (s : Session) : Session :=
  MkSession (table s) (heap s) (next_obj s) (owned s) (dirty s) (deleted s)
            (f (gone s)) (uuid_next s) (clock s) (dialect s).
Definition set_uuid_next (f : Z -> Z) (s : Session) : Session :=
  MkSession (table s) (heap s) (next_obj s) (owned s) (dirty s) (deleted s)
            (gone s) (f (uuid_next s)) (clock s) (dialect s).
Definition set_clock (f : Z -> Z) (s : Session) : Session :=
  MkSession (table s) (heap s) (next_obj s) (owned s) (dirty s) (deleted s)
            (gone s) (uuid_next s) (f (clock s)) (dialect s).

(** ** Computations on the session that may raise *)

Definition M (A : Type) : Type := Session -> result A * Session.

Definition ret {A} (a : A) : M A := fun s => (Ok a, s).

Definition bind {A B} (m : M A) (k : A -> M B) : M B :=
  fun s =>
    match m s with
    | (Ok a, s') => k a s'
    | (Raise e, s') => (Raise e, s')
    end.

Definition raise {A} (e : exn) : M A := fun s => (Raise e, s).

Definition gets {A} (f : Session -> A) : M A := fun s => (Ok (f s), s).

Definition modify (f : Session -> Session) : M unit := fun s => (Ok tt, f s).

(** A pure computation that may raise, run in the session. *)
Definition lift {A} (r : result A) : M A :=
  match r with
  | Ok a => ret a
  | Raise e => raise e
  end.

Declare Scope M_scope.
Delimit Scope M_scope with M.
Notation "x ← y ; z" := (bind y (fun x => z))
  (at level 20, y at level 100, z at level 200, only parsing) : M_scope.
Notation "x ;; z" := (bind x (fun _ => z))
  (at level 100, z at level 200, only parsing, right associativity) : M_scope.
Open Scope M_scope.

Fixpoint mapM {A B} (f : A -> M B) (l : list A) : M (list B) :=
  match l with
  | [] => ret []
  | x :: l' => y ← f x; ys ← mapM f l'; ret (y :: ys)
  end.

(** [for x in l: f(x)] *)
Fixpoint for_ {A} (l : list A) (f : A -> M unit) : M unit :=
  match l with
  | [] => ret tt
  | x :: l' => f x;; for_ l' f
  end.

(** [with wrap_sqlalchemy_exception(): body] *)
Definition wrap_sqlalchemy_exception {A} (body : M A) : M A :=
  fun s =>
    match body s with
    | (Ok a, s') => (Ok a, s')
    | (Raise exc, s') => (Raise (translate exc), s')
    end.

(** ** What the session does (the storage backend boundary) *)

(** Lists of instances used as sets. *)
Definition add_once (o : nat) (l : list nat) : list nat :=
  if bool_decide (o ∈ l) then l else (l ++ [o])%list.

Definition remove (o : nat) (l : list nat) : list nat :=
  List.filter (fun x => negb (bool_decide (x = o))) l.

(** The instance at an address, and its attribute state. *)
Definition instance_of (o : nat) (s : Session) : orm_instance :=
  default (MkInstance ∅ None) (heap s !! o).

Definition state_of (o : nat) (s : Session) : dict := attrs (instance_of o s).

(** The row has this primary key. *)
Definition has_id (pk : value) (row : dict) : bool :=
  bool_decide (getattr row "id" = pk).

(** [uuid4()] and [datetime.now()] *)
Definition uuid4 : M value :=
  fun s => (Ok (VInt (uuid_next s)), set_uuid_next Z.succ s).

Definition datetime_now : M value :=
  fun s => (Ok (VInt (clock s)), set_clock Z.succ s).

(** A new Python object. *)
Definition alloc (inst : orm_instance) : M nat :=
  o ← gets next_obj;
  modify (fun s => set_next_obj S (set_heap (fun h => <[o := inst]> h) s));;
  ret o.

Definition setattr (o : nat) (name : string) (v : value) : M unit :=
  modify (fun s =>
    set_heap (fun h => <[o := MkInstance (<[name := v]> (state_of o s))
                                        (key (instance_of o s))]> h) s).

(** INSERT of one row.  The columns of [orm.Base] have Python-side
    defaults ([id]: [uuid4], [created] and [updated]: [datetime.now]),
    used when the parameter is missing or [None]; [id] is the primary
    key, so a second row with the same [id] is refused.  The columns a
    model type adds are taken to accept a missing value. *)
Definition column_default (params : dict) (name : string) (default_ : M value) : M value :=
  match getattr params name with
  | VNone => default_
  | v => ret v
  end.

Definition insert_row (params : dict) : M dict :=
  pk ← column_default params "id" uuid4;
  created ← column_default params "created" datetime_now;
  updated ← column_default params "updated" datetime_now;
  let row := <["id" := pk]> (<["created" := created]> (<["updated" := updated]> params)) in
  t ← gets table;
  if existsb (has_id pk) t
  then raise (new_exn IntegrityError "duplicate key value violates unique constraint")
  else modify (set_table (fun t => (t ++ [row])%list));; ret row.

(** UPDATE of the row whose primary key is given in [params]
    (bulk update by primary key). *)
Definition update_row (params : dict) : M dict :=
  match getattr params "id" with
  | VNone => raise (new_exn InvalidRequestError "No primary key value supplied")
  | pk =>
      t ← gets table;
      match List.find (has_id pk) t with
      | Some row =>
          modify (set_table (List.map (fun r => if has_id pk r then params ∪ r else r)));;
          ret (params ∪ row)
      | None => raise (new_exn StaleDataError "UPDATE statement expected to update 1 row(s); 0 were matched")
      end
  end.

(** [db/orm.py]: the [before_flush] listener. *)
Definition touch_updated_timestamp : M unit :=
  session_dirty ← gets dirty;
  for_ session_dirty (fun instance =>
    now ← datetime_now;
    setattr instance "updated" now).

Definition flush_insert (o : nat) : M unit :=
  state ← gets (state_of o);
  row ← insert_row state;
  modify (set_heap (fun h => <[o := MkInstance row (Some (getattr row "id"))]> h)).

Definition flush_update (o : nat) : M unit :=
  inst ← gets (instance_of o);
  match key inst with
  | None => ret tt
  | Some pk =>
      t ← gets table;
      if existsb (has_id pk) t
      then modify (set_table (List.map (fun r => if has_id pk r then attrs inst else r)))
      else raise (new_exn StaleDataError "UPDATE statement expected to update 1 row(s); 0 were matched")
  end.

Definition flush_delete (o : nat) : M unit :=
  inst ← gets (instance_of o);
  match key inst with
  | None => ret tt
  | Some pk => modify (set_table (List.filter (fun r => negb (has_id pk r))))
  end.

(** [session.flush()]: the [before_flush] event, then the pending
    instances are inserted, the modified ones updated, the ones marked
    for deletion deleted. *)
Definition flush : M unit :=
  touch_updated_timestamp;;
  s ← gets (fun s => s);
  for_ (List.filter (fun o => bool_decide (key (instance_of o s) = None)) (owned s)) flush_insert;;
  for_ (List.filter (fun o => negb (bool_decide (o ∈ deleted s))) (dirty s)) flush_update;;
  for_ (deleted s) flush_delete;;
  modify (fun s' => set_gone (fun g => (g ++ deleted s)%list)
                      (set_deleted (fun _ => []) (set_dirty (fun _ => []) s'))).

(** The identity map: the persistent instance with a given primary key. *)
Definition identity_get (pk : value) (s : Session) : option nat :=
  List.find (fun o => bool_decide (key (instance_of o s) = Some pk)
                      && negb (bool_decide (o ∈ gone s))) (owned s).

(** A row loaded as an entity: the instance of the identity map when
    there is one, a new persistent instance otherwise. *)
Definition load_instance (row : dict) : M nat :=
  let pk := getattr row "id" in
  found ← gets (identity_get pk);
  match found with
  | Some o => ret o
  | None =>
      o ← alloc (MkInstance row (Some pk));
      modify (set_owned (fun l => (l ++ [o])%list));;
      ret o
  end.

(** [session.add(instance)] *)
Definition session_add (o : nat) : M unit :=
  s ← gets (fun s => s);
  if bool_decide (o ∈ owned s) then ret tt
  else
    match key (instance_of o s) with
    | Some pk =>
        match identity_get pk s with
        | Some _ => raise (new_exn InvalidRequestError
                      "Can't attach instance; another instance with the same key is already present in this session")
        | None => modify (set_owned (fun l => (l ++ [o])%list))
        end
    | None => modify (set_owned (fun l => (l ++ [o])%list))
    end.

(** [session.get(model_type, pk)], as [merge] uses it. *)
Definition session_get (pk : value) : M (option nat) :=
  found ← gets (identity_get pk);
  match found with
  | Some o => ret (Some o)
  | None =>
      t ← gets table;
      match List.find (has_id pk) t with
      | Some row => o ← load_instance row; ret (Some o)
      | None => ret None
      end
  end.

(** [session.merge(instance)]: the state of the given instance is copied
    onto the instance of the session with the same primary key, loaded
    if need be, or onto a new pending instance. *)
Definition session_merge (o : nat) : M nat :=
  s ← gets (fun s => s);
  if bool_decide (o ∈ owned s) then ret o
  else
    let given := state_of o s in
    existing ← match getattr given "id" with
               | VNone => ret None
               | pk => session_get pk
               end;
    match existing with
    | Some target =>
        modify (fun s' => set_heap (fun h =>
          <[target := MkInstance (given ∪ state_of target s') (key (instance_of target s'))]> h) s');;
        modify (set_dirty (add_once target));;
        ret target
    | None =>
        target ← alloc (MkInstance given None);
        modify (set_owned (fun l => (l ++ [target])%list));;
        ret target
    end.

(** [session.delete(instance)] *)
Definition session_delete (o : nat) : M unit :=
  inst ← gets (instance_of o);
  match key inst with
  | None => raise (new_exn InvalidRequestError "Instance is not persisted")
  | Some _ => session_add o;; modify (set_deleted (add_once o))
  end.

(** [session.refresh(instance)] *)
Definition session_refresh (o : nat) : M unit :=
  flush;;
  s ← gets (fun s => s);
  match key (instance_of o s) with
  | Some pk =>
      if bool_decide (o ∈ owned s) && negb (bool_decide (o ∈ gone s))
      then
        match List.find (has_id pk) (table s) with
        | Some row => modify (set_heap (fun h => <[o := MkInstance row (Some pk)]> h))
        | None => raise (new_exn InvalidRequestError "Could not refresh instance")
        end
      else raise (new_exn InvalidRequestError "Instance is not persistent within this Session")
  | None => raise (new_exn InvalidRequestError "Instance is not persistent within this Session")
  end.

(** [session.expunge(instance)] *)
Definition session_expunge (o : nat) : M unit :=
  s ← gets (fun s => s);
  if bool_decide (o ∈ owned s)
  then modify (fun s => set_owned (remove o) (set_dirty (remove o)
                          (set_deleted (remove o) (set_gone (remove o) s))))
  else raise (new_exn InvalidRequestError "Instance is not present in this Session").

(** The rows of a result, by what the statement selects. *)
Definition row (T : RowT) : Type :=
  match T with
  | Entity => nat
  | CountId => Z
  | EntityCountOver => (nat * Z)%type
  end.

(** [count(id)]: the rows whose [id] is not NULL. *)
Definition count_id (rows : list dict) : Z :=
  Z.of_nat (length (List.filter (fun r => negb (has_id VNone r)) rows)).

(** [session.execute(statement)] for a SELECT: the session flushes
    first (autoflush); the WHERE selects rows; an aggregate yields one
    row, a window function is evaluated on all selected rows; LIMIT and
    OFFSET cut the rows produced; entities are loaded into the session. *)
Definition session_execute {T} (statement : Select T) : M (list (row T)) :=
  flush;;
  t ← gets table;
  let hits := selected statement t in
  match T return M (list (row T)) with
  | Entity => mapM load_instance (window statement hits)
  | CountId => ret (window statement [count_id hits])
  | EntityCountOver =>
      instances ← mapM load_instance (window statement hits);
      ret ((fun o => (o, count_id hits)) <$> instances)
  end.

(** [result.scalar_one_or_none()] and [result.scalar_one()] *)
Definition scalar_one_or_none {A} (rows : list A) : M (option A) :=
  match rows with
  | [] => ret None
  | [x] => ret (Some x)
  | _ => raise (new_exn MultipleResultsFound "Multiple rows were found when one or none was required")
  end.

Definition scalar_one {A} (rows : list A) : M A :=
  match rows with
  | [] => raise (new_exn NoResultFound "No row was found when one was required")
  | [x] => ret x
  | _ => raise (new_exn MultipleResultsFound "Multiple rows were found when exactly one was required")
  end.

(** The parameter sets a statement is executed with: an empty list is
    no parameters, and the statement is executed once, without any. *)
Definition parameter_sets (data : list dict) : list dict :=
  match data with
  | [] => [∅]
  | _ => data
  end.

(** [insert(model_type)] executed with a list of parameter sets, without
    and with [.returning(model_type)]. *)
Definition session_execute_insert (data : list dict) : M unit :=
  flush;;
  for_ (parameter_sets data) (fun params => insert_row params;; ret tt).

Definition session_scalars_insert_returning (data : list dict) : M (list nat) :=
  flush;;
  rows ← mapM insert_row (parameter_sets data);
  mapM load_instance rows.

(** [update(model_type)] executed with a list of parameter sets: the
    bulk UPDATE by primary key. *)
Definition session_execute_update (data : list dict) : M unit :=
  flush;;
  for_ data (fun params => update_row params;; ret tt).

(** With [.returning(model_type)]: the bulk UPDATE by primary key has no
    RETURNING in SQLAlchemy, and the call does not return.  Which
    exception ends it depends on the driver; it is given as the one of
    the row count check. *)
Definition session_scalars_update_returning (data : list dict) : M (list nat) :=
  flush;;
  raise (new_exn StaleDataError "UPDATE statement expected to update row(s); -1 were matched").

(** [delete(model_type).where(criterion)]: the rows go, and the
    persistent instances of these rows are deleted instances from now
    on.  The rows deleted are what RETURNING gives back. *)
Definition delete_where (criterion : clause) : M (list dict) :=
  flush;;
  s ← gets (fun s => s);
  let hits := List.filter (holds criterion) (table s) in
  let pks := (fun r => getattr r "id") <$> hits in
  modify (set_table (List.filter (fun r => negb (holds criterion r))));;
  modify (set_gone (fun g => app g (List.filter (fun o =>
            match key (instance_of o s) with
            | Some pk => bool_decide (pk ∈ pks) && negb (bool_decide (o ∈ g))
            | None => false
            end) (owned s))));;
  ret hits.

Definition session_execute_delete (criterion : clause) : M unit :=
  delete_where criterion;; ret tt.

Definition session_scalars_delete_returning (criterion : clause) : M (list nat) :=
  rows ← delete_where criterion;
  mapM load_instance rows.

(** ** The repository operations ([repository/sqlalchemy.py]) *)

(** Modelled from the spec: [AbstractRepository] ([repository/abc.py])
    is not in the sources.  [check_not_found] fails with [NotFoundError]
    when the entity is absent; [get_id_attribute_value] reads the
    identifier attribute; [to_dict] materializes an entity as a plain
    key/value mapping. *)
Definition check_not_found {A} (item_or_none : option A) : M A :=
  match item_or_none with
  | None => raise (new_exn NotFoundError "No item found when one was expected")
  | Some item => ret item
  end.

Definition get_id_attribute_value (item : nat) : M value :=
  gets (fun s => getattr (state_of item s) id_attribute).

Definition to_dict (item : nat) : M dict := gets (state_of item).

(** [self.model_type] called with the keyword arguments: a new transient instance. *)
Definition model_type (kwargs : dict) : M nat := alloc (MkInstance kwargs None).

Definition _execute {T} (statement : Select T) : M (list (row T)) :=
  session_execute statement.

Definition _attach_to_session (model : nat) (strategy : string) : M nat :=
  if bool_decide (strategy = "add") then
    session_add model;;
    ret model
  else if bool_decide (strategy = "merge") then
    session_merge model
  else
    raise (new_exn ValueError "Unexpected value for `strategy`, must be `'add'` or `'merge'`").

Definition add (self : SQLAlchemyRepository) (data : nat) : M nat :=
  wrap_sqlalchemy_exception (
    instance ← _attach_to_session data "add";
    flush;;
    session_refresh instance;;
    session_expunge instance;;
    ret instance).

Definition list_ (self : SQLAlchemyRepository)
    (filters : list FilterTypes) (kwargs : dict) : M (list nat) :=
  statement ← lift (_apply_filters (T:=Entity) filters true (statement self));
  let statement := _filter_select_by_kwargs statement kwargs in
  wrap_sqlalchemy_exception (
    result ← _execute statement;
    let instances := result in
    for_ instances session_expunge;;
    ret instances).

(** The loop of [add_many] that gives every record an identifier. *)
Fixpoint ensure_primary_keys (data_to_insert : list dict) : M (list dict * list value) :=
  match data_to_insert with
  | [] => ret ([], [])
  | datum :: rest =>
      datum ← match getattr datum id_attribute with
              | VNone => pk ← uuid4; ret (<[id_attribute := pk]> datum)
              | _ => ret datum
              end;
      r ← ensure_primary_keys rest;
      ret (datum :: r.1, getattr datum id_attribute :: r.2)
  end.

(** [v.to_dict() if isinstance(v, self.model_type) else v] *)
Definition as_dict (v : nat + dict) : M dict :=
  match v with
  | inl instance => to_dict instance
  | inr d => ret d
  end.

Definition add_many (self : SQLAlchemyRepository) (data : list (nat + dict)) : M (list nat) :=
  data_to_insert ← mapM as_dict data;
  wrap_sqlalchemy_exception (
    returning ← gets (fun s => insert_executemany_returning (dialect s));
    if returning : bool then
      instances ← session_scalars_insert_returning data_to_insert;
      for_ instances session_expunge;;
      ret instances
    else
      r ← ensure_primary_keys data_to_insert;
      let data_to_insert := r.1 in
      let new_primary_keys := r.2 in
      session_execute_insert data_to_insert;;
      list_ self [CollectionFilter id_attribute new_primary_keys] ∅).

Definition get (self : SQLAlchemyRepository) (item_id : value) : M nat :=
  wrap_sqlalchemy_exception (
    let statement := _filter_select_by_kwargs (statement self) {[id_attribute := item_id]} in
    result ← _execute statement;
    instance ← scalar_one_or_none result;
    instance ← check_not_found instance;
    session_expunge instance;;
    ret instance).

Definition delete_ (self : SQLAlchemyRepository) (item_id : value) : M nat :=
  wrap_sqlalchemy_exception (
    instance ← get self item_id;
    session_delete instance;;
    flush;;
    session_expunge instance;;
    ret instance).

Definition delete_many (self : SQLAlchemyRepository) (item_ids : list value) : M (list nat) :=
  wrap_sqlalchemy_exception (
    returning ← gets (fun s => delete_executemany_returning (dialect s));
    if returning : bool then
      instances ← session_scalars_delete_returning (In_ id_attribute item_ids);
      flush;;
      for_ instances session_expunge;;
      ret instances
    else
      instances ← list_ self [CollectionFilter id_attribute item_ids] ∅;
      session_execute_delete (In_ id_attribute item_ids);;
      flush;;
      ret instances).

Definition get_one (self : SQLAlchemyRepository) (kwargs : dict) : M nat :=
  wrap_sqlalchemy_exception (
    let statement := _filter_select_by_kwargs (statement self) kwargs in
    result ← _execute statement;
    instance ← scalar_one_or_none result;
    instance ← check_not_found instance;
    session_expunge instance;;
    ret instance).

Definition get_one_or_none (self : SQLAlchemyRepository) (kwargs : dict) : M (option nat) :=
  wrap_sqlalchemy_exception (
    let statement := _filter_select_by_kwargs (statement self) kwargs in
    result ← _execute statement;
    instance ← scalar_one_or_none result;
    match instance with
    | Some o => session_expunge o;; ret (Some o)
    | None => ret None
    end).

Definition get_or_create (self : SQLAlchemyRepository) (kwargs : dict) : M (nat * bool) :=
  existing ← get_one_or_none self kwargs;
  match existing with
  | Some existing => ret (existing, false)
  | None =>
      data ← model_type kwargs;
      instance ← add self data;
      ret (instance, true)
  end.

Definition count (self : SQLAlchemyRepository)
    (filters : list FilterTypes) (kwargs : dict) : M Z :=
  let statement := with_only_columns_count (statement self) in
  statement ← lift (_apply_filters (T:=CountId) filters false statement);
  let statement := _filter_select_by_kwargs statement kwargs in
  results ← _execute statement;
  scalar_one results.

Definition update (self : SQLAlchemyRepository) (data : nat) : M nat :=
  wrap_sqlalchemy_exception (
    item_id ← get_id_attribute_value data;
    get self item_id;;
    instance ← _attach_to_session data "merge";
    flush;;
    session_refresh instance;;
    session_expunge instance;;
    ret instance).

Definition update_many (self : SQLAlchemyRepository) (data : list (nat + dict)) : M (list nat) :=
  data_to_update ← mapM as_dict data;
  wrap_sqlalchemy_exception (
    returning ← gets (fun s => update_executemany_returning (dialect s));
    if returning : bool then
      instances ← session_scalars_update_returning data_to_update;
      flush;;
      for_ instances session_expunge;;
      ret instances
    else
      let updated_primary_keys := (fun datum => getattr datum "id") <$> data_to_update in
      session_execute_update data_to_update;;
      flush;;
      list_ self [CollectionFilter "id" updated_primary_keys] ∅).

(** [for i, (instance, count_value) in enumerate(result): ...] *)
Fixpoint list_and_count_loop (i : nat) (result : list (nat * Z))
    (instances : list nat) (count : Z) : M (list nat * Z) :=
  match result with
  | [] => ret (instances, count)
  | (instance, count_value) :: rest =>
      session_expunge instance;;
      list_and_count_loop (S i) rest (instances ++ [instance])
        (if bool_decide (i = 0%nat) then count_value else count)
  end.

Definition list_and_count (self : SQLAlchemyRepository)
    (filters : list FilterTypes) (kwargs : dict) : M (list nat * Z) :=
  let statement := add_columns_count_over (statement self) in
  statement ← lift (_apply_filters (T:=EntityCountOver) filters true statement);
  let statement := _filter_select_by_kwargs statement kwargs in
  wrap_sqlalchemy_exception (
    result ← _execute statement;
    list_and_count_loop 0 result [] 0).

Definition upsert (self : SQLAlchemyRepository) (data : nat) : M nat :=
  wrap_sqlalchemy_exception (
    instance ← _attach_to_session data "merge";
    flush;;
    session_refresh instance;;
    session_expunge instance;;
    ret instance).

(** ** The slug extension *)

(** [string.ascii_lowercase] and [string.digits] *)
Definition ascii_lowercase : string := "abcdefghijklmnopqrstuvwxyz".
Definition digits : string := "0123456789".

(** [random.choices(population, k=k)]: [k] draws with replacement.
    [random i] stands for the [i]-th number the generator of Python's
    [random] module gives. *)
Definition random_choices (population : list ascii) (k : nat) (random : nat → nat)
    : list ascii :=
  (fun i => nth (Nat.modulo (random i) (length population)) population "000"%char)
    <$> seq 0 k.

Section SQLAlchemyRepositorySlugMixin.

(** [utils.slugify] is not in the sources: the normalization of a
    text into a URL-safe slug is a parameter. *)
Variable slugify : string → string.

(** [get_by_slug] and [_is_slug_unique] *)
Definition get_by_slug (self : SQLAlchemyRepository) (slug : string) : M (option nat) :=
  get_one_or_none self {["slug" := VStr slug]}.

Definition _is_slug_unique (self : SQLAlchemyRepository) (slug : string) : M bool :=
  found ← get_one_or_none self {["slug" := VStr slug]};
  ret (match found with None => true | Some _ => false end).

(** [get_available_slug]; [random] is the generator the suffix is
    drawn from. *)
Definition get_available_slug (self : SQLAlchemyRepository)
    (value_to_slugify : string) (random : nat → nat) : M string :=
  let slug := slugify value_to_slugify in
  unique ← _is_slug_unique self slug;
  if unique : bool then ret slug
  else
    let random_string :=
      string_of_list_ascii
        (random_choices (list_ascii_of_string (ascii_lowercase +:+ digits)) 4 random) in
    ret (slug +:+ "-" +:+ random_string).

End SQLAlchemyRepositorySlugMixin.

(** * The background worker ([worker.py]) *)

Module worker.

(** What this module reads of a [saq.Job]: the time limit and the
    longest time without a heartbeat, in seconds, and how many times
    [job.update()] ran. *)
Record Job := MkJob {
  timeout : Z;
  heartbeat : Z;
  updates : nat
}.

Definition TEN : Z := 10.

(** Truth value of a Python [int]. *)
Definition truthy (n : Z) : bool := negb (n =? 0)%Z.

Module PeriodicHeartbeat.

Record t := Mk {
  _running : bool;
  job : Job;
  heartbeat_enabled : bool;
  heartbeat : Z
}.

Definition __init__ (job : Job) : t :=
  let heartbeat_enabled :=
    truthy (timeout job) && (0 <? timeout job)%Z
    && truthy (worker.heartbeat job) && (0 <? worker.heartbeat job)%Z in
  let heartbeat :=
    if heartbeat_enabled && (worker.heartbeat job <=? TEN)%Z then 1
    else if heartbeat_enabled && (TEN <? worker.heartbeat job)%Z then 5
    else 0 in
  Mk true job heartbeat_enabled heartbeat.

(** [stop]; the log line is not kept. *)
Definition stop (self : t) : t :=
  if _running self then Mk false (job self) (heartbeat_enabled self) (heartbeat self)
  else self.

(** One turn of the loop of [_periodically_publish]: [None] when the
    loop condition fails, or the heartbeat with the job updated and the
    seconds slept. *)
Definition _periodically_publish_step (self : t) : option (t * Z) :=
  if _running self && heartbeat_enabled self then
    let job := MkJob (timeout (job self)) (worker.heartbeat (job self)) (S (updates (job self))) in
    Some (Mk (_running self) job (heartbeat_enabled self) (heartbeat self), heartbeat self)
  else None.

End PeriodicHeartbeat.

(** [Queue.namespace]: [f"{settings.app.slug}:{self.name}:{key}"];
    [slug] is the application's slug of the settings. *)
Record Queue := MkQueue { name : string }.

(** [kwargs.setdefault("name", "background-worker")] in [Queue.__init__] *)
Definition Queue__init__ (name : option string) : Queue :=
  MkQueue (default "background-worker" name).

Definition namespace (slug : string) (self : Queue) (key : string) : string :=
  slug +:+ ":" +:+ name self +:+ ":" +:+ key.

End worker.

(** * Application lifespan ([lifespan.py]) *)

Module lifespan.

(** What the handlers do that can be observed: the attempts made on
    the database and on Redis, the seconds slept, the lines logged. *)
Record World := MkWorld {
  db_attempts : nat;
  redis_attempts : nat;
  slept : Z;
  log : list string
}.

(** A handler that returned, or one still in its loop after the
    number of turns looked at. *)
Inductive outcome :=
  | Returned (w : World)
  | Waiting (w : World).

Definition logger_info (line : string) (w : World) : World :=
  MkWorld (db_attempts w) (redis_attempts w) (slept w) (log w ++ [line]).

Definition asyncio_sleep (seconds : Z) (w : World) : World :=
  MkWorld (db_attempts w) (redis_attempts w) (slept w + seconds) (log w).

Section Environment.

(** [constants.IS_SQLALCHEMY_INSTALLED], [constants.IS_REDIS_INSTALLED],
    [settings.app.CHECK_DB_READY] and [settings.app.CHECK_REDIS_READY]. *)
Variable IS_SQLALCHEMY_INSTALLED : bool.
Variable IS_REDIS_INSTALLED : bool.
Variable CHECK_DB_READY : bool.
Variable CHECK_REDIS_READY : bool.

(** The [n]-th attempt on the database, [engine.begin()] and
    [conn.execute(text("SELECT 1"))], and on Redis, [client.ping()]:
    [None] when it goes through, the text of the exception otherwise. *)
Variable db : nat → option string.
Variable redis : nat → option string.

(** [while True: try ... except Exception ... else ... break], for
    [turns] turns of the loop at most. *)
Fixpoint _db_ready_loop (turns : nat) (w : World) : outcome :=
  match turns with
  | O => Waiting w
  | S turns =>
      let w1 := MkWorld (S (db_attempts w)) (redis_attempts w) (slept w) (log w) in
      match db (db_attempts w) with
      | Some exc =>
          _db_ready_loop turns (asyncio_sleep 5 (logger_info ("Waiting for DB: " +:+ exc) w1))
      | None => Returned (logger_info "DB OK!" w1)
      end
  end.

Definition _db_ready (turns : nat) (w : World) : outcome :=
  if IS_SQLALCHEMY_INSTALLED then _db_ready_loop turns w else Returned w.

Fixpoint _redis_ready_loop (turns : nat) (w : World) : outcome :=
  match turns with
  | O => Waiting w
  | S turns =>
      let w1 := MkWorld (db_attempts w) (S (redis_attempts w)) (slept w) (log w) in
      match redis (redis_attempts w) with
      | Some exc =>
          _redis_ready_loop turns
            (asyncio_sleep 5 (logger_info ("Waiting  for Redis: " +:+ exc) w1))
      | None => Returned (logger_info "Redis OK!" w1)
      end
  end.

Definition _redis_ready (turns : nat) (w : World) : outcome :=
  if IS_REDIS_INSTALLED then _redis_ready_loop turns w else Returned w.

Definition before_startup_handler (turns : nat) (w : World) : outcome :=
  match (if CHECK_DB_READY then _db_ready turns w else Returned w) with
  | Returned w => if CHECK_REDIS_READY then _redis_ready turns w else Returned w
  | Waiting w => Waiting w
  end.

End Environment.

End lifespan.

(** * The vocabulary of the properties *)

(** A row satisfies the criteria of the keyword arguments when it has
    every given value. *)
Definition satisfies (kwargs : dict) (row : dict) : Prop :=
  ∀ k v, kwargs !! k = Some v → getattr row k = v.

(** A session as a repository operation leaves it: nothing attached,
    nothing to flush. *)
Definition clean (s : Session) : Prop :=
  owned s = [] ∧ dirty s = [] ∧ deleted s = [] ∧ gone s = [].

(** The primary key column: no NULL, no value twice. *)
Definition ids (t : list dict) : list value := (fun r => getattr r "id") <$> t.

Definition primary_key (t : list dict) : Prop :=
  NoDup (ids t) ∧ VNone ∉ ids t.

(** What an operation leaves alone besides the instances. *)
Definition same_store (s s' : Session) : Prop :=
  table s' = table s ∧ dirty s' = dirty s ∧ deleted s' = deleted s ∧
  gone s' = gone s ∧ uuid_next s' = uuid_next s ∧ clock s' = clock s ∧
  dialect s' = dialect s.

(** A list of instances without those of [objs]. *)
Definition without (objs l : list nat) : list nat :=
  List.filter (fun x => negb (bool_decide (x ∈ objs))) l.

(** The attribute states of a list of instances. *)
Definition states (objs : list nat) (s : Session) : list dict :=
  (fun o => state_of o s) <$> objs.

Definition is_page (f : FilterTypes) : bool :=
  match f with
  | LimitOffset _ _ => true
  | _ => false
  end.

(** A filter set stripped of its Page filters. *)
Definition without_page (filters : list FilterTypes) : list FilterTypes :=
  List.filter (fun f => negb (is_page f)) filters.

(** Two statements that differ in what they select only. *)
Definition same_criteria {T T'} (a : Select T) (b : Select T') : Prop :=
  whereclause a = whereclause b ∧ limit_clause a = limit_clause b
  ∧ offset_clause a = offset_clause b.

(** [len] of what [list] returned. *)
Definition length_of (r : result (list nat)) : result Z :=
  match r with
  | Ok l => Ok (Z.of_nat (length l))
  | Raise e => Raise e
  end.

(** A table of three entities and a clean session on it, for examples. *)
Definition sample_row (pk : Z) (name : string) (ts : Z) : dict :=
  <["id" := VInt pk]> (<["name" := VStr name]>
    (<["created" := VInt ts]> (<["updated" := VInt ts]> ∅))).

Definition sample_session (returning : bool) : Session :=
  MkSession [sample_row 1 "a" 10; sample_row 2 "b" 20; sample_row 3 "c" 30]
            ∅ 0 [] [] [] [] 100 1000 (MkDialect returning returning returning).

(** The repository made without [base_select]: the one the constructor
    makes. *)
Definition plain_repository : SQLAlchemyRepository := MkRepository select_model.

(** The count [list_and_count] ends with: the count of the first row
    met at index 0, the initial value when there is no row. *)
Definition final_count (i : nat) (result : list (nat * Z)) (count : Z) : Z :=
  match result with
  | [] => count
  | (_, count_value) :: _ => if bool_decide (i = 0%nat) then count_value else count
  end.

(** A computation that attaches nothing and detaches nothing. *)
Definition keeps {A} (m : M A) : Prop :=
  ∀ s r s', m s = (r, s') → owned s' = owned s.

(** Every entity a computation hands back is outside the session. *)
Definition detaches {A} (entities : A → list nat) (m : M A) : Prop :=
  ∀ s a s', m s = (Ok a, s') → ∀ o, o ∈ entities a → o ∉ owned s'.

(** The operations of the catalogue that hand back entities. *)
Inductive operation :=
  | Get (item_id : value)
  | GetOne (kwargs : dict)
  | GetOneOrNone (kwargs : dict)
  | GetOrCreate (kwargs : dict)
  | List_ (filters : list FilterTypes) (kwargs : dict)
  | ListAndCount (filters : list FilterTypes) (kwargs : dict)
  | Add (data : nat)
  | AddMany (data : list (nat + dict))
  | Update (data : nat)
  | UpdateMany (data : list (nat + dict))
  | Upsert (data : nat)
  | Delete (item_id : value)
  | DeleteMany (item_ids : list value).

(** An operation run for the entities it returns. *)
Definition entities_returned (self : SQLAlchemyRepository) (op : operation) : M (list nat) :=
  match op with
  | Get item_id => instance ← get self item_id; ret [instance]
  | GetOne kwargs => instance ← get_one self kwargs; ret [instance]
  | GetOneOrNone kwargs => instance ← get_one_or_none self kwargs; ret (option_list instance)
  | GetOrCreate kwargs => r ← get_or_create self kwargs; ret [r.1]
  | List_ filters kwargs => list_ self filters kwargs
  | ListAndCount filters kwargs => r ← list_and_count self filters kwargs; ret r.1
  | Add data => instance ← add self data; ret [instance]
  | AddMany data => add_many self data
  | Update data => instance ← update self data; ret [instance]
  | UpdateMany data => update_many self data
  | Upsert data => instance ← upsert self data; ret [instance]
  | Delete item_id => instance ← delete_ self item_id; ret [instance]
  | DeleteMany item_ids => delete_many self item_ids
  end.

(** The value a column gets on INSERT: the parameter, or the default
    when the parameter is missing or [None]. *)
Definition defaulted (params : dict) (name : string) (default_ : value) : value :=
  match getattr params name with
  | VNone => default_
  | v => v
  end.

(** Modelled from the spec: [utils.slugify] is not in the sources.  A
    stand-in for the examples, on letters, digits and single spaces:
    lower case, a space becomes a hyphen, anything else is dropped. *)
Definition slugify_char (c : ascii) : option ascii :=
  let n := nat_of_ascii c in
  if (65 <=? n)%nat && (n <=? 90)%nat then Some (ascii_of_nat (n + 32))
  else if (97 <=? n)%nat && (n <=? 122)%nat then Some c
  else if (48 <=? n)%nat && (n <=? 57)%nat then Some c
  else if (n =? 32)%nat || (n =? 45)%nat then Some "-"%char
  else None.

Definition slugify_example (text : string) : string :=
  string_of_list_ascii (omap slugify_char (list_ascii_of_string text)).

(** Entities with a slug, for examples. *)
Definition slug_row (pk : Z) (slug : string) : dict :=
  <["id" := VInt pk]> (<["slug" := VStr slug]> ∅).

Definition slug_session (rows : list dict) : Session :=
  MkSession rows ∅ 0 [] [] [] [] 100 1000 (MkDialect false false false).

(** A filter that [_apply_filters] applies without an error whatever
    the model type is: a Page filter, a Membership filter that has no
    value or is on a column of [orm.Base], a Range filter on a column of
    [orm.Base] that has an upper bound or no lower bound. *)
Definition applies (f : FilterTypes) : bool :=
  match f with
  | BeforeAfter field_name before after =>
      bool_decide (field_name ∈ Base_columns)
      && (bool_decide (after = None) || negb (bool_decide (before = None)))
  | CollectionFilter field_name values =>
      bool_decide (values = []) || bool_decide (field_name ∈ Base_columns)
  | LimitOffset _ _ => true
  | OtherFilter _ => false
  end.

(** A computation that raises no exception of SQLAlchemy's classes. *)
Definition contained {A} (m : M A) : Prop :=
  ∀ s e s', m s = (Raise e, s') → is_SQLAlchemyError (exc_class e) = false.

(** The sample session with one more object in it: a transient
    instance, made by [model_type] from the values given, at address 0. *)
Definition transient_session (given : dict) : Session :=
  (model_type given (sample_session false)).2.

(** The record a bulk operation makes of a datum: the state of an
    instance ([to_dict]) or the mapping itself. *)
Definition record_of (s : Session) (v : nat + dict) : dict :=
  match v with
  | inl instance => state_of instance s
  | inr d => d
  end.

(** The identifiers of the rows of a bulk insert, in order: the one a
    record brings, or what [uuid4()] gives next. *)
Fixpoint assigned (u : Z) (data : list dict) : list value :=
  match data with
  | [] => []
  | d :: rest =>
      match getattr d "id" with
      | VNone => VInt u :: assigned (Z.succ u) rest
      | pk => pk :: assigned u rest
      end
  end.

(** A row has every value a record gives (a [None] is no value). *)
Definition keeps_given (d row : dict) : Prop :=
  ∀ k, getattr d k ≠ VNone → getattr row k = getattr d k.

(** The table after the UPDATE by primary key with one parameter set,
    and with a list of them one after the other. *)
Definition updated_by (params : dict) (t : list dict) : list dict :=
  List.map (fun r => if has_id (getattr params "id") r then params ∪ r else r) t.

Definition updated_with (data : list dict) (t : list dict) : list dict :=
  foldl (fun t params => updated_by params t) t data.


(** A text without a colon. *)
Definition no_colon (s : string) : Prop := ":"%char ∉ list_ascii_of_string s.

(** * Properties *)

(** ** The statements the repository builds *)

Lemma whereclause_filter_select_by_kwargs {T} (st : Select T) (kwargs : dict) :
  whereclause (_filter_select_by_kwargs st kwargs)
  = whereclause st ++ ((fun kv => Eq kv.1 kv.2) <$> map_to_list kwargs).
Proof.
  unfold _filter_select_by_kwargs.
  generalize (map_to_list kwargs); intros l; revert st.
  induction l as [|kv l IH]; intros st; simpl.
  - by rewrite app_nil_r.
  - rewrite IH. simpl. by rewrite <- app_assoc.
Qed.

Lemma limit_filter_select_by_kwargs {T} (st : Select T) (kwargs : dict) :
  limit_clause (_filter_select_by_kwargs st kwargs) = limit_clause st.
Proof.
  unfold _filter_select_by_kwargs.
  generalize (map_to_list kwargs); intros l; revert st.
  induction l as [|kv l IH]; intros st; simpl; [done|]. by rewrite IH.
Qed.

Lemma offset_filter_select_by_kwargs {T} (st : Select T) (kwargs : dict) :
  offset_clause (_filter_select_by_kwargs st kwargs) = offset_clause st.
Proof.
  unfold _filter_select_by_kwargs.
  generalize (map_to_list kwargs); intros l; revert st.
  induction l as [|kv l IH]; intros st; simpl; [done|]. by rewrite IH.
Qed.

Lemma forallb_kwargs (kwargs : dict) (row : dict) :
  forallb (fun c => holds c row) ((fun kv => Eq kv.1 kv.2) <$> map_to_list kwargs) = true
  ↔ satisfies kwargs row.
Proof.
  rewrite forallb_forall. unfold satisfies. split.
  - intros H k v Hk. apply elem_of_map_to_list in Hk.
    specialize (H (Eq k v)). simpl in H.
    eapply bool_decide_eq_true_1, H. apply list_elem_of_In.
    apply list_elem_of_fmap. by exists (k, v).
  - intros H c Hc. apply list_elem_of_In, list_elem_of_fmap in Hc.
    destruct Hc as [[k v] [-> Hkv]]. apply elem_of_map_to_list in Hkv.
    simpl. apply bool_decide_eq_true_2. by apply H.
Qed.

(** ** Running computations *)

Lemma bind_ok {A B} (m : M A) (k : A -> M B) s a s1 :
  m s = (Ok a, s1) → bind m k s = k a s1.
Proof. unfold bind. by intros ->. Qed.

Lemma bind_raise {A B} (m : M A) (k : A -> M B) s e s1 :
  m s = (Raise e, s1) → bind m k s = (Raise e, s1).
Proof. unfold bind. by intros ->. Qed.

Lemma bind_inv {A B} (m : M A) (k : A -> M B) s b s2 :
  bind m k s = (Ok b, s2) → ∃ a s1, m s = (Ok a, s1) ∧ k a s1 = (Ok b, s2).
Proof.
  unfold bind. destruct (m s) as [[a|e] s1]; [|done]. intros H. by exists a, s1.
Qed.

Lemma wrap_inv {A} (body : M A) s a s' :
  wrap_sqlalchemy_exception body s = (Ok a, s') → body s = (Ok a, s').
Proof.
  unfold wrap_sqlalchemy_exception. destruct (body s) as [[x|e] s1]; [done|done].
Qed.

Lemma wrap_ok {A} (body : M A) s a s' :
  body s = (Ok a, s') → wrap_sqlalchemy_exception body s = (Ok a, s').
Proof. unfold wrap_sqlalchemy_exception. by intros ->. Qed.

(** ** Sessions with no work in progress *)

Lemma flush_clean s : clean s → flush s = (Ok tt, s).
Proof.
  intros (Ho & Hd & Hdel & Hg). destruct s; simpl in *; subst.
  reflexivity.
Qed.

Lemma same_store_refl s : same_store s s.
Proof. by repeat split. Qed.

Lemma same_store_trans s1 s2 s3 :
  same_store s1 s2 → same_store s2 s3 → same_store s1 s3.
Proof.
  intros (?&?&?&?&?&?&?) (?&?&?&?&?&?&?). repeat split; congruence.
Qed.

Lemma find_none_iff {A} (f : A → bool) (l : list A) :
  List.find f l = None ↔ ∀ x, x ∈ l → f x = false.
Proof.
  induction l as [|a l IH]; simpl.
  - split; [|done]. intros _ x Hx. by apply elem_of_nil in Hx.
  - destruct (f a) eqn:Hfa.
    + split; [done|]. intros H. specialize (H a (list_elem_of_here _ _)). congruence.
    + rewrite IH. split.
      * intros H x Hx. apply elem_of_cons in Hx as [->|Hx]; auto.
      * intros H x Hx. apply H. by apply list_elem_of_further.
Qed.

Lemma identity_get_none pk s :
  (∀ o, o ∈ owned s → key (instance_of o s) ≠ Some pk) → identity_get pk s = None.
Proof.
  intros H. unfold identity_get. apply find_none_iff. intros o Ho.
  apply andb_false_iff. left. apply bool_decide_eq_false_2. by apply H.
Qed.

Lemma instance_of_alloc o inst s o' :
  instance_of o' (set_heap (fun h => <[o := inst]> h) s)
  = if bool_decide (o' = o) then inst else instance_of o' s.
Proof.
  unfold instance_of. simpl. case_bool_decide as Heq.
  - subst. by rewrite lookup_insert_eq.
  - by rewrite lookup_insert_ne.
Qed.

(** Loading rows nobody in the session stands for: one new instance
    per row, in order. *)
Lemma mapM_load_instance rows : ∀ s,
  NoDup (ids rows) →
  (∀ o, o ∈ owned s → (o < next_obj s)%nat
        ∧ ∀ row, row ∈ rows → key (instance_of o s) ≠ Some (getattr row "id")) →
  ∃ s', mapM load_instance rows s = (Ok (seq (next_obj s) (length rows)), s')
        ∧ same_store s s'
        ∧ owned s' = owned s ++ seq (next_obj s) (length rows)
        ∧ next_obj s' = (next_obj s + length rows)%nat
        ∧ (∀ i row, rows !! i = Some row →
             instance_of (next_obj s + i) s' = MkInstance row (Some (getattr row "id")))
        ∧ (∀ o, (o < next_obj s)%nat → instance_of o s' = instance_of o s).
Proof.
  induction rows as [|row rows IH]; intros s Hnd Hown.
  - exists s. simpl. rewrite app_nil_r, Nat.add_0_r.
    repeat split; try done.
  - simpl in Hnd. apply NoDup_cons in Hnd as [Hnotin Hnd].
    set (n := next_obj s).
    set (s1 := set_owned (fun l => l ++ [n])
                 (set_next_obj S (set_heap (fun h =>
                    <[n := MkInstance row (Some (getattr row "id"))]> h) s))).
    assert (Hload : load_instance row s = (Ok n, s1)).
    { unfold load_instance. erewrite bind_ok; [|reflexivity].
      rewrite identity_get_none; [reflexivity|].
      intros o Ho. apply (Hown o Ho). apply list_elem_of_here. }
    destruct (IH s1 Hnd) as (s' & Hrun & Hsame & Howned & Hnext & Hnew & Hold).
    { intros o Ho. simpl in Ho. apply elem_of_app in Ho as [Ho|Ho].
      - destruct (Hown o Ho) as [Hlt Hk]. split; [simpl; lia|].
        intros r Hr. unfold s1. 
        change (instance_of o _) with (instance_of o (set_heap (fun h =>
                    <[n := MkInstance row (Some (getattr row "id"))]> h) s)).
        rewrite instance_of_alloc. case_bool_decide; [subst; unfold n in *; lia|].
        apply Hk. by apply list_elem_of_further.
      - apply list_elem_of_singleton in Ho as ->. split; [simpl; lia|].
        intros r Hr.
        change (instance_of n s1) with (instance_of n (set_heap (fun h =>
                    <[n := MkInstance row (Some (getattr row "id"))]> h) s)).
        rewrite instance_of_alloc. rewrite bool_decide_eq_true_2 by done. simpl.
        intros [= Heq]. apply Hnotin. rewrite Heq.
        apply list_elem_of_fmap. by exists r. }
    exists s'. simpl. erewrite bind_ok by exact Hload.
    change (next_obj s1) with (S n) in *.
    erewrite bind_ok by exact Hrun. 
    split; [reflexivity|]. split.
    { eapply same_store_trans; [|exact Hsame]. by repeat split. }
    split. { rewrite Howned. simpl. by rewrite <- app_assoc. }
    split. { rewrite Hnext. simpl. lia. }
    split.
    + intros i r Hi. destruct i as [|i]; simpl in Hi.
      * injection Hi as ->. rewrite Nat.add_0_r. rewrite Hold by lia.
        change (instance_of n s1) with (instance_of n (set_heap (fun h =>
                    <[n := MkInstance r (Some (getattr r "id"))]> h) s)).
        rewrite instance_of_alloc. by rewrite bool_decide_eq_true_2.
      * specialize (Hnew i r Hi). unfold n in *.
        by replace (next_obj s + S i)%nat with (S (next_obj s) + i)%nat by lia.
    + intros o Ho. rewrite Hold by (unfold n; lia).
      change (instance_of o s1) with (instance_of o (set_heap (fun h =>
                    <[n := MkInstance row (Some (getattr row "id"))]> h) s)).
      rewrite instance_of_alloc. case_bool_decide; [subst; unfold n in *; lia|done].
Qed.

(** ** Expunging *)

Lemma without_remove o objs l : without objs (remove o l) = without (o :: objs) l.
Proof.
  unfold without, remove. induction l as [|x l IH]; simpl; [done|].
  destruct (decide (x = o)) as [->|Hne].
  - rewrite bool_decide_eq_true_2 by done. simpl.
    rewrite (bool_decide_eq_true_2 (o ∈ o :: objs)) by apply list_elem_of_here.
    simpl. apply IH.
  - rewrite bool_decide_eq_false_2 by done. simpl. rewrite IH.
    destruct (decide (x ∈ objs)) as [Hin|Hnin].
    + rewrite !bool_decide_eq_true_2; [done| |done]. by apply list_elem_of_further.
    + rewrite !bool_decide_eq_false_2; [done| |done].
      intros [?|?]%elem_of_cons; done.
Qed.

Lemma without_nil objs : without objs [] = [].
Proof. done. Qed.

Lemma without_nil_l l : without [] l = l.
Proof.
  induction l as [|y l IHl]; [done|]. unfold without in *. cbn [List.filter].
  rewrite bool_decide_eq_false_2 by apply not_elem_of_nil. cbn [negb].
  by rewrite IHl.
Qed.

Lemma without_all objs l : (∀ x, x ∈ l → x ∈ objs) → without objs l = [].
Proof.
  intros H. unfold without. induction l as [|x l IH]; simpl; [done|].
  rewrite bool_decide_eq_true_2 by (apply H, list_elem_of_here). simpl.
  apply IH. intros y Hy. apply H. by apply list_elem_of_further.
Qed.

Lemma elem_of_without objs l x : x ∈ without objs l ↔ x ∈ l ∧ x ∉ objs.
Proof.
  unfold without. rewrite list_elem_of_In, filter_In, <- list_elem_of_In.
  rewrite negb_true_iff, bool_decide_eq_false. tauto.
Qed.

Lemma elem_of_remove o l x : x ∈ remove o l ↔ x ∈ l ∧ x ≠ o.
Proof.
  unfold remove. rewrite list_elem_of_In, filter_In, <- list_elem_of_In.
  rewrite negb_true_iff, bool_decide_eq_false. tauto.
Qed.

Lemma session_expunge_owned o s :
  o ∈ owned s →
  session_expunge o s
  = (Ok tt, set_owned (remove o) (set_dirty (remove o)
              (set_deleted (remove o) (set_gone (remove o) s)))).
Proof.
  intros Ho. unfold session_expunge. erewrite bind_ok by reflexivity.
  by rewrite bool_decide_eq_true_2.
Qed.

(** Expunging instances of the session, each once: they leave, the
    rest stays as it is. *)
Lemma for_session_expunge objs : ∀ s,
  NoDup objs → (∀ o, o ∈ objs → o ∈ owned s) →
  ∃ s', for_ objs session_expunge s = (Ok tt, s')
        ∧ owned s' = without objs (owned s)
        ∧ dirty s' = without objs (dirty s)
        ∧ deleted s' = without objs (deleted s)
        ∧ gone s' = without objs (gone s)
        ∧ heap s' = heap s ∧ next_obj s' = next_obj s ∧ table s' = table s
        ∧ uuid_next s' = uuid_next s ∧ clock s' = clock s ∧ dialect s' = dialect s.
Proof.
  induction objs as [|x objs IH]; intros s Hnd Hin.
  - exists s. rewrite !without_nil_l. by repeat split.
  - apply NoDup_cons in Hnd as [Hx Hnd].
    set (s1 := set_owned (remove x) (set_dirty (remove x)
              (set_deleted (remove x) (set_gone (remove x) s)))).
    destruct (IH s1 Hnd) as (s' & Hrun & Ho & Hd & Hdel & Hg & Hrest).
    { intros o Ho. simpl. apply elem_of_remove. split.
      - apply Hin. by apply list_elem_of_further.
      - intros ->. done. }
    exists s'. simpl.
    erewrite bind_ok by (apply session_expunge_owned, Hin, list_elem_of_here).
    split; [exact Hrun|].
    rewrite Ho, Hd, Hdel, Hg. simpl. rewrite !without_remove.
    repeat split; try done; apply Hrest.
Qed.

(** ** Reading entities *)

Lemma sublist_List_filter {A} (f : A → bool) (l : list A) :
  List.filter f l `sublist_of` l.
Proof.
  induction l as [|x l IH]; simpl; [constructor|].
  destruct (f x); by constructor.
Qed.

Lemma sublist_map {A B} (f : A → B) (l1 l2 : list A) :
  l1 `sublist_of` l2 → (f <$> l1) `sublist_of` (f <$> l2).
Proof. induction 1; simpl; by constructor. Qed.

Lemma window_sublist {T A} (st : Select T) (l : list A) : window st l `sublist_of` l.
Proof.
  unfold window. destruct (limit_clause st).
  - etrans; [apply sublist_take|apply sublist_drop].
  - apply sublist_drop.
Qed.

Lemma primary_key_sublist t t' :
  t' `sublist_of` t → primary_key t → primary_key t'.
Proof.
  intros Hsub [Hnd Hnn]. apply (sublist_map (fun r => getattr r "id")) in Hsub.
  split.
  - eapply sublist_NoDup; eauto.
  - intros Hin. apply Hnn. eapply elem_of_sublist; eauto.
Qed.

Lemma primary_key_window_selected {T} (st : Select T) t :
  primary_key t → primary_key (window st (selected st t)).
Proof.
  apply primary_key_sublist. etrans; [apply window_sublist|apply sublist_List_filter].
Qed.

Lemma states_seq rows n s :
  (∀ i row, rows !! i = Some row →
     instance_of (n + i) s = MkInstance row (Some (getattr row "id"))) →
  states (seq n (length rows)) s = rows.
Proof.
  intros H. unfold states. apply list_eq. intros i.
  rewrite list_lookup_fmap. destruct (rows !! i) as [row|] eqn:Hi.
  - rewrite lookup_seq_lt by (eapply lookup_lt_Some; eauto). simpl.
    unfold state_of. by rewrite (H i row Hi).
  - rewrite lookup_seq_ge; [done|]. by apply lookup_ge_None.
Qed.

(** A SELECT of entities in a clean session: the rows selected come
    back as new instances, attached, in order. *)
Lemma execute_entity_clean (st : Select Entity) s :
  clean s → primary_key (table s) →
  let rows := window st (selected st (table s)) in
  ∃ s', _execute st s = (Ok (seq (next_obj s) (length rows)), s')
        ∧ same_store s s'
        ∧ owned s' = seq (next_obj s) (length rows)
        ∧ next_obj s' = (next_obj s + length rows)%nat
        ∧ (∀ i row, rows !! i = Some row →
             instance_of (next_obj s + i) s' = MkInstance row (Some (getattr row "id")))
        ∧ (∀ o, (o < next_obj s)%nat → instance_of o s' = instance_of o s).
Proof.
  intros Hclean Hpk rows.
  destruct (mapM_load_instance rows s) as (s' & Hrun & Hsame & Ho & Hrest).
  { apply (primary_key_window_selected st) in Hpk. apply Hpk. }
  { destruct Hclean as [-> _]. intros o Ho. by apply elem_of_nil in Ho. }
  exists s'. unfold _execute, session_execute.
  erewrite bind_ok by (by apply flush_clean).
  erewrite bind_ok by reflexivity.
  split; [exact Hrun|]. split; [done|]. split; [|done].
  rewrite Ho. by destruct Hclean as [-> _].
Qed.

Lemma instance_of_heap o s s' : heap s' = heap s → instance_of o s' = instance_of o s.
Proof. unfold instance_of. by intros ->. Qed.

(** [list] in a clean session: the rows the statement selects, as
    detached snapshots; the session is clean again and the table is as
    it was. *)
Lemma list_clean self filters kwargs s st :
  clean s → primary_key (table s) →
  _apply_filters filters true (statement self) = Ok st →
  let st' := _filter_select_by_kwargs st kwargs in
  let rows := window st' (selected st' (table s)) in
  ∃ s', list_ self filters kwargs s = (Ok (seq (next_obj s) (length rows)), s')
        ∧ clean s' ∧ table s' = table s ∧ uuid_next s' = uuid_next s
        ∧ clock s' = clock s ∧ dialect s' = dialect s
        ∧ next_obj s' = (next_obj s + length rows)%nat
        ∧ states (seq (next_obj s) (length rows)) s' = rows
        ∧ (∀ o, (o < next_obj s)%nat → instance_of o s' = instance_of o s).
Proof.
  intros Hclean Hpk Hst st' rows.
  destruct (execute_entity_clean st' s Hclean Hpk)
    as (s1 & Hrun & Hsame & Ho & Hnext & Hnew & Hold).
  fold rows in Hrun, Ho, Hnext, Hnew.
  destruct (for_session_expunge (seq (next_obj s) (length rows)) s1)
    as (s' & Hexp & Ho' & Hd' & Hdel' & Hg' & Hheap & Hn' & Ht' & Hu' & Hc' & Hdi').
  { apply NoDup_seq. }
  { intros o Hin. by rewrite Ho. }
  destruct Hsame as (Ht & Hd & Hdel & Hg & Hu & Hc & Hdi).
  destruct Hclean as (Hc1 & Hc2 & Hc3 & Hc4).
  exists s'. split.
  { unfold list_. rewrite Hst. simpl.
    erewrite bind_ok by reflexivity.
    apply wrap_ok. erewrite bind_ok by exact Hrun.
    erewrite bind_ok by exact Hexp. reflexivity. }
  split.
  { repeat split.
    - rewrite Ho', Ho. by apply without_all.
    - rewrite Hd', Hd, Hc2. apply without_nil.
    - rewrite Hdel', Hdel, Hc3. apply without_nil.
    - rewrite Hg', Hg, Hc4. apply without_nil. }
  repeat split; try congruence.
  - apply states_seq. intros i row Hi. rewrite (instance_of_heap _ s1 s') by done.
    by apply Hnew.
  - intros o Hlt. rewrite (instance_of_heap _ s1 s') by done. by apply Hold.
Qed.

Lemma list_raise self filters kwargs s e :
  _apply_filters filters true (statement self) = Raise e →
  list_ self filters kwargs s = (Raise e, s).
Proof. intros H. unfold list_. by rewrite H. Qed.

(** ** Counting *)

(** What a Range filter does to a statement, by the bounds it has. *)
Lemma filter_on_datetime_field_cases {T} f before after (st : Select T) :
  _filter_on_datetime_field f before after st
  = match before, after with
    | None, None => Ok st
    | Some b, None => Ok (where_ st (Lt f b))
    | Some b, Some _ => Ok (where_ (where_ st (Lt f b)) (Gt f b))
    | None, Some _ => Raise comparison_with_None
    end.
Proof. by destruct before, after. Qed.

Lemma same_criteria_datetime {T T'} (a : Select T) (b : Select T') f before after :
  same_criteria a b →
  match _filter_on_datetime_field f before after a,
        _filter_on_datetime_field f before after b with
  | Ok a', Ok b' => same_criteria a' b' ∧ limit_clause b' = limit_clause b
                    ∧ offset_clause b' = offset_clause b
  | Raise e, Raise e' => e = e'
  | _, _ => False
  end.
Proof.
  intros (Hw & Hl & Ho). rewrite !filter_on_datetime_field_cases.
  unfold same_criteria, where_.
  destruct before, after; simpl; rewrite ?Hw, ?Hl, ?Ho; done.
Qed.

Lemma same_criteria_collection {T T'} (a : Select T) (b : Select T') f vs :
  same_criteria a b →
  same_criteria (_filter_in_collection f vs a) (_filter_in_collection f vs b).
Proof.
  intros (Hw & Hl & Ho). unfold _filter_in_collection, same_criteria, where_.
  destruct vs; simpl; rewrite ?Hw, ?Hl, ?Ho; done.
Qed.

Lemma same_criteria_kwargs {T T'} (a : Select T) (b : Select T') kwargs :
  same_criteria a b →
  same_criteria (_filter_select_by_kwargs a kwargs) (_filter_select_by_kwargs b kwargs).
Proof.
  intros (Hw & Hl & Ho). unfold same_criteria.
  rewrite !whereclause_filter_select_by_kwargs, !limit_filter_select_by_kwargs,
    !offset_filter_select_by_kwargs. by rewrite Hw.
Qed.

(** With pagination suppressed, the statement is the one the filters
    other than Page build: same criteria, and the limit and offset the
    statement started with. *)
Lemma apply_filters_suppressed {T T'} filters : ∀ (a : Select T) (b : Select T'),
  same_criteria a b →
  match _apply_filters filters false a, _apply_filters (without_page filters) true b with
  | Ok a', Ok b' => same_criteria a' b' ∧ limit_clause b' = limit_clause b
                    ∧ offset_clause b' = offset_clause b
  | Raise e, Raise e' => e = e'
  | _, _ => False
  end.
Proof.
  induction filters as [|f filters IH]; intros a b Hab; simpl.
  - done.
  - destruct f as [fn before after|fn vs|l o|repr]; simpl.
    + pose proof (same_criteria_datetime a b fn before after Hab) as Hd.
      destruct (_filter_on_datetime_field fn before after a) as [a1|],
               (_filter_on_datetime_field fn before after b) as [b1|]; try done.
      destruct Hd as (Hab1 & Hl1 & Ho1). specialize (IH _ _ Hab1).
      destruct (_apply_filters filters false _), (_apply_filters (without_page filters) true _);
        try done.
      destruct IH as (? & -> & ->). done.
    + specialize (IH _ _ (same_criteria_collection a b fn vs Hab)).
      destruct (_apply_filters filters false _), (_apply_filters (without_page filters) true _);
        try done.
      destruct IH as (? & -> & ->). split; [done|].
      unfold _filter_in_collection. destruct vs; done.
    + apply IH, Hab.
    + done.
Qed.

Lemma apply_filters_without_page {T} filters (a : Select T) :
  _apply_filters (without_page filters) false a = _apply_filters filters false a.
Proof.
  revert a. induction filters as [|f filters IH]; intros a; simpl; [done|].
  destruct f; simpl; rewrite ?IH; try done.
  destruct (_filter_on_datetime_field _ _ _ _); by rewrite ?IH.
Qed.

Lemma selected_same_criteria {T T'} (a : Select T) (b : Select T') t :
  same_criteria a b → selected a t = selected b t.
Proof. intros (Hw & _). unfold selected. by rewrite Hw. Qed.

Lemma window_unpaginated {T A} (st : Select T) (l : list A) :
  limit_clause st = None → offset_clause st = None → window st l = l.
Proof. unfold window. by intros -> ->. Qed.

Lemma count_id_length rows : VNone ∉ ids rows → count_id rows = Z.of_nat (length rows).
Proof.
  intros H. unfold count_id. f_equal. f_equal.
  induction rows as [|r rows IH]; simpl; [done|].
  unfold ids in H. simpl in H. apply not_elem_of_cons in H as [Hr H].
  unfold has_id at 1. rewrite bool_decide_eq_false_2 by done. simpl.
  f_equal. by apply IH.
Qed.

(** [count] in a clean session. *)
Lemma count_clean self filters kwargs s st :
  clean s →
  _apply_filters filters false (with_only_columns_count (statement self)) = Ok st →
  let st' := _filter_select_by_kwargs st kwargs in
  count self filters kwargs s = scalar_one (window st' [count_id (selected st' (table s))]) s.
Proof.
  intros Hclean Hst st'. unfold count. rewrite Hst. simpl.
  erewrite bind_ok by reflexivity.
  unfold _execute, session_execute.
  erewrite bind_ok; [reflexivity|].
  erewrite bind_ok by (by apply flush_clean).
  erewrite bind_ok by reflexivity. reflexivity.
Qed.

Lemma count_raise self filters kwargs s e :
  _apply_filters filters false (with_only_columns_count (statement self)) = Raise e →
  count self filters kwargs s = (Raise e, s).
Proof. intros H. unfold count. by rewrite H. Qed.

(** [plain_repository] is the repository the constructor makes. *)
Lemma init_makes_plain_repository base_select self :
  SQLAlchemyRepository__init__ base_select = Ok self →
  base_select = None ∧ self = plain_repository.
Proof. destruct base_select; [done|]. by intros [= <-]. Qed.

Lemma sample_session_clean returning : clean (sample_session returning).
Proof. by repeat split. Qed.

Lemma sample_session_primary_key returning : primary_key (table (sample_session returning)).
Proof.
  split.
  - apply (bool_decide_unpack (NoDup _)). by vm_compute.
  - apply (bool_decide_unpack (_ ∉ _)). by vm_compute.
Qed.

(** C2: [count(F, E)] is the length of [list(F without Page, E)]: in a
    session with nothing pending, on a base scope that is not paginated
    itself, both raise the same error or [count] returns the number of
    entities [list] returns; and [count] on [F] is [count] on [F]
    without its Page filters. *)
Theorem count_is_length_of_unpaginated_list self filters kwargs s :
  clean s → primary_key (table s) →
  limit_clause (statement self) = None → offset_clause (statement self) = None →
  (count self filters kwargs s).1
  = length_of (list_ self (without_page filters) kwargs s).1
  ∧ count self filters kwargs s = count self (without_page filters) kwargs s.
Proof.
  intros Hclean Hpk Hlim Hoff. split.
  - pose proof (apply_filters_suppressed filters
                  (with_only_columns_count (statement self)) (statement self)) as H.
    specialize (H ltac:(by repeat split)).
    destruct (_apply_filters filters false _) as [a|e] eqn:Ha;
      destruct (_apply_filters (without_page filters) true _) as [b|e'] eqn:Hb; try done.
    + destruct H as (Hab & Hl & Ho).
      destruct (list_clean self (without_page filters) kwargs s b Hclean Hpk Hb)
        as (s' & -> & _).
      rewrite (count_clean self filters kwargs s a Hclean Ha). simpl.
      rewrite length_seq.
      pose proof (same_criteria_kwargs a b kwargs Hab) as Hk.
      destruct Hk as (Hkw & Hkl & Hko).
      assert (Hbl : limit_clause (_filter_select_by_kwargs b kwargs) = None).
      { rewrite limit_filter_select_by_kwargs. congruence. }
      assert (Hbo : offset_clause (_filter_select_by_kwargs b kwargs) = None).
      { rewrite offset_filter_select_by_kwargs. congruence. }
      rewrite !window_unpaginated by congruence. simpl.
      unfold selected. rewrite Hkw.
      rewrite count_id_length; [done|].
      apply (primary_key_sublist (table s)); [apply sublist_List_filter|done].
    + subst e'. rewrite (count_raise _ _ _ _ _ Ha), (list_raise _ _ _ _ _ Hb). done.
  - unfold count. by rewrite apply_filters_without_page.
Qed.

Lemma count_is_length_of_unpaginated_list_witness :
  (count plain_repository [LimitOffset 1 1; CollectionFilter "name" [VStr "a"; VStr "c"]]
         ∅ (sample_session false)).1 = Ok 2.
Proof.
  rewrite (proj1 (count_is_length_of_unpaginated_list plain_repository
            [LimitOffset 1 1; CollectionFilter "name" [VStr "a"; VStr "c"]] ∅
            (sample_session false)
            (sample_session_clean false) (sample_session_primary_key false)
            eq_refl eq_refl)).
  vm_compute. reflexivity.
Defined.

(** ** The filters *)

Lemma selected_where {T} (st : Select T) c t :
  selected (where_ st c) t = List.filter (holds c) (selected st t).
Proof.
  unfold selected. cbn [where_ whereclause].
  induction t as [|r t IH]; [done|]. cbn [List.filter].
  rewrite forallb_app. cbn [forallb]. rewrite andb_true_r.
  destruct (forallb _ (whereclause st)) eqn:E; cbn [andb List.filter].
  - destruct (holds c r); by rewrite IH.
  - apply IH.
Qed.

Lemma holds_lt_gt f b row : holds (Lt f b) row && holds (Gt f b) row = false.
Proof.
  simpl. destruct (getattr row f) as [|x|]; try done.
  apply andb_false_iff. destruct (decide (x < b)).
  - right. apply bool_decide_eq_false_2. lia.
  - left. by apply bool_decide_eq_false_2.
Qed.

Lemma filter_filter_none {A} (f g : A → bool) (l : list A) :
  (∀ x, f x && g x = false) → List.filter g (List.filter f l) = [].
Proof.
  intros H. induction l as [|x l IH]; [done|]. cbn [List.filter].
  destruct (f x) eqn:Hf; [|done]. cbn [List.filter].
  specialize (H x). rewrite Hf in H. simpl in H. by rewrite H.
Qed.

(** C6: a Membership filter with no values leaves the statement as it
    is, so it selects what the statement selected before; with values it
    adds one criterion, which a row meets when its field is one of the
    values. *)
Theorem membership_filter_empty_is_noop {T} (field_name : string) (st : Select T)
    (v : value) (vs : list value) (apply_pagination : bool) (t : list dict) (row : dict) :
  _filter_in_collection field_name [] st = st
  ∧ _apply_filters [CollectionFilter field_name []] apply_pagination st = Ok st
  ∧ selected (_filter_in_collection field_name [] st) t = selected st t
  ∧ _filter_in_collection field_name (v :: vs) st = where_ st (In_ field_name (v :: vs))
  ∧ (holds (In_ field_name (v :: vs)) row = true
     ↔ getattr row field_name ≠ VNone ∧ getattr row field_name ∈ v :: vs).
Proof.
  split; [done|]. split; [done|]. split; [done|]. split; [done|]. split.
  - intros H. simpl in H. destruct (getattr row field_name) eqn:E; [done| |];
      (split; [done|by apply bool_decide_eq_true in H]).
  - intros [Hnn Hin]. simpl.
    destruct (getattr row field_name) eqn:E; [done| |]; by apply bool_decide_eq_true_2.
Qed.

(** C1: the lower bound of a Range filter is compared with the upper
    bound's value.  With both bounds the criteria added are
    [field < before] and [field > before], whatever [after] is, and no
    row meets both: with [before = 25] and [after = 15] an entity
    created at 20, strictly between the bounds, is not selected.  With
    a lower bound only the comparison is with [None], which SQLAlchemy
    refuses: [list] raises [ArgumentError], and does so before it
    enters the boundary. *)
Theorem range_filter_lower_bound_uses_upper_value :
  (∀ T field_name b a (st : Select T),
     _filter_on_datetime_field field_name (Some b) (Some a) st
     = Ok (where_ (where_ st (Lt field_name b)) (Gt field_name b)))
  ∧ (∀ T field_name b a (st : Select T) t,
       ∃ st', _filter_on_datetime_field field_name (Some b) (Some a) st = Ok st'
              ∧ selected st' t = [])
  ∧ forallb (fun c => holds c (sample_row 2 "b" 20))
            [Lt "created" 25; Gt "created" 15] = true
  ∧ (list_ plain_repository [BeforeAfter "created" (Some 25) (Some 15)] ∅
           (sample_session false)).1 = Ok []
  ∧ list_ plain_repository [BeforeAfter "created" None (Some 15)] ∅ (sample_session false)
    = (Raise comparison_with_None, sample_session false)
  ∧ exc_class comparison_with_None = ArgumentError.
Proof.
  split; [done|]. split.
  { intros T f b a st t. eexists. split; [reflexivity|].
    rewrite !selected_where. apply filter_filter_none. intros r. apply holds_lt_gt. }
  repeat split; by vm_compute.
Qed.

(** ** The exception translation boundary *)

(** C4: a block that returns passes its result through; a block that
    raises [IntegrityError] leaves as [ConflictError]; a block that
    raises another [SQLAlchemyError] leaves as
    [StarliteSaqlalchemyError] whose text ends with the text of the
    original; any other exception leaves as it is. *)
Theorem wrap_sqlalchemy_exception_translates {A} (body : M A) (s : Session) :
  match body s with
  | (Ok a, s') => wrap_sqlalchemy_exception body s = (Ok a, s')
  | (Raise exc, s') =>
      ∃ e, wrap_sqlalchemy_exception body s = (Raise e, s')
           ∧ if bool_decide (exc_class exc = IntegrityError)
             then exc_class e = ConflictError
                  ∧ exc_cause e = Some (exc_class exc, exc_str exc)
             else if is_SQLAlchemyError (exc_class exc)
             then exc_class e = StarliteSaqlalchemyError
                  ∧ exc_str e = "An exception occurred: " +:+ exc_str exc
                  ∧ exc_cause e = Some (exc_class exc, exc_str exc)
             else e = exc
  end.
Proof.
  unfold wrap_sqlalchemy_exception. destruct (body s) as [[a|exc] s']; [done|].
  exists (translate exc). split; [done|]. unfold translate.
  case_bool_decide; [done|]. by destruct (is_SQLAlchemyError _).
Qed.

(** ** Listing with the total *)

Lemma bind_assoc {A B C} (m : M A) (k : A → M B) (h : B → M C) s :
  bind (bind m k) h s = bind m (fun a => bind (k a) h) s.
Proof. unfold bind. by destruct (m s) as [[a|e] s1]. Qed.

Lemma final_count_S i result count : final_count (S i) result count = count.
Proof. by destruct result as [|[? ?] ?]. Qed.

Lemma list_and_count_loop_for result : ∀ i instances count s,
  list_and_count_loop i result instances count s
  = (for_ result.*1 session_expunge;;
     ret (instances ++ result.*1, final_count i result count)) s.
Proof.
  induction result as [|[o c] result IH]; intros i instances count s.
  - simpl. unfold bind, ret. by rewrite app_nil_r.
  - simpl. rewrite bind_assoc.
    destruct (session_expunge o s) as [[[]|e] s1] eqn:E.
    + rewrite !(bind_ok _ _ _ _ _ E). rewrite IH, final_count_S.
      by rewrite <- app_assoc.
    + by rewrite !(bind_raise _ _ _ _ _ E).
Qed.

(** [list_and_count] in a clean session: the page of the rows selected,
    and as total the count over all rows selected if the page has a
    row, 0 if it has none. *)
Lemma list_and_count_clean self filters kwargs s st :
  clean s → primary_key (table s) →
  _apply_filters filters true (add_columns_count_over (statement self)) = Ok st →
  let st' := _filter_select_by_kwargs st kwargs in
  let hits := selected st' (table s) in
  let rows := window st' hits in
  ∃ s', list_and_count self filters kwargs s
        = (Ok (seq (next_obj s) (length rows),
               match rows with [] => 0 | _ => count_id hits end), s')
        ∧ clean s' ∧ table s' = table s
        ∧ states (seq (next_obj s) (length rows)) s' = rows.
Proof.
  intros Hclean Hpk Hst st' hits rows.
  destruct (mapM_load_instance rows s) as (s1 & Hrun & Hsame & Ho & Hnext & Hnew & Hold).
  { apply (primary_key_window_selected st') in Hpk. apply Hpk. }
  { destruct Hclean as [-> _]. intros o Hin. by apply elem_of_nil in Hin. }
  destruct (for_session_expunge (seq (next_obj s) (length rows)) s1)
    as (s' & Hexp & Ho' & Hd' & Hdel' & Hg' & Hheap & Hn' & Ht' & Hu' & Hc' & Hdi').
  { apply NoDup_seq. }
  { intros o Hin. rewrite Ho. apply elem_of_app. by right. }
  destruct Hsame as (Ht & Hd & Hdel & Hg & Hu & Hc & Hdi).
  destruct Hclean as (Hc1 & Hc2 & Hc3 & Hc4).
  set (objs := seq (next_obj s) (length rows)) in *.
  assert (Hfst : ∀ c : Z, ((fun o => (o, c)) <$> objs).*1 = objs).
  { intros c. rewrite <- list_fmap_compose. apply list_fmap_id. }
  exists s'. split.
  { unfold list_and_count. rewrite Hst. simpl.
    erewrite bind_ok by reflexivity.
    apply wrap_ok. unfold _execute, session_execute.
    erewrite bind_ok; cycle 1.
    { erewrite bind_ok by (by apply flush_clean; repeat split).
      erewrite bind_ok by reflexivity.
      erewrite bind_ok by exact Hrun. reflexivity. }
    rewrite list_and_count_loop_for, Hfst.
    erewrite bind_ok by exact Hexp. unfold ret. simpl. do 3 f_equal.
    unfold final_count, objs. destruct rows; reflexivity. }
  split.
  { repeat split.
    - rewrite Ho', Ho, Hc1. by apply without_all.
    - rewrite Hd', Hd, Hc2. apply without_nil.
    - rewrite Hdel', Hdel, Hc3. apply without_nil.
    - rewrite Hg', Hg, Hc4. apply without_nil. }
  split; [congruence|].
  apply states_seq. intros i row Hi. rewrite (instance_of_heap _ s1 s') by done.
  by apply Hnew.
Qed.

Lemma selected_whereclause {T T'} (a : Select T) (b : Select T') t :
  whereclause a = whereclause b → selected a t = selected b t.
Proof. intros Hw. unfold selected. by rewrite Hw. Qed.

(** With a page and equality constraints: at most [L] entities; the
    total is what [count] gives without any filter, unless the page is
    empty, where it is 0. *)
Lemma list_and_count_page self (L O : nat) kwargs s :
  clean s → primary_key (table s) →
  limit_clause (statement self) = None → offset_clause (statement self) = None →
  ∃ objs total s' n,
    list_and_count self [LimitOffset L O] kwargs s = (Ok (objs, total), s')
    ∧ (length objs ≤ L)%nat
    ∧ (count self [] kwargs s).1 = Ok n
    ∧ total = match objs with [] => 0 | _ => n end.
Proof.
  intros Hclean Hpk Hlim Hoff.
  destruct (list_and_count_clean self [LimitOffset L O] kwargs s _ Hclean Hpk eq_refl)
    as (s' & Hrun & _).
  set (st := _filter_select_by_kwargs (_apply_limit_offset_pagination L O
                (add_columns_count_over (statement self))) kwargs) in *.
  set (st0 := _filter_select_by_kwargs (with_only_columns_count (statement self)) kwargs).
  assert (Hsel : selected st (table s) = selected st0 (table s)).
  { apply selected_whereclause. unfold st, st0.
    by rewrite !whereclause_filter_select_by_kwargs. }
  assert (Hcount : (count self [] kwargs s).1 = Ok (count_id (selected st (table s)))).
  { rewrite (count_clean self [] kwargs s _ Hclean eq_refl). fold st0.
    rewrite window_unpaginated; [by rewrite Hsel| |].
    - unfold st0. by rewrite limit_filter_select_by_kwargs.
    - unfold st0. by rewrite offset_filter_select_by_kwargs. }
  eexists _, _, s', _. split; [exact Hrun|]. split; [|split; [exact Hcount|]].
  { rewrite length_seq. unfold window, st. rewrite limit_filter_select_by_kwargs. simpl.
    rewrite length_take. lia. }
  by destruct (window st (selected st (table s))).
Qed.

(** C3: the total of [list_and_count] is read from the first row, so a
    page without rows gives the total 0.  With three entities, the page
    of limit 2 at offset 3 and the page of limit 0 come back with total
    0, where [count] gives 3. *)
Theorem list_and_count_total_of_empty_page :
  (list_and_count plain_repository [LimitOffset 2 3] ∅ (sample_session false)).1
  = Ok ([], 0)
  ∧ (list_and_count plain_repository [LimitOffset 0 0] ∅ (sample_session false)).1
    = Ok ([], 0)
  ∧ (count plain_repository [] ∅ (sample_session false)).1 = Ok 3.
Proof. repeat split; by vm_compute. Qed.

(** ** Detachment *)

Lemma keeps_ret {A} (a : A) : keeps (ret a).
Proof. intros s r s' [= _ <-]. done. Qed.

Lemma keeps_raise {A} e : keeps (@raise A e).
Proof. intros s r s' [= _ <-]. done. Qed.

Lemma keeps_gets {A} (f : Session → A) : keeps (gets f).
Proof. intros s r s' [= _ <-]. done. Qed.

Lemma keeps_modify f : (∀ s, owned (f s) = owned s) → keeps (modify f).
Proof. intros H s r s' [= _ <-]. apply H. Qed.

Lemma keeps_uuid4 : keeps uuid4.
Proof. intros s r s' [= _ <-]. done. Qed.

Lemma keeps_datetime_now : keeps datetime_now.
Proof. intros s r s' [= _ <-]. done. Qed.

Lemma keeps_bind {A B} (m : M A) (k : A → M B) :
  keeps m → (∀ a, keeps (k a)) → keeps (bind m k).
Proof.
  intros Hm Hk s r s'. unfold bind. destruct (m s) as [[a|e] s1] eqn:E.
  - intros H. rewrite (Hk a _ _ _ H). by apply (Hm _ _ _ E).
  - intros [= _ <-]. by apply (Hm _ _ _ E).
Qed.

Lemma keeps_for {A} (l : list A) (f : A → M unit) :
  (∀ x, keeps (f x)) → keeps (for_ l f).
Proof.
  intros H. induction l as [|x l IH]; simpl.
  - apply keeps_ret.
  - apply keeps_bind; [apply H|done].
Qed.

Lemma keeps_mapM {A B} (l : list A) (f : A → M B) :
  (∀ x, keeps (f x)) → keeps (mapM f l).
Proof.
  intros H. induction l as [|x l IH]; simpl.
  - apply keeps_ret.
  - apply keeps_bind; [apply H|]. intros y.
    apply keeps_bind; [done|]. intros ys. apply keeps_ret.
Qed.

Create HintDb keeps.

Ltac keeps_step :=
  first
    [ solve [auto with keeps]
    | apply keeps_ret | apply keeps_raise | apply keeps_gets
    | apply keeps_uuid4 | apply keeps_datetime_now
    | apply keeps_modify; intros ?; reflexivity
    | apply keeps_bind; [|intros ?]
    | apply keeps_for; intros ?
    | apply keeps_mapM; intros ?
    | match goal with
      | |- keeps (match ?x with _ => _ end) => destruct x
      end ].

Ltac keeps_tac := repeat keeps_step.

Lemma keeps_insert_row params : keeps (insert_row params).
Proof. unfold insert_row, column_default. keeps_tac. Qed.
#[local] Hint Resolve keeps_insert_row : keeps.

Lemma keeps_update_row params : keeps (update_row params).
Proof. unfold update_row. keeps_tac. Qed.
#[local] Hint Resolve keeps_update_row : keeps.

Lemma keeps_flush_insert o : keeps (flush_insert o).
Proof. unfold flush_insert. keeps_tac. Qed.

Lemma keeps_flush_update o : keeps (flush_update o).
Proof. unfold flush_update. keeps_tac. Qed.

Lemma keeps_flush_delete o : keeps (flush_delete o).
Proof. unfold flush_delete. keeps_tac. Qed.
#[local] Hint Resolve keeps_flush_insert keeps_flush_update keeps_flush_delete : keeps.

Lemma keeps_flush : keeps flush.
Proof. unfold flush, touch_updated_timestamp, setattr. keeps_tac. Qed.
#[local] Hint Resolve keeps_flush : keeps.

Lemma keeps_delete_where criterion : keeps (delete_where criterion).
Proof. unfold delete_where. keeps_tac. Qed.
#[local] Hint Resolve keeps_delete_where : keeps.

Lemma detaches_wrap {A} (f : A → list nat) (m : M A) :
  detaches f m → detaches f (wrap_sqlalchemy_exception m).
Proof. intros H s a s' Hrun. apply (H s). by apply wrap_inv. Qed.

Lemma detaches_bind {A B} (f : B → list nat) (m : M A) (k : A → M B) :
  (∀ a, detaches f (k a)) → detaches f (bind m k).
Proof.
  intros H s b s' Hrun. apply bind_inv in Hrun as (a & s1 & _ & Hk).
  by apply (H a s1).
Qed.

Lemma detaches_lift {A B} (f : B → list nat) (r : result A) (k : A → M B) :
  (∀ a, detaches f (k a)) → detaches f (bind (lift r) k).
Proof. apply detaches_bind. Qed.

Lemma session_expunge_detaches o s s' :
  session_expunge o s = (Ok tt, s') → (o ∉ owned s') ∧ (∀ x, x ∈ owned s' → x ∈ owned s).
Proof.
  unfold session_expunge. unfold bind at 1. simpl.
  case_bool_decide; [|done]. intros [= <-]. simpl. split.
  - intros Hin. by apply elem_of_remove in Hin as [_ ?].
  - intros x Hx. by apply elem_of_remove in Hx as [? _].
Qed.

Lemma detaches_expunge_ret o : detaches (fun o => [o]) (session_expunge o;; ret o).
Proof.
  intros s a s' Hrun. apply bind_inv in Hrun as ([] & s1 & Hexp & [= -> ->]).
  intros x ->%list_elem_of_singleton. by apply session_expunge_detaches in Hexp as [? _].
Qed.

Lemma for_expunge_detaches objs : ∀ s s',
  for_ objs session_expunge s = (Ok tt, s') →
  (∀ o, o ∈ objs → o ∉ owned s') ∧ (∀ x, x ∈ owned s' → x ∈ owned s).
Proof.
  induction objs as [|x objs IH]; intros s s' Hrun; simpl in Hrun.
  - injection Hrun as <-. split; [|done]. intros o Ho. by apply elem_of_nil in Ho.
  - apply bind_inv in Hrun as ([] & s1 & Hexp & Hrest).
    apply session_expunge_detaches in Hexp as [Hx Hsub1].
    apply IH in Hrest as [Hobjs Hsub2]. split.
    + intros o [->|Ho]%elem_of_cons; [|by apply Hobjs].
      intros Hin. by apply Hx, Hsub2.
    + intros y Hy. by apply Hsub1, Hsub2.
Qed.

Lemma detaches_for_expunge_ret objs :
  detaches (fun l => l) (for_ objs session_expunge;; ret objs).
Proof.
  intros s a s' Hrun. apply bind_inv in Hrun as ([] & s1 & Hexp & [= -> ->]).
  by apply for_expunge_detaches in Hexp as [? _].
Qed.

Lemma detaches_list self filters kwargs : detaches (fun l => l) (list_ self filters kwargs).
Proof.
  unfold list_. apply detaches_lift. intros st. apply detaches_wrap.
  apply detaches_bind. intros instances. apply detaches_for_expunge_ret.
Qed.

Lemma detaches_list_and_count_loop result : ∀ i instances count s r s',
  list_and_count_loop i result instances count s = (Ok r, s') →
  (∀ o, o ∈ instances → o ∉ owned s) → ∀ o, o ∈ r.1 → o ∉ owned s'.
Proof.
  intros i instances count s r s' Hrun Hacc.
  rewrite list_and_count_loop_for in Hrun.
  apply bind_inv in Hrun as ([] & s1 & Hexp & [= <- <-]).
  apply for_expunge_detaches in Hexp as [Hnew Hsub].
  simpl. intros o [Ho|Ho]%elem_of_app.
  - intros Hin. by apply (Hacc o Ho), Hsub.
  - by apply Hnew.
Qed.

Lemma detaches_add self data : detaches (fun o => [o]) (add self data).
Proof.
  unfold add. apply detaches_wrap. do 3 (apply detaches_bind; intros ?).
  apply detaches_expunge_ret.
Qed.

Lemma detaches_get self item_id : detaches (fun o => [o]) (get self item_id).
Proof.
  unfold get. apply detaches_wrap. do 3 (apply detaches_bind; intros ?).
  apply detaches_expunge_ret.
Qed.

Lemma detaches_get_one_or_none self kwargs :
  detaches option_list (get_one_or_none self kwargs).
Proof.
  unfold get_one_or_none. apply detaches_wrap.
  apply detaches_bind; intros result. apply detaches_bind; intros instance.
  destruct instance as [o|].
  - intros s a s' Hrun. apply bind_inv in Hrun as ([] & s1 & Hexp & [= <- <-]).
    simpl. intros x ->%list_elem_of_singleton.
    by apply session_expunge_detaches in Hexp as [? _].
  - intros s a s' [= <- <-] o Ho. by apply elem_of_nil in Ho.
Qed.

Lemma detaches_map {A} (f : A → list nat) (m : M A) :
  detaches f m → detaches (fun l => l) (a ← m; ret (f a)).
Proof.
  intros H s l s' Hrun. apply bind_inv in Hrun as (a & s1 & Hm & [= <- <-]).
  by apply (H _ _ _ Hm).
Qed.

(** C5: every entity an operation of the repository returns is
    expunged from the session when the operation returns. *)
Theorem returned_entities_are_detached self op s entities s' :
  entities_returned self op s = (Ok entities, s') →
  ∀ o, o ∈ entities → o ∉ owned s'.
Proof.
  revert s entities s'. change (detaches (fun l => l) (entities_returned self op)).
  destruct op; simpl.
  - apply (detaches_map (fun o => [o])). apply detaches_get.
  - apply (detaches_map (fun o => [o])). unfold get_one. apply detaches_wrap.
    do 3 (apply detaches_bind; intros ?). apply detaches_expunge_ret.
  - apply (detaches_map option_list). apply detaches_get_one_or_none.
  - apply (detaches_map (fun r : nat * bool => [r.1])). unfold get_or_create.
    intros s r s' Hrun. apply bind_inv in Hrun as (existing & s1 & Hget & Hk).
    destruct existing as [o|].
    + injection Hk as <- <-. by apply (detaches_get_one_or_none _ _ _ _ _ Hget).
    + apply bind_inv in Hk as (data & s2 & _ & Hk).
      apply bind_inv in Hk as (instance & s3 & Hadd & [= <- <-]).
      by apply (detaches_add _ _ _ _ _ Hadd).
  - apply detaches_list.
  - apply (detaches_map (fun r : list nat * Z => r.1)). unfold list_and_count.
    apply detaches_lift. intros st. apply detaches_wrap. apply detaches_bind.
    intros result s r s' Hrun. eapply detaches_list_and_count_loop; [exact Hrun|].
    intros o Ho. by apply elem_of_nil in Ho.
  - apply (detaches_map (fun o => [o])). apply detaches_add.
  - unfold add_many. apply detaches_bind. intros data_to_insert. apply detaches_wrap.
    apply detaches_bind. intros [].
    + apply detaches_bind. intros instances. apply detaches_for_expunge_ret.
    + do 2 (apply detaches_bind; intros ?). apply detaches_list.
  - apply (detaches_map (fun o => [o])). unfold update. apply detaches_wrap.
    do 5 (apply detaches_bind; intros ?). apply detaches_expunge_ret.
  - unfold update_many. apply detaches_bind. intros data_to_update. apply detaches_wrap.
    apply detaches_bind. intros [].
    + do 2 (apply detaches_bind; intros ?). apply detaches_for_expunge_ret.
    + do 2 (apply detaches_bind; intros ?). apply detaches_list.
  - apply (detaches_map (fun o => [o])). unfold upsert. apply detaches_wrap.
    do 3 (apply detaches_bind; intros ?). apply detaches_expunge_ret.
  - apply (detaches_map (fun o => [o])). unfold delete_. apply detaches_wrap.
    do 3 (apply detaches_bind; intros ?). apply detaches_expunge_ret.
  - unfold delete_many. apply detaches_wrap. apply detaches_bind. intros [].
    + do 2 (apply detaches_bind; intros ?). apply detaches_for_expunge_ret.
    + intros s instances s' Hrun.
      apply bind_inv in Hrun as (l & s1 & Hlist & Hk).
      apply bind_inv in Hk as ([] & s2 & Hdel & Hk).
      apply bind_inv in Hk as ([] & s3 & Hflush & [= <- <-]).
      intros o Ho. rewrite (keeps_flush _ _ _ Hflush).
      assert (Hkeep : keeps (session_execute_delete (In_ id_attribute item_ids))).
      { unfold session_execute_delete. keeps_tac. }
      rewrite (Hkeep _ _ _ Hdel). by apply (detaches_list _ _ _ _ _ _ Hlist).
Qed.

Lemma returned_entities_are_detached_witness :
  entities_returned plain_repository (DeleteMany [VInt 1; VInt 3]) (sample_session false)
  = (Ok [0; 1]%nat,
     (entities_returned plain_repository (DeleteMany [VInt 1; VInt 3])
        (sample_session false)).2)
  ∧ 1%nat ∉ owned (entities_returned plain_repository (DeleteMany [VInt 1; VInt 3])
                     (sample_session false)).2.
Proof.
  assert (H : entities_returned plain_repository (DeleteMany [VInt 1; VInt 3])
                (sample_session false)
              = (Ok [0; 1]%nat,
                 (entities_returned plain_repository (DeleteMany [VInt 1; VInt 3])
                    (sample_session false)).2)).
  { vm_compute. reflexivity. }
  split; [exact H|].
  apply (returned_entities_are_detached _ _ _ _ _ H 1%nat).
  apply list_elem_of_further, list_elem_of_here.
Defined.

(** ** Flushing and bulk deletion when nothing is pending *)

Lemma filter_all_false {A} (f : A → bool) (l : list A) :
  (∀ x, x ∈ l → f x = false) → List.filter f l = [].
Proof.
  induction l as [|x l IH]; intros H; simpl; [done|].
  rewrite (H x) by apply list_elem_of_here.
  apply IH. intros y Hy. apply H. by apply list_elem_of_further.
Qed.

Lemma filter_all_true {A} (f : A → bool) (l : list A) :
  (∀ x, x ∈ l → f x = true) → List.filter f l = l.
Proof.
  induction l as [|x l IH]; intros H; simpl; [done|].
  rewrite (H x) by apply list_elem_of_here.
  f_equal. apply IH. intros y Hy. apply H. by apply list_elem_of_further.
Qed.

(** A flush with no pending, modified or deleted instance does nothing. *)
Lemma flush_idle s :
  dirty s = [] → deleted s = [] →
  (∀ o, o ∈ owned s → key (instance_of o s) ≠ None) →
  flush s = (Ok tt, s).
Proof.
  intros Hd Hdel Hkeys. unfold flush, touch_updated_timestamp.
  rewrite bind_assoc. erewrite bind_ok by reflexivity. rewrite Hd. simpl.
  erewrite bind_ok by reflexivity. erewrite bind_ok by reflexivity.
  rewrite filter_all_false; cycle 1.
  { intros o Ho. apply bool_decide_eq_false_2. by apply Hkeys. }
  simpl. erewrite bind_ok by reflexivity. rewrite Hd. simpl.
  erewrite bind_ok by reflexivity. rewrite Hdel. simpl.
  erewrite bind_ok by reflexivity. unfold modify. f_equal.
  destruct s; simpl in *; subst. unfold set_gone, set_deleted, set_dirty. simpl.
  by rewrite app_nil_r.
Qed.

(** A bulk DELETE in a clean session: the rows that meet the criterion
    go, nothing else changes. *)
Lemma delete_where_clean criterion s :
  clean s →
  ∃ s', delete_where criterion s = (Ok (List.filter (holds criterion) (table s)), s')
        ∧ clean s'
        ∧ table s' = List.filter (fun r => negb (holds criterion r)) (table s)
        ∧ heap s' = heap s ∧ next_obj s' = next_obj s ∧ uuid_next s' = uuid_next s
        ∧ clock s' = clock s ∧ dialect s' = dialect s.
Proof.
  intros Hclean. unfold delete_where.
  erewrite bind_ok by (by apply flush_clean).
  erewrite bind_ok by reflexivity.
  destruct Hclean as (Ho & Hd & Hdel & Hg).
  eexists. split; [reflexivity|]. unfold clean. simpl. rewrite Ho, Hg. simpl.
  by repeat split.
Qed.

Lemma states_heap objs s s' : heap s' = heap s → states objs s' = states objs s.
Proof.
  intros H. unfold states. apply list_fmap_ext. intros _ o _.
  unfold state_of. by rewrite (instance_of_heap o s s').
Qed.

Lemma kwargs_empty {T} (st : Select T) : _filter_select_by_kwargs st ∅ = st.
Proof. unfold _filter_select_by_kwargs. by rewrite map_to_list_empty. Qed.


Lemma holds_in f vs row :
  getattr row f ≠ VNone → holds (In_ f vs) row = bool_decide (getattr row f ∈ vs).
Proof. simpl. by destruct (getattr row f). Qed.

(** ** Bulk deletion *)

Lemma window_filter_in_collection {A} f vs (l : list A) :
  window (_filter_select_by_kwargs (_filter_in_collection f vs select_model) ∅) l = l.
Proof. rewrite kwargs_empty. by destruct vs. Qed.

(** [delete_many] where DELETE cannot return rows: the entities that
    [list] selects with the Membership filter on the identifiers come
    back; the rows with one of the identifiers go. *)
Lemma delete_many_reselect item_ids s :
  clean s → primary_key (table s) →
  delete_executemany_returning (dialect s) = false →
  ∃ objs s',
    delete_many plain_repository item_ids s = (Ok objs, s')
    ∧ states objs s'
      = selected (_filter_in_collection id_attribute item_ids select_model) (table s)
    ∧ clean s'
    ∧ table s' = List.filter (fun r => negb (holds (In_ id_attribute item_ids) r)) (table s)
    ∧ uuid_next s' = uuid_next s ∧ clock s' = clock s ∧ dialect s' = dialect s.
Proof.
  intros Hclean Hpk Hflag.
  destruct (list_clean plain_repository [CollectionFilter id_attribute item_ids] ∅ s
              _ Hclean Hpk eq_refl)
    as (s1 & Hlist & Hclean1 & Ht1 & Hu1 & Hc1 & Hd1 & Hn1 & Hstates & _).
  rewrite window_filter_in_collection in Hlist, Hstates. rewrite kwargs_empty in Hlist, Hstates.
  destruct (delete_where_clean (In_ id_attribute item_ids) s1 Hclean1)
    as (s2 & Hdel & Hclean2 & Ht2 & Hh2 & Hn2 & Hu2 & Hc2 & Hd2).
  exists (seq (next_obj s) (length (selected (_filter_in_collection id_attribute item_ids
            select_model) (table s)))), s2.
  split.
  { unfold delete_many. apply wrap_ok. erewrite bind_ok by reflexivity. rewrite Hflag.
    erewrite bind_ok by exact Hlist. unfold session_execute_delete.
    rewrite bind_assoc. erewrite bind_ok by exact Hdel.
    erewrite bind_ok by reflexivity.
    erewrite bind_ok by (by apply flush_clean). reflexivity. }
  split. { rewrite (states_heap _ s1 s2) by done. exact Hstates. }
  split; [done|]. repeat split; congruence.
Qed.

(** [delete_many] where DELETE returns the rows it deleted. *)
Lemma delete_many_returning item_ids s :
  clean s → primary_key (table s) →
  delete_executemany_returning (dialect s) = true →
  ∃ objs s',
    delete_many plain_repository item_ids s = (Ok objs, s')
    ∧ states objs s' = List.filter (holds (In_ id_attribute item_ids)) (table s)
    ∧ clean s'
    ∧ table s' = List.filter (fun r => negb (holds (In_ id_attribute item_ids) r)) (table s)
    ∧ uuid_next s' = uuid_next s ∧ clock s' = clock s ∧ dialect s' = dialect s.
Proof.
  intros Hclean Hpk Hflag.
  destruct (delete_where_clean (In_ id_attribute item_ids) s Hclean)
    as (s1 & Hdel & Hclean1 & Ht1 & Hh1 & Hn1 & Hu1 & Hc1 & Hd1).
  set (rows := List.filter (holds (In_ id_attribute item_ids)) (table s)) in *.
  destruct (mapM_load_instance rows s1) as (s2 & Hload & Hsame & Ho2 & Hn2 & Hnew & Hold).
  { eapply primary_key_sublist; [|exact Hpk]. apply sublist_List_filter. }
  { destruct Hclean1 as [-> _]. intros o Ho. by apply elem_of_nil in Ho. }
  destruct Hsame as (Ht & Hd & Hdl & Hg & Hu & Hc & Hdi).
  destruct Hclean1 as (Hc1' & Hc2' & Hc3' & Hc4').
  rewrite Hc1' in Ho2. simpl in Ho2.
  assert (Hflush : flush s2 = (Ok tt, s2)).
  { apply flush_idle; [congruence|congruence|].
    intros o Ho. rewrite Ho2 in Ho. apply elem_of_seq in Ho as [Hge Hlt].
    destruct (rows !! (o - next_obj s1)%nat) as [row|] eqn:Hrow.
    - specialize (Hnew _ _ Hrow).
      replace (next_obj s1 + (o - next_obj s1))%nat with o in Hnew by lia.
      by rewrite Hnew.
    - apply lookup_ge_None in Hrow. lia. }
  destruct (for_session_expunge (seq (next_obj s1) (length rows)) s2)
    as (s3 & Hexp & Ho3 & Hd3 & Hdel3 & Hg3 & Hheap3 & Hn3 & Ht3 & Hu3 & Hcl3 & Hdi3).
  { apply NoDup_seq. }
  { intros o Ho. by rewrite Ho2. }
  exists (seq (next_obj s1) (length rows)), s3. split.
  { unfold delete_many. apply wrap_ok. erewrite bind_ok by reflexivity. rewrite Hflag.
    unfold session_scalars_delete_returning. rewrite bind_assoc.
    erewrite bind_ok by exact Hdel. erewrite bind_ok by exact Hload.
    erewrite bind_ok by exact Hflush. erewrite bind_ok by exact Hexp. reflexivity. }
  split.
  { apply states_seq. intros i row Hi. rewrite (instance_of_heap _ s2 s3) by done.
    by apply Hnew. }
  split.
  { repeat split.
    - rewrite Ho3, Ho2. by apply without_all.
    - rewrite Hd3, Hd, Hc2'. apply without_nil.
    - rewrite Hdel3, Hdl, Hc3'. apply without_nil.
    - rewrite Hg3, Hg, Hc4'. apply without_nil. }
  repeat split; congruence.
Qed.

Lemma selected_select_model t : selected select_model t = t.
Proof. unfold selected. simpl. by apply filter_all_true. Qed.

Lemma selected_in_collection f v vs t :
  selected (_filter_in_collection f (v :: vs) select_model) t
  = List.filter (holds (In_ f (v :: vs))) t.
Proof.
  unfold selected. cbn [_filter_in_collection where_ whereclause select_model app forallb].
  apply filter_ext. intros r. by rewrite andb_true_r.
Qed.

(** C8: with entities A, B and C in the collection, [delete_many] on
    the identifiers of A and C returns the snapshots of A and C as they
    were, and B alone is left for a following [list]; this on either
    kind of backend.  Where DELETE cannot return rows, the operation is
    [list] with the Membership filter on the identifiers, then the bulk
    delete and a flush, and the entities of [list] are returned. *)
Theorem delete_many_returns_deleted_snapshots (ra rb rc : dict) (s : Session) :
  clean s → table s = [ra; rb; rc] → primary_key [ra; rb; rc] →
  let item_ids := [getattr ra "id"; getattr rc "id"] in
  (∃ instances s',
     delete_many plain_repository item_ids s = (Ok instances, s')
     ∧ states instances s' = [ra; rc]
     ∧ ∃ remaining s'',
         list_ plain_repository [] ∅ s' = (Ok remaining, s'')
         ∧ states remaining s'' = [rb])
  ∧ (delete_executemany_returning (dialect s) = false →
     delete_many plain_repository item_ids s
     = wrap_sqlalchemy_exception (
         instances ← list_ plain_repository [CollectionFilter id_attribute item_ids] ∅;
         session_execute_delete (In_ id_attribute item_ids);;
         flush;;
         ret instances) s).
Proof.
  intros Hclean Ht Hpk item_ids. split; cycle 1.
  { intros Hflag. unfold delete_many, wrap_sqlalchemy_exception.
    erewrite bind_ok by reflexivity. by rewrite Hflag. }
  assert (Hpk' : primary_key (table s)) by (by rewrite Ht).
  destruct Hpk as [Hnd Hnn]. unfold ids in Hnd, Hnn. simpl in Hnd, Hnn.
  apply NoDup_cons in Hnd as [Hab Hnd]. apply NoDup_cons in Hnd as [Hbc _].
  apply not_elem_of_cons in Hab as [Hab Hac].
  apply not_elem_of_cons in Hac as [Hac _].
  apply not_elem_of_cons in Hbc as [Hbc _].
  apply not_elem_of_cons in Hnn as [Ha Hnn].
  apply not_elem_of_cons in Hnn as [Hb Hnn].
  apply not_elem_of_cons in Hnn as [Hc _].
  assert (Hhit : List.filter (holds (In_ id_attribute item_ids)) [ra; rb; rc] = [ra; rc]).
  { unfold item_ids, id_attribute. cbn [List.filter].
    rewrite !holds_in by done.
    rewrite (bool_decide_eq_true_2 (getattr ra "id" ∈ _)) by apply list_elem_of_here.
    rewrite (bool_decide_eq_true_2 (getattr rc "id" ∈ _))
      by apply list_elem_of_further, list_elem_of_here.
    rewrite (bool_decide_eq_false_2 (getattr rb "id" ∈ _)); [done|].
    intros [?|[?|?%elem_of_nil]%elem_of_cons]%elem_of_cons; congruence. }
  assert (Hmiss : List.filter (fun r => negb (holds (In_ id_attribute item_ids) r))
                    [ra; rb; rc] = [rb]).
  { unfold item_ids, id_attribute. cbn [List.filter].
    rewrite !holds_in by done.
    rewrite (bool_decide_eq_true_2 (getattr ra "id" ∈ _)) by apply list_elem_of_here.
    rewrite (bool_decide_eq_true_2 (getattr rc "id" ∈ _))
      by apply list_elem_of_further, list_elem_of_here.
    rewrite (bool_decide_eq_false_2 (getattr rb "id" ∈ _)); [done|].
    intros [?|[?|?%elem_of_nil]%elem_of_cons]%elem_of_cons; congruence. }
  assert (Hdelete : ∃ instances s',
    delete_many plain_repository item_ids s = (Ok instances, s')
    ∧ states instances s' = [ra; rc] ∧ clean s' ∧ table s' = [rb]).
  { destruct (delete_executemany_returning (dialect s)) eqn:Hflag.
    - destruct (delete_many_returning item_ids s Hclean Hpk' Hflag)
        as (objs & s' & Hrun & Hst & Hcl & Htab & _).
      exists objs, s'. rewrite Ht, Hhit in Hst. rewrite Ht, Hmiss in Htab. done.
    - destruct (delete_many_reselect item_ids s Hclean Hpk' Hflag)
        as (objs & s' & Hrun & Hst & Hcl & Htab & _).
      exists objs, s'. unfold item_ids in Hst. rewrite selected_in_collection in Hst.
      fold item_ids in Hst. rewrite Ht, Hhit in Hst. rewrite Ht, Hmiss in Htab. done. }
  destruct Hdelete as (instances & s' & Hrun & Hst & Hcl & Htab).
  exists instances, s'. split; [done|]. split; [done|].
  assert (Hpk'' : primary_key (table s')).
  { rewrite Htab. split.
    - unfold ids. simpl. apply NoDup_singleton.
    - unfold ids. simpl. by intros ?%list_elem_of_singleton. }
  destruct (list_clean plain_repository [] ∅ s' select_model Hcl Hpk'' eq_refl)
    as (s'' & Hlist & _ & _ & _ & _ & _ & _ & Hstates & _).
  rewrite kwargs_empty, selected_select_model, Htab in Hlist, Hstates.
  eexists _, s''. split; [exact Hlist|]. exact Hstates.
Qed.

Lemma delete_many_returns_deleted_snapshots_witness :
  ∃ instances s',
    delete_many plain_repository [VInt 1; VInt 3] (sample_session true) = (Ok instances, s')
    ∧ states instances s' = [sample_row 1 "a" 10; sample_row 3 "c" 30]
    ∧ ∃ remaining s'',
        list_ plain_repository [] ∅ s' = (Ok remaining, s'')
        ∧ states remaining s'' = [sample_row 2 "b" 20].
Proof.
  exact (proj1 (delete_many_returns_deleted_snapshots
           (sample_row 1 "a" 10) (sample_row 2 "b" 20) (sample_row 3 "c" 30)
           (sample_session true) (sample_session_clean true) eq_refl
           (sample_session_primary_key true))).
Defined.

(** ** Looking one entity up *)

Lemma execute_entity_nothing (st : Select Entity) s :
  clean s → window st (selected st (table s)) = [] → _execute st s = (Ok [], s).
Proof.
  intros Hclean Hrows. unfold _execute, session_execute.
  erewrite bind_ok by (by apply flush_clean).
  erewrite bind_ok by reflexivity. by rewrite Hrows.
Qed.

Lemma remove_singleton o : remove o [o] = [].
Proof. unfold remove. simpl. by rewrite bool_decide_eq_true_2. Qed.

(** [get_one_or_none] in a clean session, by the number of rows the
    statement selects. *)
Lemma get_one_or_none_clean self kwargs s :
  clean s → primary_key (table s) →
  let st := _filter_select_by_kwargs (statement self) kwargs in
  match window st (selected st (table s)) with
  | [] => get_one_or_none self kwargs s = (Ok None, s)
  | [row] =>
      ∃ s', get_one_or_none self kwargs s = (Ok (Some (next_obj s)), s')
            ∧ clean s' ∧ table s' = table s ∧ uuid_next s' = uuid_next s
            ∧ clock s' = clock s ∧ dialect s' = dialect s
            ∧ state_of (next_obj s) s' = row
  | _ :: _ :: _ =>
      ∃ e s', get_one_or_none self kwargs s = (Raise e, s')
              ∧ exc_class e = StarliteSaqlalchemyError
  end.
Proof.
  intros Hclean Hpk st.
  destruct (execute_entity_clean st s Hclean Hpk)
    as (s1 & Hrun & Hsame & Ho & Hnext & Hnew & Hold).
  destruct (window st (selected st (table s))) as [|row [|row2 rest]] eqn:Hrows.
  - unfold get_one_or_none. apply wrap_ok. fold st.
    erewrite bind_ok by (by apply execute_entity_nothing). reflexivity.
  - simpl in Hrun, Ho.
    destruct Hsame as (Ht & Hd & Hdel & Hg & Hu & Hc & Hdi).
    destruct Hclean as (Hc1 & Hc2 & Hc3 & Hc4).
    eexists. split.
    { unfold get_one_or_none. apply wrap_ok. fold st.
      erewrite bind_ok by exact Hrun.
      erewrite bind_ok by reflexivity. cbv beta iota.
      erewrite bind_ok; [reflexivity|].
      apply session_expunge_owned. rewrite Ho. apply list_elem_of_here. }
    simpl. unfold clean. simpl.
    rewrite Ho, Hd, Hdel, Hg, Hc2, Hc3, Hc4, remove_singleton.
    repeat split; try done.
    unfold state_of. 
    change (instance_of (next_obj s) _) with (instance_of (next_obj s) s1).
    specialize (Hnew 0%nat row eq_refl). rewrite Nat.add_0_r in Hnew. by rewrite Hnew.
  - simpl in Hrun. eexists _, _. split.
    { unfold get_one_or_none, wrap_sqlalchemy_exception. fold st.
      erewrite bind_ok by exact Hrun. simpl. reflexivity. }
    reflexivity.
Qed.

(** ** Adding an entity *)

Lemma getattr_insert (d : dict) k v k' :
  getattr (<[k := v]> d) k' = if bool_decide (k = k') then v else getattr d k'.
Proof.
  unfold getattr. case_bool_decide.
  - subst. by rewrite lookup_insert_eq.
  - by rewrite lookup_insert_ne.
Qed.

(** An INSERT whose primary key is free: one row more, with the
    parameters given and the defaults for the others. *)
Lemma insert_row_ok params s :
  existsb (has_id (defaulted params "id" (VInt (uuid_next s)))) (table s) = false →
  ∃ row s',
    insert_row params s = (Ok row, s')
    ∧ table s' = table s ++ [row] ∧ heap s' = heap s ∧ owned s' = owned s
    ∧ dirty s' = dirty s ∧ deleted s' = deleted s ∧ gone s' = gone s
    ∧ next_obj s' = next_obj s ∧ dialect s' = dialect s
    ∧ getattr row "id" = defaulted params "id" (VInt (uuid_next s))
    ∧ (∀ k, k ≠ "id" → k ≠ "created" → k ≠ "updated" → row !! k = params !! k)
    ∧ (∀ k, getattr params k ≠ VNone → getattr row k = getattr params k).
Proof.
  intros Hfree. unfold insert_row, column_default, defaulted in *.
  destruct (getattr params "id") eqn:Hid;
    destruct (getattr params "created") eqn:Hcr;
    destruct (getattr params "updated") eqn:Hup;
    unfold bind, uuid4, datetime_now, ret, gets, modify; simpl;
    rewrite Hfree; simpl;
    (eexists _, _; split; [reflexivity|]; simpl;
     repeat split; try done;
     [ by rewrite getattr_insert
     | intros k ? ? ?; by rewrite !lookup_insert_ne
     | intros k Hk; rewrite !getattr_insert;
       repeat case_bool_decide; subst; congruence ]).
Qed.

Lemma existsb_has_id pk t : existsb (has_id pk) t = false ↔ pk ∉ ids t.
Proof.
  unfold ids. induction t as [|r t IH]; simpl.
  - split; [intros _; apply not_elem_of_nil|done].
  - rewrite orb_false_iff, IH, not_elem_of_cons. unfold has_id.
    rewrite bool_decide_eq_false. split; intros [? ?]; split; try done; congruence.
Qed.

Lemma find_has_id_last pk t row :
  pk ∉ ids t → getattr row "id" = pk → List.find (has_id pk) (t ++ [row]) = Some row.
Proof.
  intros Hfree Hrow. induction t as [|r t IH]; simpl.
  - unfold has_id. by rewrite bool_decide_eq_true_2.
  - unfold ids in Hfree. simpl in Hfree. apply not_elem_of_cons in Hfree as [Hr Hfree].
    unfold has_id at 1. rewrite bool_decide_eq_false_2 by congruence. by apply IH.
Qed.

Lemma instance_of_insert_eq o inst (h : gmap nat orm_instance) t n ow di de go u c dl :
  instance_of o (MkSession t (<[o := inst]> h) n ow di de go u c dl) = inst.
Proof. unfold instance_of. simpl. by rewrite lookup_insert_eq. Qed.

Lemma bind_gets {A B} (f : Session → A) (k : A → M B) s :
  bind (gets f) k s = k (f s) s.
Proof. reflexivity. Qed.

Lemma bind_modify {B} (f : Session → Session) (k : unit → M B) s :
  bind (modify f) k s = k tt (f s).
Proof. reflexivity. Qed.

Lemma bind_ret {A B} (a : A) (k : A → M B) s : bind (ret a) k s = k a s.
Proof. reflexivity. Qed.

Lemma bind_ext {A B} (m : M A) (k1 k2 : A → M B) s :
  (∀ a s', k1 a s' = k2 a s') → bind m k1 s = bind m k2 s.
Proof. intros H. unfold bind. destruct (m s) as [[a|e] s1]; [apply H|done]. Qed.

Lemma attach_add data s :
  data ∉ owned s → key (instance_of data s) = None →
  _attach_to_session data "add" s = (Ok data, set_owned (fun l => l ++ [data]) s).
Proof.
  intros Hnew Hkey. unfold _attach_to_session.
  rewrite bool_decide_eq_true_2 by done. unfold session_add.
  rewrite bind_assoc, bind_gets. rewrite bool_decide_eq_false_2 by done.
  rewrite Hkey. by rewrite bind_modify.
Qed.

(** A flush with pending instances only inserts them. *)
Lemma flush_pending s :
  dirty s = [] → deleted s = [] →
  flush s
  = bind (for_ (List.filter (fun o => bool_decide (key (instance_of o s) = None)) (owned s))
               flush_insert)
         (fun _ => modify (fun s' => set_gone (fun g => g ++ [])
                     (set_deleted (fun _ => []) (set_dirty (fun _ => []) s')))) s.
Proof.
  intros Hd Hdel. unfold flush, touch_updated_timestamp.
  rewrite bind_assoc, bind_gets, Hd. cbn [for_]. rewrite bind_ret, bind_gets.
  rewrite Hd, Hdel. cbn [for_ List.filter].
  apply bind_ext. intros [] s'. by rewrite !bind_ret.
Qed.

Lemma flush_insert_one s data row s2 :
  dirty s = [] → deleted s = [] → owned s = [data] →
  key (instance_of data s) = None →
  insert_row (state_of data s) s = (Ok row, s2) →
  flush s
  = (Ok tt, set_gone (fun g => g ++ []) (set_deleted (fun _ => []) (set_dirty (fun _ => [])
              (set_heap (fun h => <[data := MkInstance row (Some (getattr row "id"))]> h) s2)))).
Proof.
  intros Hd Hdel Ho Hkey Hins. rewrite flush_pending by done.
  rewrite Ho. cbn [List.filter]. rewrite Hkey, bool_decide_eq_true_2 by done.
  cbn [for_]. unfold flush_insert. rewrite !bind_assoc, bind_gets, !bind_assoc.
  erewrite bind_ok by exact Hins. by rewrite bind_modify, bind_ret.
Qed.

Lemma refresh_persistent data s pk row :
  flush s = (Ok tt, s) → key (instance_of data s) = Some pk →
  data ∈ owned s → data ∉ gone s → List.find (has_id pk) (table s) = Some row →
  session_refresh data s
  = (Ok tt, set_heap (fun h => <[data := MkInstance row (Some pk)]> h) s).
Proof.
  intros Hflush Hkey Ho Hg Hfind. unfold session_refresh.
  erewrite bind_ok by exact Hflush. rewrite bind_gets, Hkey.
  rewrite (bool_decide_eq_true_2 _ Ho), (bool_decide_eq_false_2 _ Hg). cbn [andb negb].
  by rewrite Hfind.
Qed.

(** [add] of a transient instance in a clean session, when the
    identifier it brings, or the one generated for it, is free. *)
Lemma add_clean self data s :
  clean s → key (instance_of data s) = None →
  let params := state_of data s in
  let pk := defaulted params "id" (VInt (uuid_next s)) in
  pk ∉ ids (table s) →
  ∃ row s',
    add self data s = (Ok data, s')
    ∧ clean s' ∧ table s' = table s ++ [row] ∧ state_of data s' = row
    ∧ dialect s' = dialect s ∧ next_obj s' = next_obj s
    ∧ getattr row "id" = pk
    ∧ (∀ k, k ≠ "id" → k ≠ "created" → k ≠ "updated" → row !! k = params !! k)
    ∧ (∀ k, getattr params k ≠ VNone → getattr row k = getattr params k).
Proof.
  intros (Hc1 & Hc2 & Hc3 & Hc4) Hkey params pk Hfree.
  set (s1 := set_owned (fun l => l ++ [data]) s).
  destruct (insert_row_ok params s1) as (row & s2 & Hins & Ht2 & Hh2 & Ho2 & Hd2 & Hdel2
                                         & Hg2 & Hn2 & Hdi2 & Hid & Hother & Hgiven).
  { apply existsb_has_id. exact Hfree. }
  exists row.
  assert (Hs1 : state_of data s1 = params) by done.
  pose proof (attach_add data s) as Hattach.
  rewrite Hc1 in Hattach. specialize (Hattach (not_elem_of_nil _) Hkey). fold s1 in Hattach.
  pose proof (flush_insert_one s1 data row s2) as Hflush.
  rewrite Hs1 in Hflush. specialize (Hflush Hc2 Hc3).
  specialize (Hflush ltac:(by cbn; rewrite Hc1) Hkey Hins).
  set (s3 := set_gone _ _) in Hflush.
  assert (Hfind : List.find (has_id pk) (table s3) = Some row).
  { cbn. rewrite Ht2. by apply find_has_id_last. }
  assert (Hkey3 : key (instance_of data s3) = Some pk).
  { unfold instance_of. cbn. rewrite lookup_insert_eq. cbn. f_equal. exact Hid. }
  assert (Ho3 : owned s3 = [data]) by (cbn; rewrite Ho2; cbn; by rewrite Hc1).
  assert (Hg3 : gone s3 = []) by (cbn; rewrite Hg2; cbn; by rewrite Hc4).
  assert (Hd3 : dirty s3 = []) by done.
  assert (Hdel3 : deleted s3 = []) by done.
  pose proof (refresh_persistent data s3 pk row) as Hrefresh.
  assert (Hidle : flush s3 = (Ok tt, s3)).
  { apply flush_idle; [done|done|]. rewrite Ho3.
    intros o ->%list_elem_of_singleton. by rewrite Hkey3. }
  specialize (Hrefresh Hidle Hkey3).
  specialize (Hrefresh ltac:(rewrite Ho3; apply list_elem_of_here)
                       ltac:(rewrite Hg3; apply not_elem_of_nil) Hfind).
  set (s4 := set_heap _ s3) in Hrefresh.
  eexists. split.
  { unfold add. apply wrap_ok. erewrite bind_ok by exact Hattach.
    erewrite bind_ok by exact Hflush. erewrite bind_ok by exact Hrefresh.
    erewrite bind_ok; [reflexivity|].
    apply session_expunge_owned. change (owned s4) with (owned s3). rewrite Ho3.
    apply list_elem_of_here. }
  unfold clean.
  change (owned (set_owned ?f ?x)) with (f (owned x)).
  cbn [owned dirty deleted gone table dialect next_obj set_owned set_dirty set_deleted
       set_gone].
  change (owned s4) with (owned s3). change (gone s4) with (gone s3).
  change (table s4) with (table s2). change (dialect s4) with (dialect s2).
  change (next_obj s4) with (next_obj s2).
  rewrite Ho3, Hg3, remove_singleton. cbn.
  repeat split; try done.
  unfold state_of, instance_of. cbn. by rewrite lookup_insert_eq.
Qed.

Lemma insert_row_conflict params s :
  getattr params "id" ≠ VNone → getattr params "id" ∈ ids (table s) →
  ∃ s', insert_row params s
        = (Raise (new_exn IntegrityError "duplicate key value violates unique constraint"), s')
        ∧ table s' = table s ∧ owned s' = owned s ∧ heap s' = heap s.
Proof.
  intros Hnn Hin.
  assert (Hex : existsb (has_id (getattr params "id")) (table s) = true).
  { destruct (existsb _ _) eqn:E; [done|]. by apply existsb_has_id in E. }
  unfold insert_row, column_default.
  destruct (getattr params "id") eqn:Hid; [done| |];
    destruct (getattr params "created") eqn:Hcr;
    destruct (getattr params "updated") eqn:Hup;
    unfold bind, uuid4, datetime_now, ret, gets, modify, raise; simpl;
    rewrite Hex; eexists; (split; [reflexivity|done]).
Qed.

(** [add] of a transient instance whose identifier is in use. *)
Lemma add_refused self data s :
  clean s → key (instance_of data s) = None →
  getattr (state_of data s) "id" ≠ VNone →
  getattr (state_of data s) "id" ∈ ids (table s) →
  ∃ s', add self data s
        = (Raise (Exn ConflictError ""
                    (Some (IntegrityError, "duplicate key value violates unique constraint"))),
           s')
        ∧ table s' = table s.
Proof.
  intros (Hc1 & Hc2 & Hc3 & Hc4) Hkey Hid Hin.
  set (s1 := set_owned (fun l => l ++ [data]) s).
  pose proof (attach_add data s) as Hattach.
  rewrite Hc1 in Hattach. specialize (Hattach (not_elem_of_nil _) Hkey). fold s1 in Hattach.
  destruct (insert_row_conflict (state_of data s) s1 Hid Hin) as (s2 & Hins & Ht2 & _).
  assert (Hflush : flush s1
    = (Raise (new_exn IntegrityError "duplicate key value violates unique constraint"), s2)).
  { rewrite flush_pending by done. change (owned s1) with (owned s ++ [data]).
    rewrite Hc1. cbn [app List.filter].
    change (instance_of data s1) with (instance_of data s). rewrite Hkey.
    rewrite bool_decide_eq_true_2 by done. cbn [for_].
    unfold flush_insert. rewrite !bind_assoc, bind_gets, !bind_assoc.
    change (state_of data s1) with (state_of data s).
    by erewrite bind_raise by exact Hins. }
  exists s2. split; [|done].
  unfold add, wrap_sqlalchemy_exception. erewrite bind_ok by exact Hattach.
  erewrite bind_raise by exact Hflush. reflexivity.
Qed.

(** ** Get or create *)

Lemma window_nil {T A} (st : Select T) : window st (@nil A) = [].
Proof. unfold window. destruct (limit_clause st); by rewrite ?drop_nil, ?take_nil. Qed.

Lemma defaulted_not_none params name v : v ≠ VNone → defaulted params name v ≠ VNone.
Proof. unfold defaulted. by destruct (getattr params name) eqn:E. Qed.

Lemma selected_app {T} (st : Select T) t1 t2 :
  selected st (t1 ++ t2) = selected st t1 ++ selected st t2.
Proof. unfold selected. apply List.filter_app. Qed.

Lemma selected_kwargs_singleton kwargs row :
  satisfies kwargs row → selected (_filter_select_by_kwargs select_model kwargs) [row] = [row].
Proof.
  intros Hsat. unfold selected. rewrite whereclause_filter_select_by_kwargs.
  cbn [select_model whereclause app List.filter].
  by rewrite (proj2 (forallb_kwargs kwargs row) Hsat).
Qed.

Lemma primary_key_snoc t row :
  primary_key t → getattr row "id" ∉ ids t → getattr row "id" ≠ VNone →
  primary_key (t ++ [row]).
Proof.
  intros [Hnd Hnn] Hfree Hrow. unfold primary_key, ids. rewrite fmap_app. simpl. split.
  - apply NoDup_app. split; [done|]. split; [|apply NoDup_singleton].
    intros x Hx ->%list_elem_of_singleton. done.
  - intros [?|?%list_elem_of_singleton]%elem_of_app; [done|congruence].
Qed.

(** C7 as amended: in a session with nothing pending, when no entity
    meets the constraints.  If the constraints give no [None] for a
    column with a default ([id], [created], [updated]) and the
    identifier (the one given, or the one generated) is not in use,
    [get_or_create] returns a new entity that meets the constraints,
    with [True]; the same call again returns the same entity with
    [False], and creates nothing.  If the constraints name an
    identifier that is in use, [get_or_create] raises [ConflictError],
    caused by the [IntegrityError] of the insert, and creates
    nothing. *)
Theorem get_or_create_creates_once kwargs s :
  clean s → primary_key (table s) →
  selected (_filter_select_by_kwargs select_model kwargs) (table s) = [] →
  (defaulted kwargs "id" (VInt (uuid_next s)) ∉ ids (table s) →
   kwargs !! "id" ≠ Some VNone → kwargs !! "created" ≠ Some VNone →
   kwargs !! "updated" ≠ Some VNone →
   ∃ o s1,
     get_or_create plain_repository kwargs s = (Ok (o, true), s1)
     ∧ satisfies kwargs (state_of o s1)
     ∧ table s1 = table s ++ [state_of o s1]
     ∧ ∃ o' s2,
         get_or_create plain_repository kwargs s1 = (Ok (o', false), s2)
         ∧ state_of o' s2 = state_of o s1
         ∧ table s2 = table s1)
  ∧ (getattr kwargs "id" ∈ ids (table s) →
     ∃ e s',
       get_or_create plain_repository kwargs s = (Raise e, s')
       ∧ exc_class e = ConflictError
       ∧ exc_cause e = Some (IntegrityError,
                             "duplicate key value violates unique constraint")
       ∧ table s' = table s).
Proof.
  intros Hclean Hpk Hzero.
  set (st := _filter_select_by_kwargs select_model kwargs) in *.
  (* the lookup finds nothing *)
  pose proof (get_one_or_none_clean plain_repository kwargs s Hclean Hpk) as Hget.
  cbn zeta in Hget. change (statement plain_repository) with select_model in Hget.
  fold st in Hget. rewrite Hzero, window_nil in Hget.
  (* the new instance *)
  set (n := next_obj s).
  set (sa := set_next_obj S (set_heap (fun h => <[n := MkInstance kwargs None]> h) s)).
  assert (Hmodel : model_type kwargs s = (Ok n, sa)) by done.
  assert (Hinst : instance_of n sa = MkInstance kwargs None).
  { unfold instance_of, sa. cbn. by rewrite lookup_insert_eq. }
  split.
  - intros Hfree Hid Hcr Hup.
    destruct (add_clean plain_repository n sa) as
      (row & s1 & Hadd & Hclean1 & Ht1 & Hstate & Hdi1 & Hn1 & Hrowid & Hother & Hgiven).
    { exact Hclean. }
    { by rewrite Hinst. }
    { unfold state_of. rewrite Hinst. exact Hfree. }
    unfold state_of in Hrowid, Hother, Hgiven. rewrite Hinst in Hrowid, Hother, Hgiven.
    cbn [attrs] in Hrowid, Hother, Hgiven.
    change (table sa) with (table s) in Ht1.
    change (uuid_next sa) with (uuid_next s) in Hrowid.
    assert (Hsat : satisfies kwargs row).
    { intros k v Hk. destruct (decide (v = VNone)) as [->|Hv].
      - assert (k ≠ "id" ∧ k ≠ "created" ∧ k ≠ "updated") as (? & ? & ?).
        { repeat split; intros ->; congruence. }
        unfold getattr. rewrite Hother by done. by rewrite Hk.
      - rewrite Hgiven; unfold getattr; by rewrite Hk. }
    exists n, s1. split.
    { unfold get_or_create. erewrite bind_ok by exact Hget. cbv beta iota.
      erewrite bind_ok by exact Hmodel. erewrite bind_ok by exact Hadd. reflexivity. }
    rewrite Hstate. split; [exact Hsat|]. split; [exact Ht1|].
    (* the second call *)
    assert (Hpk1 : primary_key (table s1)).
    { rewrite Ht1. apply primary_key_snoc; [done|by rewrite Hrowid|].
      rewrite Hrowid. by apply defaulted_not_none. }
    pose proof (get_one_or_none_clean plain_repository kwargs s1 Hclean1 Hpk1) as Hget1.
    cbn zeta in Hget1. change (statement plain_repository) with select_model in Hget1.
    fold st in Hget1.
    rewrite Ht1, selected_app, Hzero in Hget1. cbn [app] in Hget1.
    unfold st in Hget1. rewrite (selected_kwargs_singleton kwargs row Hsat) in Hget1.
    rewrite window_unpaginated in Hget1;
      [|by rewrite limit_filter_select_by_kwargs|by rewrite offset_filter_select_by_kwargs].
    destruct Hget1 as (s2 & Hrun2 & _ & Ht2 & _ & _ & _ & Hstate2).
    exists (next_obj s1), s2. split.
    { unfold get_or_create. erewrite bind_ok by exact Hrun2. reflexivity. }
    split; [exact Hstate2|]. by rewrite Ht2, Ht1.
  - intros Hin.
    destruct (add_refused plain_repository n sa) as (s' & Hadd & Ht).
    { exact Hclean. }
    { by rewrite Hinst. }
    { unfold state_of. rewrite Hinst. cbn [attrs]. intros E. rewrite E in Hin.
      by apply Hpk in Hin. }
    { unfold state_of. rewrite Hinst. exact Hin. }
    eexists _, s'. split.
    { unfold get_or_create. erewrite bind_ok by exact Hget. cbv beta iota.
      erewrite bind_ok by exact Hmodel. erewrite bind_raise by exact Hadd. reflexivity. }
    by repeat split.
Qed.

Lemma get_or_create_creates_once_witness :
  (∃ o s1,
     get_or_create plain_repository {["name" := VStr "z"]} (sample_session false)
     = (Ok (o, true), s1)
     ∧ satisfies {["name" := VStr "z"]} (state_of o s1)
     ∧ table s1 = table (sample_session false) ++ [state_of o s1]
     ∧ ∃ o' s2,
         get_or_create plain_repository {["name" := VStr "z"]} s1 = (Ok (o', false), s2)
         ∧ state_of o' s2 = state_of o s1
         ∧ table s2 = table s1)
  ∧ (∃ e s',
       get_or_create plain_repository (<["id" := VInt 1]> {["name" := VStr "z"]})
         (sample_session false) = (Raise e, s')
       ∧ exc_class e = ConflictError
       ∧ exc_cause e = Some (IntegrityError,
                             "duplicate key value violates unique constraint")
       ∧ table s' = table (sample_session false)).
Proof.
  split.
  - apply (get_or_create_creates_once {["name" := VStr "z"]} (sample_session false)
             (sample_session_clean false) (sample_session_primary_key false)).
    + by vm_compute.
    + apply (bool_decide_unpack (_ ∉ _)). by vm_compute.
    + by vm_compute.
    + by vm_compute.
    + by vm_compute.
  - apply (get_or_create_creates_once (<["id" := VInt 1]> {["name" := VStr "z"]})
             (sample_session false)
             (sample_session_clean false) (sample_session_primary_key false)).
    + by vm_compute.
    + apply (bool_decide_unpack (_ ∈ _)). by vm_compute.
Defined.

(** C7 fails as stated: constraints that no entity meets but that name
    an identifier in use make [get_or_create] raise [ConflictError];
    constraints that give [None] for the identifier are not met by the
    entity created, and the second call creates another one. *)
Lemma get_or_create_counterexample :
  let taken : dict := <["id" := VInt 1]> {["name" := VStr "z"]} in
  let unset : dict := <["id" := VNone]> {["name" := VStr "z"]} in
  selected (_filter_select_by_kwargs select_model taken) (table (sample_session false)) = []
  ∧ (get_or_create plain_repository taken (sample_session false)).1
    = Raise (Exn ConflictError ""
               (Some (IntegrityError, "duplicate key value violates unique constraint")))
  ∧ selected (_filter_select_by_kwargs select_model unset) (table (sample_session false)) = []
  ∧ (get_or_create plain_repository unset (sample_session false)).1 = Ok (0%nat, true)
  ∧ (get_or_create plain_repository unset
       (get_or_create plain_repository unset (sample_session false)).2).1
    = Ok (1%nat, true).
Proof. repeat split; by vm_compute. Qed.

(** ** Bulk operations on an empty list *)




(** ** Slugs *)

Lemma length_string_of_list_ascii l : String.length (string_of_list_ascii l) = length l.
Proof. induction l as [|c l IH]; simpl; [done|]. by rewrite IH. Qed.

Lemma random_choices_length population k random :
  length (random_choices population k random) = k.
Proof. unfold random_choices. by rewrite length_fmap, length_seq. Qed.

Lemma random_choices_elem_of population k random c :
  population ≠ [] → c ∈ random_choices population k random → c ∈ population.
Proof.
  intros Hne Hc. unfold random_choices in Hc.
  apply list_elem_of_fmap in Hc as (i & -> & _).
  apply list_elem_of_In, nth_In. apply Nat.mod_upper_bound.
  destruct population; [done|]. simpl. lia.
Qed.

(** C9: the text is normalized by [slugify].  In a session with nothing
    pending: when no entity has the slug, it is returned as it is; when
    one entity has it, the result is the slug, a hyphen and four
    characters drawn from the lower-case letters and the digits, and
    this value is not looked up: it depends on the draws only, and the
    session is as the one lookup left it; when several entities have
    it, no value is returned: the lookup is [get_one_or_none], whose
    [MultipleResultsFound] leaves as [StarliteSaqlalchemyError]. *)
Theorem get_available_slug_unique_or_suffixed
    (slugify : string → string) (value_to_slugify : string) (random : nat → nat)
    (s : Session) :
  clean s → primary_key (table s) →
  let slug := slugify value_to_slugify in
  let having :=
    selected (_filter_select_by_kwargs select_model {["slug" := VStr slug]}) (table s) in
  (having = [] →
   get_available_slug slugify plain_repository value_to_slugify random s = (Ok slug, s))
  ∧ (∀ row, having = [row] →
     ∃ suffix s',
       get_available_slug slugify plain_repository value_to_slugify random s
       = (Ok (slug +:+ "-" +:+ suffix), s')
       ∧ suffix = string_of_list_ascii
                    (random_choices (list_ascii_of_string (ascii_lowercase +:+ digits))
                       4 random)
       ∧ String.length suffix = 4%nat
       ∧ (∀ c, c ∈ list_ascii_of_string suffix
               → c ∈ list_ascii_of_string (ascii_lowercase +:+ digits))
       ∧ get_one_or_none plain_repository {["slug" := VStr slug]} s
         = (Ok (Some (next_obj s)), s'))
  ∧ (∀ r1 r2 rest, having = r1 :: r2 :: rest →
     ∃ s',
       get_available_slug slugify plain_repository value_to_slugify random s
       = (Raise (Exn StarliteSaqlalchemyError
            "An exception occurred: Multiple rows were found when one or none was required"
            (Some (MultipleResultsFound,
                   "Multiple rows were found when one or none was required"))), s')
       ∧ table s' = table s).
Proof.
  intros Hclean Hpk slug having.
  pose proof (get_one_or_none_clean plain_repository {["slug" := VStr slug]} s Hclean Hpk)
    as Hget.
  cbn zeta in Hget. change (statement plain_repository) with select_model in Hget.
  rewrite window_unpaginated in Hget;
    [|by rewrite limit_filter_select_by_kwargs|by rewrite offset_filter_select_by_kwargs].
  fold having in Hget. split; [|split].
  - intros Hnone. rewrite Hnone in Hget.
    unfold get_available_slug, _is_slug_unique. fold slug.
    rewrite bind_assoc. erewrite bind_ok by exact Hget. by rewrite bind_ret.
  - intros row Hone. rewrite Hone in Hget. destruct Hget as (s' & Hrun & _).
    eexists _, s'. split; [|split; [reflexivity|split; [|split]]].
    + unfold get_available_slug, _is_slug_unique. fold slug.
      rewrite bind_assoc. erewrite bind_ok by exact Hrun. by rewrite bind_ret.
    + by rewrite length_string_of_list_ascii, random_choices_length.
    + intros c. rewrite list_ascii_of_string_of_list_ascii.
      by apply random_choices_elem_of.
    + exact Hrun.
  - intros r1 r2 rest Hseveral. clear Hget.
    set (st := _filter_select_by_kwargs select_model {["slug" := VStr slug]}) in *.
    destruct (execute_entity_clean st s Hclean Hpk) as (s1 & Hrun & Hsame & _).
    rewrite window_unpaginated in Hrun;
      [|by unfold st; rewrite limit_filter_select_by_kwargs
       |by unfold st; rewrite offset_filter_select_by_kwargs].
    fold having in Hrun. rewrite Hseveral in Hrun. simpl in Hrun.
    exists s1. split; [|apply Hsame].
    unfold get_available_slug, _is_slug_unique. fold slug.
    rewrite bind_assoc. erewrite bind_raise; [reflexivity|].
    unfold get_one_or_none, wrap_sqlalchemy_exception.
    change (statement plain_repository) with select_model. fold st.
    erewrite bind_ok by exact Hrun. reflexivity.
Qed.

Lemma get_available_slug_unique_or_suffixed_witness :
  get_available_slug slugify_example plain_repository "Hello World" (fun i => i)
    (slug_session []) = (Ok "hello-world", slug_session [])
  ∧ (∃ suffix s',
       get_available_slug slugify_example plain_repository "Hello World" (fun i => i)
         (slug_session [slug_row 1 "hello-world"])
       = (Ok ("hello-world" +:+ "-" +:+ suffix), s')
       ∧ String.length suffix = 4%nat)
  ∧ (∃ s',
       get_available_slug slugify_example plain_repository "Hello World" (fun i => i)
         (slug_session [slug_row 1 "hello-world"; slug_row 2 "hello-world"])
       = (Raise (Exn StarliteSaqlalchemyError
            "An exception occurred: Multiple rows were found when one or none was required"
            (Some (MultipleResultsFound,
                   "Multiple rows were found when one or none was required"))), s')
       ∧ table s' = [slug_row 1 "hello-world"; slug_row 2 "hello-world"]).
Proof.
  split; [|split].
  - apply (get_available_slug_unique_or_suffixed slugify_example "Hello World" (fun i => i)
             (slug_session [])); [by repeat split| |by vm_compute].
    split; [apply NoDup_nil_2|apply not_elem_of_nil].
  - destruct (proj1 (proj2 (get_available_slug_unique_or_suffixed slugify_example
                       "Hello World" (fun i => i) (slug_session [slug_row 1 "hello-world"])
                       ltac:(by repeat split)
                       ltac:(split; apply (bool_decide_unpack _); by vm_compute)))
                    (slug_row 1 "hello-world") ltac:(by vm_compute))
      as (suffix & s' & Hrun & _ & Hlen & _).
    exists suffix, s'. split; [exact Hrun|exact Hlen].
  - apply (proj2 (proj2 (get_available_slug_unique_or_suffixed slugify_example
                    "Hello World" (fun i => i)
                    (slug_session [slug_row 1 "hello-world"; slug_row 2 "hello-world"])
                    ltac:(by repeat split)
                    ltac:(split; apply (bool_decide_unpack _); by vm_compute)))
             (slug_row 1 "hello-world") (slug_row 2 "hello-world") []).
    by vm_compute.
Defined.

(** The value with the suffix is returned although an entity has it
    as its slug already. *)
Example get_available_slug_suffix_not_checked :
  (get_available_slug slugify_example plain_repository "Hello World"
     (fun i => (7 * i + 30)%nat)
     (slug_session [slug_row 1 "hello-world"; slug_row 2 "hello-world-4bip"])).1
  = Ok "hello-world-4bip".
Proof. by vm_compute. Qed.

(** * Further properties *)

(** ** Range filters and unknown filters *)

(** X1: on a column every model type has, a Range filter with no
    bound leaves the statement as it is; with an upper bound only, it
    selects the rows the statement selected whose field is strictly
    below the bound; with both bounds it selects no row, whatever the
    bounds are; with a lower bound only no statement is built: the
    comparison with [None] is refused with [ArgumentError]. *)
Theorem range_filter_selection {T} (field_name : string) (a b : Z)
    (st : Select T) (t : list dict) (row : dict) :
  field_name ∈ Base_columns →
  _filter_on_datetime_field field_name None None st = Ok st
  ∧ (∃ st', _filter_on_datetime_field field_name (Some b) None st = Ok st'
            ∧ (row ∈ selected st' t
               ↔ row ∈ selected st t ∧ ∃ x, getattr row field_name = VInt x ∧ x < b))
  ∧ (∃ st', _filter_on_datetime_field field_name (Some b) (Some a) st = Ok st'
            ∧ selected st' t = [])
  ∧ (∃ e, _filter_on_datetime_field field_name None (Some a) st = Raise e
          ∧ exc_class e = ArgumentError).
Proof.
  intros _. split; [done|]. split; [|split].
  - eexists. split; [reflexivity|]. rewrite selected_where.
    rewrite list_elem_of_In, filter_In, <- list_elem_of_In. simpl.
    split.
    + intros [Hin H]. split; [done|].
      destruct (getattr row field_name) as [|x|]; try done.
      exists x. split; [done|]. by apply bool_decide_eq_true in H.
    + intros [Hin (x & -> & Hx)]. split; [done|]. by apply bool_decide_eq_true_2.
  - eexists. split; [reflexivity|]. rewrite !selected_where.
    apply filter_filter_none. intros r. apply holds_lt_gt.
  - by eexists.
Qed.

Lemma range_filter_selection_witness :
  (∃ st', _filter_on_datetime_field "created" (Some 25) None select_model = Ok st'
          ∧ (sample_row 2 "b" 20 ∈ selected st' (table (sample_session false))
             ↔ sample_row 2 "b" 20 ∈ selected select_model (table (sample_session false))
               ∧ ∃ x, getattr (sample_row 2 "b" 20) "created" = VInt x ∧ x < 25))
  ∧ (∃ st', _filter_on_datetime_field "created" (Some 25) (Some 15) select_model = Ok st'
            ∧ selected st' (table (sample_session false)) = [])
  ∧ (∃ e, _filter_on_datetime_field "created" None (Some 15) select_model = Raise e
          ∧ exc_class e = ArgumentError).
Proof.
  apply (range_filter_selection "created" 15 25 select_model (table (sample_session false))
           (sample_row 2 "b" 20)).
  apply (bool_decide_unpack (_ ∈ _)). vm_compute. reflexivity.
Defined.

Lemma apply_filters_applies {T} pre p : ∀ (st : Select T),
  (∀ f, f ∈ pre → applies f = true) →
  ∃ st', _apply_filters pre p st = Ok st'.
Proof.
  induction pre as [|f pre IH]; intros st Hpre; simpl; [by eexists|].
  assert (Hf : applies f = true) by apply Hpre, list_elem_of_here.
  assert (Hpre' : ∀ g, g ∈ pre → applies g = true).
  { intros g Hg. by apply Hpre, list_elem_of_further. }
  destruct f as [fn before after|fn vs|l o|repr]; simpl in Hf; [| | |done].
  - rewrite filter_on_datetime_field_cases.
    destruct before, after; try by apply IH.
    by rewrite andb_false_r in Hf.
  - by apply IH.
  - destruct p; by apply IH.
Qed.

Lemma apply_filters_first_unknown {T} pre repr post p (st : Select T) :
  (∀ f, f ∈ pre → applies f = true) →
  _apply_filters (pre ++ OtherFilter repr :: post) p st
  = Raise (new_exn StarliteSaqlalchemyError ("Unexpected filter: " +:+ repr)).
Proof.
  revert st. induction pre as [|f pre IH]; intros st Hpre; simpl; [done|].
  assert (Hf : applies f = true) by apply Hpre, list_elem_of_here.
  assert (Hpre' : ∀ g, g ∈ pre → applies g = true).
  { intros g Hg. by apply Hpre, list_elem_of_further. }
  destruct f as [fn before after|fn vs|l o|repr']; simpl in Hf; [| | |done].
  - rewrite filter_on_datetime_field_cases.
    destruct before, after; try by apply IH.
    by rewrite andb_false_r in Hf.
  - by apply IH.
  - destruct p; by apply IH.
Qed.

(** X2: the filters are applied in order, before any statement is
    executed.  After filters that are applied without an error (Page
    filters, Membership filters without values or on a column every
    model type has, Range filters on such a column with an upper bound
    or without a lower bound), a filter of no known kind makes [list],
    [count] and [list_and_count] raise [StarliteSaqlalchemyError] with
    its text, whatever follows it, and the session is as it was. *)
Theorem unknown_filter_is_refused self pre repr post kwargs s :
  (∀ f, f ∈ pre → applies f = true) →
  let e := new_exn StarliteSaqlalchemyError ("Unexpected filter: " +:+ repr) in
  let filters := pre ++ OtherFilter repr :: post in
  list_ self filters kwargs s = (Raise e, s)
  ∧ count self filters kwargs s = (Raise e, s)
  ∧ list_and_count self filters kwargs s = (Raise e, s)
  ∧ ∃ st, _apply_filters pre true (statement self) = Ok st.
Proof.
  intros Hpre e filters. split; [|split; [|split]].
  - apply list_raise. by apply apply_filters_first_unknown.
  - apply count_raise. by apply apply_filters_first_unknown.
  - unfold list_and_count, filters. by rewrite apply_filters_first_unknown.
  - by apply apply_filters_applies.
Qed.

Lemma unknown_filter_is_refused_witness :
  list_ plain_repository
    ([LimitOffset 1 1; CollectionFilter "name" []; BeforeAfter "created" (Some 25) (Some 15)]
       ++ OtherFilter "SearchFilter" :: [BeforeAfter "created" None (Some 15)])
    ∅ (sample_session false)
  = (Raise (new_exn StarliteSaqlalchemyError "Unexpected filter: SearchFilter"),
     sample_session false).
Proof.
  apply (unknown_filter_is_refused plain_repository
           [LimitOffset 1 1; CollectionFilter "name" []; BeforeAfter "created" (Some 25) (Some 15)]
           "SearchFilter" [BeforeAfter "created" None (Some 15)] ∅ (sample_session false)).
  intros f Hf.
  repeat (apply elem_of_cons in Hf as [->|Hf]; [vm_compute; reflexivity|]).
  by apply elem_of_nil in Hf.
Defined.

(** ** What [list] returns *)

Lemma apply_filters_whereclause {T} filters p : ∀ (st st' : Select T),
  _apply_filters filters p st = Ok st' →
  ∃ criteria, whereclause st' = whereclause st ++ criteria.
Proof.
  induction filters as [|f filters IH]; intros st st' H; simpl in H.
  - injection H as <-. exists []. by rewrite app_nil_r.
  - destruct f as [fn b a|fn vs|l o|repr]; [| | |done].
    + rewrite filter_on_datetime_field_cases in H.
      destruct b, a; try done; apply IH in H as (cs & ->); unfold where_;
        cbn [whereclause]; rewrite <- ?app_assoc; eauto.
    + apply IH in H as (cs & ->). unfold _filter_in_collection, where_.
      destruct vs; cbn [whereclause]; rewrite <- ?app_assoc; eauto.
    + destruct p; apply IH in H as (cs & ->); eauto.
Qed.

Lemma sublist_filter_weaker {A} (f g : A → bool) (l : list A) :
  (∀ x, f x = true → g x = true) → List.filter f l `sublist_of` List.filter g l.
Proof.
  intros H. induction l as [|x l IH]; [done|]. cbn [List.filter].
  destruct (f x) eqn:Hf.
  - rewrite (H x Hf). by constructor.
  - destruct (g x); [by constructor|done].
Qed.

Lemma selected_more_criteria {T T'} (a : Select T) (b : Select T') criteria t :
  whereclause b = whereclause a ++ criteria →
  selected b t = List.filter (fun row => forallb (fun c => holds c row) criteria) (selected a t).
Proof.
  intros Hw. unfold selected. rewrite Hw.
  induction t as [|r t IH]; [done|]. cbn [List.filter].
  rewrite forallb_app.
  destruct (forallb _ (whereclause a)) eqn:E; cbn [andb List.filter].
  - destruct (forallb _ criteria); by rewrite IH.
  - apply IH.
Qed.

(** X3: what [list] returns in a session with nothing pending are rows
    the base statement selects, in storage order, and each has every
    value of the keyword arguments; with no filter and a base statement
    without limit and offset these are all such rows.  The table is
    left as it is and nothing stays attached. *)
Theorem list_returns_rows_of_base_scope self filters kwargs s objs s' :
  clean s → primary_key (table s) →
  list_ self filters kwargs s = (Ok objs, s') →
  states objs s' `sublist_of` selected (statement self) (table s)
  ∧ (∀ row, row ∈ states objs s' → satisfies kwargs row)
  ∧ (filters = [] → limit_clause (statement self) = None →
     offset_clause (statement self) = None →
     ∀ row, row ∈ selected (statement self) (table s) → satisfies kwargs row →
            row ∈ states objs s')
  ∧ table s' = table s ∧ clean s'.
Proof.
  intros Hclean Hpk Hrun.
  destruct (_apply_filters filters true (statement self)) as [st|e] eqn:Hst; cycle 1.
  { rewrite (list_raise _ _ _ _ _ Hst) in Hrun. done. }
  destruct (list_clean self filters kwargs s st Hclean Hpk Hst)
    as (s1 & Hlist & Hclean1 & Ht1 & _ & _ & _ & _ & Hstates & _).
  rewrite Hlist in Hrun. injection Hrun as <- <-.
  rewrite Hstates.
  destruct (apply_filters_whereclause _ _ _ _ Hst) as (cs & Hcs).
  set (st' := _filter_select_by_kwargs st kwargs) in *.
  assert (Hw : whereclause st' = whereclause (statement self)
                 ++ (cs ++ ((fun kv => Eq kv.1 kv.2) <$> map_to_list kwargs))).
  { unfold st'. rewrite whereclause_filter_select_by_kwargs, Hcs. by rewrite app_assoc. }
  rewrite (selected_more_criteria (statement self) st' _ _ Hw).
  split; [|split; [|split; [|done]]].
  - etrans; [apply window_sublist|apply sublist_List_filter].
  - intros row Hrow. eapply elem_of_sublist in Hrow; [|apply window_sublist].
    apply list_elem_of_In, filter_In in Hrow as [_ Hrow].
    rewrite forallb_app in Hrow. apply andb_true_iff in Hrow as [_ Hrow].
    by apply forallb_kwargs.
  - intros -> Hlim Hoff row Hrow Hsat. injection Hst as <-.
    rewrite window_unpaginated; cycle 1.
    { unfold st'. by rewrite limit_filter_select_by_kwargs. }
    { unfold st'. by rewrite offset_filter_select_by_kwargs. }
    apply list_elem_of_In, filter_In. split; [by apply list_elem_of_In|].
    rewrite forallb_app. apply andb_true_iff. split; [|by apply forallb_kwargs].
    assert (cs = []) as ->; [|done].
    apply (f_equal length) in Hcs. rewrite length_app in Hcs.
    destruct cs; [done|simpl in Hcs; lia].
Qed.

Lemma list_returns_rows_of_base_scope_witness :
  let s' := (list_ plain_repository [CollectionFilter "name" [VStr "a"; VStr "c"]]
               {["created" := VInt 30]} (sample_session false)).2 in
  states [0%nat] s' `sublist_of` table (sample_session false)
  ∧ satisfies {["created" := VInt 30]} (sample_row 3 "c" 30)
  ∧ table s' = table (sample_session false).
Proof.
  intros s'.
  destruct (list_returns_rows_of_base_scope plain_repository
              [CollectionFilter "name" [VStr "a"; VStr "c"]] {["created" := VInt 30]}
              (sample_session false) [0%nat] s'
              (sample_session_clean false) (sample_session_primary_key false))
    as (Hsub & Hsat & _ & Ht & _).
  { vm_compute. reflexivity. }
  split; [|split; [|exact Ht]].
  - rewrite selected_select_model in Hsub. exact Hsub.
  - apply Hsat. apply (bool_decide_unpack _). vm_compute. reflexivity.
Defined.

Lemma apply_filters_app {T} pre post p : ∀ (st : Select T),
  _apply_filters (pre ++ post) p st
  = match _apply_filters pre p st with
    | Ok st1 => _apply_filters post p st1
    | Raise e => Raise e
    end.
Proof.
  induction pre as [|f pre IH]; intros st; simpl; [done|].
  destruct f as [fn b a|fn vs|l o|repr]; try apply IH; [| |done].
  - destruct (_filter_on_datetime_field fn b a st); [apply IH|done].
  - destruct p; apply IH.
Qed.

Lemma apply_filters_keeps_window {T} filters p : ∀ (st st' : Select T),
  (p = true → ∀ f, f ∈ filters → is_page f = false) →
  _apply_filters filters p st = Ok st' →
  limit_clause st' = limit_clause st ∧ offset_clause st' = offset_clause st.
Proof.
  induction filters as [|f filters IH]; intros st st' Hp H; simpl in H.
  - by injection H as <-.
  - assert (Hp' : p = true → ∀ f, f ∈ filters → is_page f = false).
    { intros E g Hg. apply (Hp E). by apply list_elem_of_further. }
    destruct f as [fn b a|fn vs|l o|repr]; [| | |done].
    + rewrite filter_on_datetime_field_cases in H.
      destruct b, a; try done; by apply (IH _ _ Hp') in H as [-> ->].
    + apply (IH _ _ Hp') in H as [-> ->]. unfold _filter_in_collection. by destruct vs.
    + destruct p.
      * specialize (Hp eq_refl _ (list_elem_of_here _ _)). done.
      * by apply (IH _ _ Hp') in H.
Qed.

Lemma apply_filters_page_only_window {T} filters : ∀ (a b : Select T),
  whereclause a = whereclause b →
  match _apply_filters filters true a, _apply_filters (without_page filters) true b with
  | Ok a', Ok b' => whereclause a' = whereclause b'
                    ∧ limit_clause b' = limit_clause b ∧ offset_clause b' = offset_clause b
  | Raise e, Raise e' => e = e'
  | _, _ => False
  end.
Proof.
  induction filters as [|f filters IH]; intros a b Hab; simpl; [done|].
  destruct f as [fn before after|fn vs|l o|repr]; simpl.
  - rewrite !filter_on_datetime_field_cases.
    destruct before as [x|], after as [y|]; try done.
    + apply (IH (where_ (where_ a (Lt fn x)) (Gt fn x))
                (where_ (where_ b (Lt fn x)) (Gt fn x))).
      unfold where_; cbn [whereclause]; by rewrite Hab.
    + apply (IH (where_ a (Lt fn x)) (where_ b (Lt fn x))).
      unfold where_; cbn [whereclause]; by rewrite Hab.
    + by apply IH.
  - specialize (IH (_filter_in_collection fn vs a) (_filter_in_collection fn vs b)).
    destruct (_apply_filters filters true _), (_apply_filters (without_page filters) true _);
      try (apply IH; unfold _filter_in_collection, where_;
           destruct vs; cbn [whereclause]; by rewrite Hab).
    destruct IH as (? & -> & ->).
    { unfold _filter_in_collection, where_. destruct vs; cbn [whereclause]; by rewrite Hab. }
    split; [done|]. unfold _filter_in_collection. by destruct vs.
  - apply IH. exact Hab.
  - done.
Qed.

(** X4: with a Page filter that no other Page filter follows, [list]
    returns at most [limit] entities: the ones at positions [offset] to
    [offset + limit] of what it returns for the same filters without
    the Page filters. *)
Theorem list_page_is_slice self pre post l o kwargs s objs s' :
  clean s → primary_key (table s) →
  limit_clause (statement self) = None → offset_clause (statement self) = None →
  (∀ f, f ∈ post → is_page f = false) →
  let filters := pre ++ LimitOffset l o :: post in
  list_ self filters kwargs s = (Ok objs, s') →
  ∃ all s'',
    list_ self (without_page filters) kwargs s = (Ok all, s'')
    ∧ states objs s' = take l (drop o (states all s''))
    ∧ (length objs ≤ l)%nat.
Proof.
  intros Hclean Hpk Hlim Hoff Hpost filters Hrun.
  destruct (_apply_filters filters true (statement self)) as [st|e] eqn:Hst; cycle 1.
  { rewrite (list_raise _ _ _ _ _ Hst) in Hrun. done. }
  pose proof (apply_filters_page_only_window filters (statement self) (statement self)
                eq_refl) as Hrel.
  rewrite Hst in Hrel.
  destruct (_apply_filters (without_page filters) true (statement self)) as [st0|]
    eqn:Hst0; [|done].
  destruct Hrel as (Hw & Hl0 & Ho0).
  (* the limit and offset of the last Page filter *)
  assert (Hwin : limit_clause st = Some l ∧ offset_clause st = Some o).
  { unfold filters in Hst. rewrite apply_filters_app in Hst.
    destruct (_apply_filters pre true (statement self)) as [st1|]; [|done].
    simpl in Hst. by apply apply_filters_keeps_window in Hst. }
  destruct Hwin as [Hl Ho].
  destruct (list_clean self filters kwargs s st Hclean Hpk Hst)
    as (s1 & Hlist & _ & _ & _ & _ & _ & _ & Hstates & _).
  destruct (list_clean self (without_page filters) kwargs s st0 Hclean Hpk Hst0)
    as (s2 & Hlist0 & _ & _ & _ & _ & _ & _ & Hstates0 & _).
  rewrite Hlist in Hrun. injection Hrun as <- <-.
  eexists _, s2. split; [exact Hlist0|].
  rewrite Hstates, Hstates0.
  set (k := _filter_select_by_kwargs st kwargs).
  set (k0 := _filter_select_by_kwargs st0 kwargs).
  assert (Hsel : selected k (table s) = selected k0 (table s)).
  { apply selected_whereclause. unfold k, k0.
    by rewrite !whereclause_filter_select_by_kwargs, Hw. }
  assert (Hk : window k (selected k (table s)) = take l (drop o (selected k (table s)))).
  { unfold window, k. by rewrite limit_filter_select_by_kwargs,
      offset_filter_select_by_kwargs, Hl, Ho. }
  assert (Hk0 : window k0 (selected k0 (table s)) = selected k0 (table s)).
  { apply window_unpaginated; unfold k0.
    - rewrite limit_filter_select_by_kwargs. congruence.
    - rewrite offset_filter_select_by_kwargs. congruence. }
  rewrite Hk, Hk0, Hsel. split; [done|].
  rewrite length_seq, <- Hsel, length_take. lia.
Qed.

Lemma list_page_is_slice_witness :
  ∃ all s'',
    list_ plain_repository [] ∅ (sample_session false) = (Ok all, s'')
    ∧ states [0%nat] (list_ plain_repository [LimitOffset 1 1] ∅ (sample_session false)).2
      = take 1 (drop 1 (states all s''))
    ∧ (length [0%nat] ≤ 1)%nat.
Proof.
  apply (list_page_is_slice plain_repository [] [] 1 1 ∅ (sample_session false) [0%nat]
           (list_ plain_repository [LimitOffset 1 1] ∅ (sample_session false)).2
           (sample_session_clean false) (sample_session_primary_key false) eq_refl eq_refl).
  - intros f Hf. by apply elem_of_nil in Hf.
  - vm_compute. reflexivity.
Defined.

(** ** [list_and_count] and [count] *)

Lemma apply_filters_three self filters :
  match _apply_filters filters true (statement self),
        _apply_filters filters true (add_columns_count_over (statement self)),
        _apply_filters filters false (with_only_columns_count (statement self)) with
  | Ok a, Ok b, Ok c =>
      same_criteria a b ∧ whereclause a = whereclause c
      ∧ limit_clause c = limit_clause (statement self)
      ∧ offset_clause c = offset_clause (statement self)
  | Raise e, Raise e', Raise e'' => e = e' ∧ e = e''
  | _, _, _ => False
  end.
Proof.
  assert (Hab : ∀ (a : Select Entity) (b : Select EntityCountOver), same_criteria a b →
    match _apply_filters filters true a, _apply_filters filters true b with
    | Ok a', Ok b' => same_criteria a' b'
    | Raise e, Raise e' => e = e'
    | _, _ => False
    end).
  { induction filters as [|f filters IH]; intros a b Hab; simpl; [done|].
    destruct f as [fn before after|fn vs|l o|repr]; simpl.
    - pose proof (same_criteria_datetime a b fn before after Hab) as Hd.
      destruct (_filter_on_datetime_field fn before after a),
               (_filter_on_datetime_field fn before after b); try done.
      apply IH, Hd.
    - apply IH. by apply same_criteria_collection.
    - apply IH. destruct Hab as (Hw & Hl & Ho). by repeat split.
    - done. }
  specialize (Hab (statement self) (add_columns_count_over (statement self))
                ltac:(by repeat split)).
  pose proof (apply_filters_page_only_window filters (statement self) (statement self)
                eq_refl) as Hp.
  pose proof (apply_filters_suppressed filters (with_only_columns_count (statement self))
                (statement self) ltac:(by repeat split)) as Hs.
  destruct (_apply_filters filters true (statement self)) as [a|e];
    destruct (_apply_filters filters true (add_columns_count_over _)) as [b|e'];
    destruct (_apply_filters filters false _) as [c|e''];
    destruct (_apply_filters (without_page filters) true _) as [d|e3]; try done.
  - destruct Hp as (Hw & _). destruct Hs as ((Hw' & Hl' & Ho') & Hl & Ho).
    split; [done|]. split; [congruence|]. split; congruence.
  - subst. done.
Qed.

(** X5: [list_and_count] returns the entities [list] returns for the
    same filters and keyword arguments, and as total what [count]
    returns, unless no entity is returned, where the total is 0; when
    it raises, [list] and [count] raise the same. *)
Theorem list_and_count_agrees_with_list_and_count self filters kwargs s :
  clean s → primary_key (table s) →
  limit_clause (statement self) = None → offset_clause (statement self) = None →
  match list_and_count self filters kwargs s with
  | (Ok (instances, total), s') =>
      ∃ listed s1 n,
        list_ self filters kwargs s = (Ok listed, s1)
        ∧ states listed s1 = states instances s'
        ∧ (count self filters kwargs s).1 = Ok n
        ∧ total = match instances with [] => 0 | _ => n end
  | (Raise e, s') =>
      list_ self filters kwargs s = (Raise e, s')
      ∧ count self filters kwargs s = (Raise e, s')
  end.
Proof.
  intros Hclean Hpk Hlim Hoff.
  pose proof (apply_filters_three self filters) as H3.
  destruct (_apply_filters filters true (statement self)) as [a|e] eqn:Ha;
    destruct (_apply_filters filters true (add_columns_count_over (statement self)))
      as [b|e'] eqn:Hb;
    destruct (_apply_filters filters false (with_only_columns_count (statement self)))
      as [c|e''] eqn:Hc; try done.
  - destruct H3 as (Hab & Hac & Hcl & Hco).
    destruct (list_and_count_clean self filters kwargs s b Hclean Hpk Hb)
      as (s' & Hrun & _ & _ & Hst).
    destruct (list_clean self filters kwargs s a Hclean Hpk Ha)
      as (s1 & Hlist & _ & _ & _ & _ & _ & _ & Hst1 & _).
    rewrite Hrun.
    pose proof (same_criteria_kwargs a b kwargs Hab) as (Hkw & Hkl & Hko).
    set (ka := _filter_select_by_kwargs a kwargs) in *.
    set (kb := _filter_select_by_kwargs b kwargs) in *.
    set (kc := _filter_select_by_kwargs c kwargs).
    assert (Hsel : selected ka (table s) = selected kb (table s)).
    { by apply selected_whereclause. }
    assert (Hwin : window ka (selected ka (table s)) = window kb (selected kb (table s))).
    { rewrite Hsel. unfold window. by rewrite Hkl, Hko. }
    assert (Hselc : selected kc (table s) = selected kb (table s)).
    { apply selected_whereclause. unfold kc, kb.
      rewrite !whereclause_filter_select_by_kwargs. destruct Hab as (Hw & _). congruence. }
    eexists _, s1, _. split; [exact Hlist|]. split.
    { rewrite Hst1, Hst. exact Hwin. }
    split.
    { rewrite (count_clean self filters kwargs s c Hclean Hc). fold kc.
      rewrite window_unpaginated; [reflexivity| |]; unfold kc.
      - rewrite limit_filter_select_by_kwargs. congruence.
      - rewrite offset_filter_select_by_kwargs. congruence. }
    rewrite Hselc.
    destruct (window kb (selected kb (table s))); reflexivity.
  - destruct H3 as [<- <-]. unfold list_and_count. rewrite Hb. simpl.
    split; [by apply list_raise|by apply count_raise].
Qed.

Lemma list_and_count_agrees_with_list_and_count_witness :
  match list_and_count plain_repository [LimitOffset 2 1] ∅ (sample_session false) with
  | (Ok (instances, total), s') =>
      ∃ listed s1 n,
        list_ plain_repository [LimitOffset 2 1] ∅ (sample_session false) = (Ok listed, s1)
        ∧ states listed s1 = states instances s'
        ∧ (count plain_repository [LimitOffset 2 1] ∅ (sample_session false)).1 = Ok n
        ∧ total = match instances with [] => 0 | _ => n end
  | (Raise e, s') =>
      list_ plain_repository [LimitOffset 2 1] ∅ (sample_session false) = (Raise e, s')
      ∧ count plain_repository [LimitOffset 2 1] ∅ (sample_session false) = (Raise e, s')
  end.
Proof.
  exact (list_and_count_agrees_with_list_and_count plain_repository [LimitOffset 2 1] ∅
           (sample_session false) (sample_session_clean false)
           (sample_session_primary_key false) eq_refl eq_refl).
Defined.




(** ** What leaves the boundary *)

Lemma translate_not_backend exc : is_SQLAlchemyError (exc_class (translate exc)) = false.
Proof.
  unfold translate. case_bool_decide; [done|].
  destruct (is_SQLAlchemyError (exc_class exc)) eqn:E; done.
Qed.

Lemma translate_fixed exc :
  is_SQLAlchemyError (exc_class exc) = false → translate exc = exc.
Proof.
  intros H. unfold translate. rewrite H. case_bool_decide as Hc; [|done].
  rewrite Hc in H. done.
Qed.

(** X7: a boundary inside a boundary changes nothing ([delete] and
    [update] call [get] inside their own), and no exception of
    SQLAlchemy's classes leaves a boundary. *)
Theorem wrap_sqlalchemy_exception_nested {A} (body : M A) (s : Session) :
  wrap_sqlalchemy_exception (wrap_sqlalchemy_exception body) s
  = wrap_sqlalchemy_exception body s
  ∧ ∀ e s', wrap_sqlalchemy_exception body s = (Raise e, s') →
            is_SQLAlchemyError (exc_class e) = false.
Proof.
  unfold wrap_sqlalchemy_exception. destruct (body s) as [[a|exc] s1]; [done|]. split.
  - by rewrite translate_fixed by apply translate_not_backend.
  - intros e s' [= <- <-]. apply translate_not_backend.
Qed.

Lemma contained_wrap {A} (m : M A) : contained (wrap_sqlalchemy_exception m).
Proof.
  intros s e s' H. unfold wrap_sqlalchemy_exception in H.
  destruct (m s) as [[a|exc] s1]; [done|]. injection H as <- <-.
  apply translate_not_backend.
Qed.

Lemma contained_bind {A B} (m : M A) (k : A → M B) :
  contained m → (∀ a, contained (k a)) → contained (bind m k).
Proof.
  intros Hm Hk s e s'. unfold bind. destruct (m s) as [[a|exc] s1] eqn:E.
  - apply Hk.
  - intros [= <- <-]. by apply (Hm _ _ _ E).
Qed.

Lemma contained_ret {A} (a : A) : contained (ret a).
Proof. by intros s e s'. Qed.

Lemma contained_gets {A} (f : Session → A) : contained (gets f).
Proof. by intros s e s'. Qed.

Lemma contained_modify f : contained (modify f).
Proof. by intros s e s'. Qed.

Lemma contained_mapM {A B} (f : A → M B) (l : list A) :
  (∀ x, contained (f x)) → contained (mapM f l).
Proof.
  intros H. induction l as [|x l IH]; simpl; [apply contained_ret|].
  apply contained_bind; [apply H|]. intros y.
  apply contained_bind; [done|]. intros ys. apply contained_ret.
Qed.

(** The two errors of [_apply_filters]. *)
Lemma apply_filters_raise {T} filters p : ∀ (st : Select T) e,
  _apply_filters filters p st = Raise e →
  is_SQLAlchemyError (exc_class e) = false
  ∨ (exc_class e = ArgumentError ∧ ∃ fn a, BeforeAfter fn None (Some a) ∈ filters).
Proof.
  induction filters as [|f filters IH]; intros st e H; simpl in H; [done|].
  assert (Hrest : ∀ st' : Select T, _apply_filters filters p st' = Raise e →
            is_SQLAlchemyError (exc_class e) = false
            ∨ (exc_class e = ArgumentError
               ∧ ∃ fn a, BeforeAfter fn None (Some a) ∈ f :: filters)).
  { intros st' H'. destruct (IH _ _ H') as [?|(? & fn & a & Hin)]; [by left|right].
    split; [done|]. exists fn, a. by apply list_elem_of_further. }
  destruct f as [fn before after|fn vs|l o|repr].
  - rewrite filter_on_datetime_field_cases in H.
    destruct before, after; try by eapply Hrest.
    injection H as <-. right. split; [done|]. eexists _, _. apply list_elem_of_here.
  - by eapply Hrest.
  - destruct p; by eapply Hrest.
  - injection H as <-. by left.
Qed.

Lemma contained_as_dict data : contained (mapM as_dict data).
Proof.
  apply contained_mapM. intros [o|d]; [apply contained_gets|apply contained_ret].
Qed.

(** X8: the one exception of SQLAlchemy's classes that leaves an
    operation returning entities is the [ArgumentError] of a Range
    filter with a lower bound and no upper bound, in [list] and
    [list_and_count]: they apply the filters before they enter the
    boundary, and the session is then as it was.  Everything else that
    SQLAlchemy raises is translated. *)
Theorem operations_raise_no_backend_exception self op s e s' :
  entities_returned self op s = (Raise e, s') →
  is_SQLAlchemyError (exc_class e) = false
  ∨ (s' = s ∧ exc_class e = ArgumentError
     ∧ ∃ filters kwargs field_name a,
         (op = List_ filters kwargs ∨ op = ListAndCount filters kwargs)
         ∧ BeforeAfter field_name None (Some a) ∈ filters).
Proof.
  assert (Hcontained : contained (entities_returned self op) →
            entities_returned self op s = (Raise e, s') →
            is_SQLAlchemyError (exc_class e) = false
            ∨ (s' = s ∧ exc_class e = ArgumentError
               ∧ ∃ filters kwargs field_name a,
                   (op = List_ filters kwargs ∨ op = ListAndCount filters kwargs)
                   ∧ BeforeAfter field_name None (Some a) ∈ filters)).
  { intros Hc H. left. by apply (Hc _ _ _ H). }
  destruct op; simpl in *;
    try (apply Hcontained;
         apply contained_bind; [apply contained_wrap|intros ?; apply contained_ret]).
  - apply Hcontained.
    apply contained_bind; [|intros ?; apply contained_ret].
    unfold get_or_create. apply contained_bind; [apply contained_wrap|].
    intros [o|]; [apply contained_ret|].
    apply contained_bind.
    { unfold model_type, alloc. apply contained_bind; [apply contained_gets|].
      intros n. apply contained_bind; [apply contained_modify|].
      intros _. apply contained_ret. }
    intros data. apply contained_bind; [apply contained_wrap|].
    intros ?. apply contained_ret.
  - clear Hcontained. intros H. unfold list_, bind in H.
    destruct (_apply_filters filters true (statement self)) as [st|e0] eqn:Hst; simpl in H.
    + left. by apply (contained_wrap _ _ _ _ H).
    + injection H as <- <-.
      destruct (apply_filters_raise _ _ _ _ Hst) as [?|(? & fn & a & Hin)]; [by left|right].
      split; [done|]. split; [done|]. exists filters, kwargs, fn, a. split; [by left|done].
  - clear Hcontained. intros H. unfold list_and_count, bind in H.
    destruct (_apply_filters filters true (add_columns_count_over (statement self)))
      as [st|e0] eqn:Hst; simpl in H.
    + left.
      destruct (wrap_sqlalchemy_exception _ s) as [[r|e1] s1] eqn:Hw; simpl in H; [done|].
      injection H as <- <-. by apply (contained_wrap _ _ _ _ Hw).
    + injection H as <- <-.
      destruct (apply_filters_raise _ _ _ _ Hst) as [?|(? & fn & a & Hin)]; [by left|right].
      split; [done|]. split; [done|]. exists filters, kwargs, fn, a. split; [by right|done].
  - apply Hcontained. unfold add_many. apply contained_bind; [apply contained_as_dict|].
    intros ?. apply contained_wrap.
  - apply Hcontained. unfold update_many. apply contained_bind; [apply contained_as_dict|].
    intros ?. apply contained_wrap.
  - apply Hcontained. apply contained_wrap.
Qed.

Lemma operations_raise_no_backend_exception_witness :
  (is_SQLAlchemyError
     (exc_class (Exn StarliteSaqlalchemyError
        "An exception occurred: Multiple rows were found when one or none was required"
        (Some (MultipleResultsFound,
               "Multiple rows were found when one or none was required")))) = false
   ∨ (entities_returned plain_repository (GetOne ∅) (sample_session false)).2
       = sample_session false
     ∧ StarliteSaqlalchemyError = ArgumentError
     ∧ ∃ filters kwargs field_name a,
         (GetOne ∅ = List_ filters kwargs ∨ GetOne ∅ = ListAndCount filters kwargs)
         ∧ BeforeAfter field_name None (Some a) ∈ filters)
  ∧ (is_SQLAlchemyError (exc_class comparison_with_None) = false
     ∨ sample_session false = sample_session false
       ∧ exc_class comparison_with_None = ArgumentError
       ∧ ∃ filters kwargs field_name a,
           (List_ [BeforeAfter "created" None (Some 15)] ∅ = List_ filters kwargs
            ∨ List_ [BeforeAfter "created" None (Some 15)] ∅ = ListAndCount filters kwargs)
           ∧ BeforeAfter field_name None (Some a) ∈ filters).
Proof.
  split.
  - apply (operations_raise_no_backend_exception plain_repository (GetOne ∅)
             (sample_session false)
             (Exn StarliteSaqlalchemyError
                "An exception occurred: Multiple rows were found when one or none was required"
                (Some (MultipleResultsFound,
                       "Multiple rows were found when one or none was required")))
             (entities_returned plain_repository (GetOne ∅) (sample_session false)).2).
    vm_compute. reflexivity.
  - apply (operations_raise_no_backend_exception plain_repository
             (List_ [BeforeAfter "created" None (Some 15)] ∅)
             (sample_session false) comparison_with_None (sample_session false)).
    vm_compute. reflexivity.
Defined.

(** ** One entity *)

Lemma get_one_unfold self kwargs s :
  get_one self kwargs s = (found ← get_one_or_none self kwargs; check_not_found found) s.
Proof.
  unfold get_one, get_one_or_none, wrap_sqlalchemy_exception, bind.
  destruct (_execute _ s) as [[rows|e] s1]; [|done].
  destruct (scalar_one_or_none rows s1) as [[[o|]|e] s2]; [|done|done].
  simpl. destruct (session_expunge o s2) as [[[]|e] s3]; done.
Qed.

(** X9: [get_one] is [get_one_or_none] followed by [check_not_found],
    results, exceptions and session alike; [get] is the same on the
    identifier alone. *)
Theorem get_one_is_checked_get_one_or_none self kwargs item_id s :
  get_one self kwargs s
  = (found ← get_one_or_none self kwargs; check_not_found found) s
  ∧ get self item_id s
    = (found ← get_one_or_none self {[id_attribute := item_id]}; check_not_found found) s.
Proof. split; [apply get_one_unfold|apply (get_one_unfold self {[id_attribute := item_id]})]. Qed.

Lemma get_one_found self kwargs s row :
  clean s → primary_key (table s) →
  let st := _filter_select_by_kwargs (statement self) kwargs in
  window st (selected st (table s)) = [row] →
  ∃ s', get_one self kwargs s = (Ok (next_obj s), s')
        ∧ clean s' ∧ same_store s s' ∧ next_obj s' = S (next_obj s)
        ∧ instance_of (next_obj s) s' = MkInstance row (Some (getattr row "id"))
        ∧ (∀ o, (o < next_obj s)%nat → instance_of o s' = instance_of o s).
Proof.
  intros Hclean Hpk st Hrows.
  destruct (execute_entity_clean st s Hclean Hpk)
    as (s1 & Hrun & Hsame & Ho & Hnext & Hnew & Hold).
  rewrite Hrows in Hrun, Ho, Hnext, Hnew. simpl in Hrun, Ho, Hnext.
  destruct Hsame as (Ht & Hd & Hdel & Hg & Hu & Hc & Hdi).
  destruct Hclean as (Hc1 & Hc2 & Hc3 & Hc4).
  eexists. split.
  { unfold get_one. apply wrap_ok. fold st.
    erewrite bind_ok by exact Hrun.
    erewrite bind_ok by reflexivity. cbv beta iota.
    erewrite bind_ok by reflexivity.
    erewrite bind_ok; [reflexivity|].
    apply session_expunge_owned. rewrite Ho. apply list_elem_of_here. }
  unfold clean, same_store. simpl.
  rewrite Ho, Hd, Hdel, Hg, Hc2, Hc3, Hc4, remove_singleton.
  specialize (Hnew 0%nat row eq_refl). rewrite Nat.add_0_r in Hnew.
  repeat split; try done; try lia.
Qed.

Lemma get_one_missing self kwargs s :
  clean s →
  let st := _filter_select_by_kwargs (statement self) kwargs in
  window st (selected st (table s)) = [] →
  get_one self kwargs s
  = (Raise (new_exn NotFoundError "No item found when one was expected"), s).
Proof.
  intros Hclean st Hrows. unfold get_one, wrap_sqlalchemy_exception. fold st.
  erewrite bind_ok by (by apply execute_entity_nothing). reflexivity.
Qed.

Lemma filter_has_id t pk row :
  NoDup (ids t) → row ∈ t → getattr row "id" = pk → List.filter (has_id pk) t = [row].
Proof.
  intros Hnd Hin Hid. induction t as [|r t IH]; [by apply elem_of_nil in Hin|].
  unfold ids in Hnd. simpl in Hnd. apply NoDup_cons in Hnd as [Hr Hnd].
  cbn [List.filter]. apply elem_of_cons in Hin as [<-|Hin].
  - unfold has_id at 1. rewrite bool_decide_eq_true_2 by done. f_equal.
    apply filter_all_false. intros x Hx. apply bool_decide_eq_false_2.
    intros Hxid. apply Hr. rewrite Hid, <- Hxid. apply list_elem_of_fmap. by exists x.
  - unfold has_id at 1. rewrite bool_decide_eq_false_2; [by apply IH|].
    intros Hrid. apply Hr. rewrite Hrid, <- Hid. apply list_elem_of_fmap. by exists row.
Qed.

Lemma filter_has_id_none t pk : pk ∉ ids t → List.filter (has_id pk) t = [].
Proof.
  intros H. apply filter_all_false. intros x Hx. apply bool_decide_eq_false_2.
  intros Hxid. apply H. rewrite <- Hxid. apply list_elem_of_fmap. by exists x.
Qed.

Lemma selected_by_id pk t :
  selected (_filter_select_by_kwargs select_model {[id_attribute := pk]}) t
  = List.filter (has_id pk) t.
Proof.
  unfold selected. rewrite whereclause_filter_select_by_kwargs, map_to_list_singleton.
  simpl. apply filter_ext. intros r. by rewrite andb_true_r.
Qed.

Lemma window_by_id {A} pk (l : list A) :
  window (_filter_select_by_kwargs select_model {[id_attribute := pk]}) l = l.
Proof.
  apply window_unpaginated.
  - by rewrite limit_filter_select_by_kwargs.
  - by rewrite offset_filter_select_by_kwargs.
Qed.

Lemma get_found item_id s row :
  clean s → primary_key (table s) → row ∈ table s → getattr row "id" = item_id →
  ∃ s', get plain_repository item_id s = (Ok (next_obj s), s')
        ∧ clean s' ∧ same_store s s' ∧ next_obj s' = S (next_obj s)
        ∧ instance_of (next_obj s) s' = MkInstance row (Some item_id)
        ∧ (∀ o, (o < next_obj s)%nat → instance_of o s' = instance_of o s).
Proof.
  intros Hclean Hpk Hin Hid.
  destruct (get_one_found plain_repository {[id_attribute := item_id]} s row Hclean Hpk)
    as (s' & Hrun & H).
  { cbn zeta. change (statement plain_repository) with select_model.
    rewrite window_by_id, selected_by_id. apply filter_has_id; [apply Hpk|done|done]. }
  exists s'. split; [exact Hrun|]. by rewrite Hid in H.
Qed.

Lemma get_missing item_id s :
  clean s → item_id ∉ ids (table s) →
  get plain_repository item_id s
  = (Raise (new_exn NotFoundError "No item found when one was expected"), s).
Proof.
  intros Hclean Hfree. apply (get_one_missing plain_repository {[id_attribute := item_id]} s Hclean).
  change (statement plain_repository) with select_model.
  rewrite window_by_id, selected_by_id. by apply filter_has_id_none.
Qed.

(** X10: [get] on an identifier no entity has raises [NotFoundError]
    and leaves the session as it was; on the identifier of an entity it
    returns this entity, and the table is as it was. *)
Theorem get_returns_the_entity_or_not_found item_id s :
  clean s → primary_key (table s) →
  (item_id ∉ ids (table s) →
   get plain_repository item_id s
   = (Raise (new_exn NotFoundError "No item found when one was expected"), s))
  ∧ (∀ row, row ∈ table s → getattr row "id" = item_id →
     ∃ o s', get plain_repository item_id s = (Ok o, s')
             ∧ state_of o s' = row ∧ table s' = table s ∧ clean s').
Proof.
  intros Hclean Hpk. split; [by apply get_missing|].
  intros row Hin Hid.
  destruct (get_found item_id s row Hclean Hpk Hin Hid)
    as (s' & Hrun & Hclean' & Hsame & _ & Hinst & _).
  exists (next_obj s), s'. split; [done|]. unfold state_of. rewrite Hinst.
  split; [done|]. split; [apply Hsame|done].
Qed.

Lemma get_returns_the_entity_or_not_found_witness :
  get plain_repository (VInt 9) (sample_session false)
  = (Raise (new_exn NotFoundError "No item found when one was expected"), sample_session false)
  ∧ ∃ o s', get plain_repository (VInt 2) (sample_session false) = (Ok o, s')
            ∧ state_of o s' = sample_row 2 "b" 20
            ∧ table s' = table (sample_session false) ∧ clean s'.
Proof.
  split.
  - apply (get_returns_the_entity_or_not_found (VInt 9) (sample_session false)
             (sample_session_clean false) (sample_session_primary_key false)).
    apply (bool_decide_unpack _). vm_compute. reflexivity.
  - apply (get_returns_the_entity_or_not_found (VInt 2) (sample_session false)
             (sample_session_clean false) (sample_session_primary_key false)).
    + apply list_elem_of_further, list_elem_of_here.
    + vm_compute. reflexivity.
Defined.

(** X11: [get_or_create] creates nothing when an entity meets the
    constraints: with one such entity it returns it with [False]; with
    several it raises the translated [MultipleResultsFound].  The table
    is as it was in both cases. *)
Theorem get_or_create_returns_the_match self kwargs s :
  clean s → primary_key (table s) →
  let st := _filter_select_by_kwargs (statement self) kwargs in
  (∀ row, window st (selected st (table s)) = [row] →
     ∃ o s', get_or_create self kwargs s = (Ok (o, false), s')
             ∧ state_of o s' = row ∧ table s' = table s ∧ clean s')
  ∧ (∀ r1 r2 rest, window st (selected st (table s)) = r1 :: r2 :: rest →
     ∃ s', get_or_create self kwargs s
           = (Raise (Exn StarliteSaqlalchemyError
                "An exception occurred: Multiple rows were found when one or none was required"
                (Some (MultipleResultsFound,
                       "Multiple rows were found when one or none was required"))), s')
           ∧ table s' = table s).
Proof.
  intros Hclean Hpk st. split.
  - intros row Hrows.
    pose proof (get_one_or_none_clean self kwargs s Hclean Hpk) as Hget.
    cbn zeta in Hget. fold st in Hget. rewrite Hrows in Hget.
    destruct Hget as (s' & Hrun & Hclean' & Ht & _ & _ & _ & Hst).
    exists (next_obj s), s'. split; [|done].
    unfold get_or_create. by erewrite bind_ok by exact Hrun.
  - intros r1 r2 rest Hrows.
    destruct (execute_entity_clean st s Hclean Hpk) as (s1 & Hrun & Hsame & _).
    rewrite Hrows in Hrun. simpl in Hrun.
    exists s1. split; [|apply Hsame].
    unfold get_or_create. erewrite bind_raise; [reflexivity|].
    unfold get_one_or_none, wrap_sqlalchemy_exception. fold st.
    erewrite bind_ok by exact Hrun. reflexivity.
Qed.

Lemma get_or_create_returns_the_match_witness :
  ∃ o s', get_or_create plain_repository {["name" := VStr "b"]} (sample_session false)
          = (Ok (o, false), s')
          ∧ state_of o s' = sample_row 2 "b" 20
          ∧ table s' = table (sample_session false) ∧ clean s'.
Proof.
  apply (get_or_create_returns_the_match plain_repository {["name" := VStr "b"]}
           (sample_session false) (sample_session_clean false)
           (sample_session_primary_key false)).
  vm_compute. reflexivity.
Defined.

(** ** Adding *)

Lemma transient_session_clean given : clean (transient_session given).
Proof. by repeat split. Qed.

Lemma transient_session_primary_key given : primary_key (table (transient_session given)).
Proof. apply (sample_session_primary_key false). Qed.

(** X12: an entity added under a free identifier (its own, or the one
    generated) is the last row of the table, and [get] on its
    identifier returns an entity with the same state. *)
Theorem add_then_get_round_trip data s :
  clean s → primary_key (table s) → key (instance_of data s) = None →
  let pk := defaulted (state_of data s) "id" (VInt (uuid_next s)) in
  pk ∉ ids (table s) →
  ∃ s1, add plain_repository data s = (Ok data, s1)
        ∧ getattr (state_of data s1) "id" = pk
        ∧ table s1 = table s ++ [state_of data s1]
        ∧ ∃ o s2, get plain_repository pk s1 = (Ok o, s2)
                  ∧ state_of o s2 = state_of data s1
                  ∧ table s2 = table s1.
Proof.
  intros Hclean Hpk Hkey pk Hfree.
  destruct (add_clean plain_repository data s Hclean Hkey Hfree)
    as (row & s1 & Hadd & Hclean1 & Ht1 & Hstate & _ & _ & Hid & _).
  exists s1. rewrite Hstate. split; [done|]. split; [done|]. split; [done|].
  assert (Hpk1 : primary_key (table s1)).
  { rewrite Ht1. apply primary_key_snoc; [done|by rewrite Hid|].
    rewrite Hid. by apply defaulted_not_none. }
  destruct (get_found pk s1 row Hclean1 Hpk1) as (s2 & Hget & _ & Hsame & _ & Hinst & _).
  { rewrite Ht1. apply elem_of_app. right. apply list_elem_of_here. }
  { exact Hid. }
  exists (next_obj s1), s2. split; [done|]. unfold state_of. rewrite Hinst.
  split; [done|]. apply Hsame.
Qed.

Lemma add_then_get_round_trip_witness :
  let s := transient_session {["name" := VStr "z"]} in
  ∃ s1, add plain_repository 0%nat s = (Ok 0%nat, s1)
        ∧ getattr (state_of 0%nat s1) "id" = VInt 100
        ∧ table s1 = table s ++ [state_of 0%nat s1]
        ∧ ∃ o s2, get plain_repository (VInt 100) s1 = (Ok o, s2)
                  ∧ state_of o s2 = state_of 0%nat s1
                  ∧ table s2 = table s1.
Proof.
  intros s.
  pose proof (add_then_get_round_trip 0%nat s
                (transient_session_clean _) (transient_session_primary_key _) eq_refl) as H.
  cbn zeta in H.
  assert (E : defaulted (state_of 0%nat s) "id" (VInt (uuid_next s)) = VInt 100)
    by (vm_compute; reflexivity).
  rewrite E in H. apply H.
  apply (bool_decide_unpack _). vm_compute. reflexivity.
Defined.

(** X13: [add] of an entity whose identifier is in use raises
    [ConflictError], caused by the [IntegrityError] of the insert, and
    the table is as it was. *)
Theorem add_with_identifier_in_use_conflicts self data s :
  clean s → primary_key (table s) → key (instance_of data s) = None →
  getattr (state_of data s) "id" ∈ ids (table s) →
  ∃ e s', add self data s = (Raise e, s')
          ∧ exc_class e = ConflictError
          ∧ exc_cause e = Some (IntegrityError,
                                "duplicate key value violates unique constraint")
          ∧ table s' = table s.
Proof.
  intros (Hc1 & Hc2 & Hc3 & Hc4) [_ Hnn] Hkey Hin.
  assert (Hid : getattr (state_of data s) "id" ≠ VNone) by (by intros E; rewrite E in Hin).
  set (s1 := set_owned (fun l => l ++ [data]) s).
  pose proof (attach_add data s) as Hattach.
  rewrite Hc1 in Hattach. specialize (Hattach (not_elem_of_nil _) Hkey). fold s1 in Hattach.
  destruct (insert_row_conflict (state_of data s) s1 Hid Hin) as (s2 & Hins & Ht2 & _).
  assert (Hflush : flush s1
    = (Raise (new_exn IntegrityError "duplicate key value violates unique constraint"), s2)).
  { rewrite flush_pending by done. change (owned s1) with (owned s ++ [data]).
    rewrite Hc1. cbn [app List.filter].
    change (instance_of data s1) with (instance_of data s). rewrite Hkey.
    rewrite bool_decide_eq_true_2 by done. cbn [for_].
    unfold flush_insert. rewrite !bind_assoc, bind_gets, !bind_assoc.
    change (state_of data s1) with (state_of data s).
    by erewrite bind_raise by exact Hins. }
  eexists _, s2. split.
  { unfold add, wrap_sqlalchemy_exception. erewrite bind_ok by exact Hattach.
    erewrite bind_raise by exact Hflush. reflexivity. }
  by repeat split.
Qed.

Lemma add_with_identifier_in_use_conflicts_witness :
  ∃ e s', add plain_repository 0%nat (transient_session {["id" := VInt 1]}) = (Raise e, s')
          ∧ exc_class e = ConflictError
          ∧ exc_cause e = Some (IntegrityError,
                                "duplicate key value violates unique constraint")
          ∧ table s' = table (transient_session {["id" := VInt 1]}).
Proof.
  apply (add_with_identifier_in_use_conflicts plain_repository 0%nat
           (transient_session {["id" := VInt 1]})
           (transient_session_clean _) (transient_session_primary_key _) eq_refl).
  apply (bool_decide_unpack _). vm_compute. reflexivity.
Defined.

(** ** Deleting *)

Lemma session_add_detached o s :
  owned s = [] →
  session_add o s = (Ok tt, set_owned (fun l => l ++ [o]) s).
Proof.
  intros Ho. unfold session_add. rewrite bind_gets, Ho.
  rewrite bool_decide_eq_false_2 by apply not_elem_of_nil.
  destruct (key (instance_of o s)) as [pk|]; [|done].
  rewrite identity_get_none; [done|]. rewrite Ho. intros x Hx. by apply elem_of_nil in Hx.
Qed.

Lemma flush_delete_one s o pk :
  dirty s = [] → deleted s = [o] → owned s = [o] → key (instance_of o s) = Some pk →
  flush s
  = (Ok tt, set_gone (fun g => g ++ [o]) (set_deleted (fun _ => []) (set_dirty (fun _ => [])
              (set_table (List.filter (fun r => negb (has_id pk r))) s)))).
Proof.
  intros Hd Hdel Ho Hkey. unfold flush, touch_updated_timestamp.
  rewrite bind_assoc, bind_gets, Hd. cbn [for_]. rewrite bind_ret, bind_gets.
  rewrite Ho, Hd, Hdel. cbn [List.filter]. rewrite Hkey. cbn [for_].
  rewrite (bool_decide_eq_false_2 (Some pk = None)) by done. cbn [for_].
  rewrite !bind_ret. unfold flush_delete. rewrite !bind_assoc, bind_gets, Hkey.
  reflexivity.
Qed.

Lemma delete_found item_id s row :
  clean s → primary_key (table s) → row ∈ table s → getattr row "id" = item_id →
  ∃ s', delete_ plain_repository item_id s = (Ok (next_obj s), s')
        ∧ clean s'
        ∧ table s' = List.filter (fun r => negb (has_id item_id r)) (table s)
        ∧ state_of (next_obj s) s' = row.
Proof.
  intros Hclean Hpk Hin Hid.
  destruct (get_found item_id s row Hclean Hpk Hin Hid)
    as (s1 & Hget & (Ho1 & Hd1 & Hdel1 & Hg1) & Hsame & Hn1 & Hinst & _).
  destruct Hsame as (Ht & _).
  set (n := next_obj s) in *.
  set (s2 := set_deleted (add_once n) (set_owned (fun l => l ++ [n]) s1)).
  assert (Hdelete : session_delete n s1 = (Ok tt, s2)).
  { unfold session_delete. rewrite bind_gets, Hinst. cbn [key].
    erewrite bind_ok by (by apply session_add_detached). reflexivity. }
  assert (Hinst2 : instance_of n s2 = MkInstance row (Some item_id)) by exact Hinst.
  pose proof (flush_delete_one s2 n item_id) as Hflush.
  assert (Ho2 : owned s2 = [n]) by (cbn; by rewrite Ho1).
  assert (Hdel2 : deleted s2 = [n]).
  { cbn. rewrite Hdel1. unfold add_once.
    by rewrite bool_decide_eq_false_2 by apply not_elem_of_nil. }
  specialize (Hflush Hd1 Hdel2 Ho2). rewrite Hinst2 in Hflush. specialize (Hflush eq_refl).
  set (s3 := set_gone _ _) in Hflush.
  eexists. split.
  { unfold delete_. apply wrap_ok. erewrite bind_ok by exact Hget.
    erewrite bind_ok by exact Hdelete. erewrite bind_ok by exact Hflush.
    erewrite bind_ok; [reflexivity|].
    apply session_expunge_owned. change (owned s3) with (owned s2). rewrite Ho2.
    apply list_elem_of_here. }
  unfold clean.
  cbn [owned dirty deleted gone table set_owned set_dirty set_deleted set_gone].
  change (owned s3) with (owned s2). change (gone s3) with (gone s1 ++ [n]).
  change (table s3) with (List.filter (fun r => negb (has_id item_id r)) (table s1)).
  rewrite Ho2, Hg1, Ht, remove_singleton. cbn [app]. rewrite remove_singleton.
  repeat split; try done.
  unfold state_of. change (instance_of n _) with (instance_of n s1). by rewrite Hinst.
Qed.

Lemma filter_not_has_id t pk row :
  NoDup (ids t) → row ∈ t → getattr row "id" = pk →
  ∀ r, r ∈ List.filter (fun r => negb (has_id pk r)) t ↔ r ∈ t ∧ r ≠ row.
Proof.
  intros Hnd Hin Hid r. rewrite list_elem_of_In, filter_In, <- list_elem_of_In.
  unfold has_id. rewrite negb_true_iff, bool_decide_eq_false. split.
  - intros [Hr Hne]. split; [done|]. intros ->. done.
  - intros [Hr Hne]. split; [done|]. intros Hrid. apply Hne.
    assert (Heq : List.filter (has_id pk) t = [row]) by by apply filter_has_id.
    assert (Hrin : r ∈ List.filter (has_id pk) t).
    { apply list_elem_of_In, filter_In. split; [by apply list_elem_of_In|].
      by apply bool_decide_eq_true_2. }
    rewrite Heq in Hrin. by apply list_elem_of_singleton in Hrin.
Qed.

(** X14: [delete] on an identifier no entity has raises
    [NotFoundError] and leaves the session as it was; on the identifier
    of an entity it returns the entity as it was, and the table loses
    this row and no other. *)
Theorem delete_removes_the_entity_or_not_found item_id s :
  clean s → primary_key (table s) →
  (item_id ∉ ids (table s) →
   delete_ plain_repository item_id s
   = (Raise (new_exn NotFoundError "No item found when one was expected"), s))
  ∧ (∀ row, row ∈ table s → getattr row "id" = item_id →
     ∃ o s', delete_ plain_repository item_id s = (Ok o, s')
             ∧ state_of o s' = row
             ∧ table s' = List.filter (fun r => negb (has_id item_id r)) (table s)
             ∧ (∀ r, r ∈ table s' ↔ r ∈ table s ∧ r ≠ row)
             ∧ (item_id ∉ ids (table s'))
             ∧ clean s').
Proof.
  intros Hclean Hpk. split.
  - intros Hfree. unfold delete_, wrap_sqlalchemy_exception.
    erewrite bind_raise by (by apply get_missing). reflexivity.
  - intros row Hin Hid.
    destruct (delete_found item_id s row Hclean Hpk Hin Hid) as (s' & Hrun & Hcl & Ht & Hst).
    exists (next_obj s), s'. split; [done|]. split; [done|]. split; [done|].
    rewrite Ht. split; [by apply filter_not_has_id; [apply Hpk|..]|]. split; [|done].
    intros Hmem. apply list_elem_of_fmap in Hmem as (r & Hr & Hrin).
    apply list_elem_of_In, filter_In in Hrin as [_ Hneg].
    apply negb_true_iff, bool_decide_eq_false in Hneg. done.
Qed.

Lemma delete_removes_the_entity_or_not_found_witness :
  ∃ o s', delete_ plain_repository (VInt 2) (sample_session false) = (Ok o, s')
          ∧ state_of o s' = sample_row 2 "b" 20
          ∧ table s' = [sample_row 1 "a" 10; sample_row 3 "c" 30].
Proof.
  destruct (proj2 (delete_removes_the_entity_or_not_found (VInt 2) (sample_session false)
                     (sample_session_clean false) (sample_session_primary_key false))
              (sample_row 2 "b" 20))
    as (o & s' & Hrun & Hst & Ht & _).
  - apply list_elem_of_further, list_elem_of_here.
  - vm_compute. reflexivity.
  - exists o, s'. split; [exact Hrun|]. split; [exact Hst|]. rewrite Ht.
    vm_compute. reflexivity.
Defined.

Lemma filter_holds_in item_ids t :
  VNone ∉ ids t →
  List.filter (holds (In_ id_attribute item_ids)) t
  = List.filter (fun r => bool_decide (getattr r "id" ∈ item_ids)) t.
Proof.
  intros Hnn. induction t as [|r t IH]; [done|].
  unfold ids in Hnn. simpl in Hnn. apply not_elem_of_cons in Hnn as [Hr Hnn].
  cbn [List.filter]. rewrite (IH Hnn). by rewrite holds_in by done.
Qed.

Lemma filter_not_holds_in item_ids t :
  VNone ∉ ids t →
  List.filter (fun r => negb (holds (In_ id_attribute item_ids) r)) t
  = List.filter (fun r => negb (bool_decide (getattr r "id" ∈ item_ids))) t.
Proof.
  intros Hnn. induction t as [|r t IH]; [done|].
  unfold ids in Hnn. simpl in Hnn. apply not_elem_of_cons in Hnn as [Hr Hnn].
  cbn [List.filter]. rewrite (IH Hnn). by rewrite holds_in by done.
Qed.

(** X15: [delete_many] on a non-empty list of identifiers returns the
    entities whose identifier is in the list and removes their rows and
    no other, on either kind of backend; identifiers no entity has are
    passed over without an error. *)
Theorem delete_many_deletes_exactly_the_identified item_ids s :
  clean s → primary_key (table s) → item_ids ≠ [] →
  ∃ instances s',
    delete_many plain_repository item_ids s = (Ok instances, s')
    ∧ states instances s'
      = List.filter (fun r => bool_decide (getattr r "id" ∈ item_ids)) (table s)
    ∧ table s'
      = List.filter (fun r => negb (bool_decide (getattr r "id" ∈ item_ids))) (table s)
    ∧ ((∀ pk, pk ∈ item_ids → pk ∉ ids (table s)) → instances = [] ∧ table s' = table s)
    ∧ clean s'.
Proof.
  intros Hclean Hpk Hne.
  assert (H : ∃ instances s',
    delete_many plain_repository item_ids s = (Ok instances, s')
    ∧ states instances s' = List.filter (holds (In_ id_attribute item_ids)) (table s)
    ∧ table s' = List.filter (fun r => negb (holds (In_ id_attribute item_ids) r)) (table s)
    ∧ clean s').
  { destruct (delete_executemany_returning (dialect s)) eqn:Hflag.
    - destruct (delete_many_returning item_ids s Hclean Hpk Hflag)
        as (objs & s' & Hrun & Hst & Hcl & Htab & _). by exists objs, s'.
    - destruct (delete_many_reselect item_ids s Hclean Hpk Hflag)
        as (objs & s' & Hrun & Hst & Hcl & Htab & _).
      exists objs, s'. split; [done|]. split; [|done].
      rewrite Hst. destruct item_ids as [|v vs]; [done|]. apply selected_in_collection. }
  destruct H as (instances & s' & Hrun & Hst & Ht & Hclean').
  rewrite filter_holds_in in Hst by apply Hpk.
  rewrite filter_not_holds_in in Ht by apply Hpk.
  exists instances, s'. split; [done|]. split; [done|]. split; [done|]. split; [|done].
  intros Hmiss.
  assert (Hnone : ∀ r, r ∈ table s → bool_decide (getattr r "id" ∈ item_ids) = false).
  { intros r Hr. apply bool_decide_eq_false_2. intros Hin.
    apply (Hmiss _ Hin). apply list_elem_of_fmap. by exists r. }
  split.
  - rewrite filter_all_false in Hst by done.
    unfold states in Hst. by apply fmap_nil_inv in Hst.
  - rewrite Ht. apply filter_all_true. intros r Hr. by rewrite Hnone.
Qed.

Lemma delete_many_deletes_exactly_the_identified_witness :
  ∃ instances s',
    delete_many plain_repository [VInt 1; VInt 9] (sample_session true) = (Ok instances, s')
    ∧ states instances s' = [sample_row 1 "a" 10]
    ∧ table s' = [sample_row 2 "b" 20; sample_row 3 "c" 30].
Proof.
  destruct (delete_many_deletes_exactly_the_identified [VInt 1; VInt 9] (sample_session true)
              (sample_session_clean true) (sample_session_primary_key true))
    as (instances & s' & Hrun & Hst & Ht & _); [done|].
  exists instances, s'. split; [exact Hrun|]. split.
  - rewrite Hst. vm_compute. reflexivity.
  - rewrite Ht. vm_compute. reflexivity.
Defined.

(** ** Updating and upserting *)

Lemma find_has_id_some t pk row :
  NoDup (ids t) → row ∈ t → getattr row "id" = pk → List.find (has_id pk) t = Some row.
Proof.
  intros Hnd Hin Hid. induction t as [|r t IH]; [by apply elem_of_nil in Hin|].
  unfold ids in Hnd. simpl in Hnd. apply NoDup_cons in Hnd as [Hr Hnd].
  cbn [List.find]. apply elem_of_cons in Hin as [<-|Hin].
  - unfold has_id. by rewrite bool_decide_eq_true_2.
  - unfold has_id at 1. rewrite bool_decide_eq_false_2; [by apply IH|].
    intros Hrid. apply Hr. rewrite Hrid, <- Hid. apply list_elem_of_fmap. by exists row.
Qed.

Lemma find_has_id_none t pk : pk ∉ ids t → List.find (has_id pk) t = None.
Proof.
  intros H. apply find_none_iff. intros x Hx. apply bool_decide_eq_false_2.
  intros Hxid. apply H. rewrite <- Hxid. apply list_elem_of_fmap. by exists x.
Qed.

Lemma find_has_id_replaced t pk new :
  pk ∈ ids t → has_id pk new = true →
  List.find (has_id pk) ((fun r => if has_id pk r then new else r) <$> t) = Some new.
Proof.
  intros Hin Hnew. induction t as [|r t IH]; [by apply elem_of_nil in Hin|].
  cbn [fmap list_fmap List.find]. destruct (has_id pk r) eqn:Hr.
  - by rewrite Hnew.
  - rewrite Hr. apply IH. unfold ids in Hin. simpl in Hin.
    apply elem_of_cons in Hin as [->|Hin]; [|done].
    unfold has_id in Hr. by apply bool_decide_eq_false in Hr.
Qed.

(** [merge] of a detached instance whose identifier has a row, in a
    session with nothing attached. *)
Lemma merge_existing data s pk row :
  owned s = [] → getattr (state_of data s) "id" = pk → pk ≠ VNone →
  List.find (has_id pk) (table s) = Some row →
  let tgt := next_obj s in
  session_merge data s
  = (Ok tgt,
     set_dirty (add_once tgt)
       (set_heap (fun h => <[tgt := MkInstance (state_of data s ∪ row) (Some (getattr row "id"))]> h)
          (set_owned (fun l => l ++ [tgt])
             (set_next_obj S
                (set_heap (fun h => <[tgt := MkInstance row (Some (getattr row "id"))]> h) s))))).
Proof.
  intros Ho Hid Hnn Hfind tgt. unfold session_merge.
  rewrite bind_gets, Ho. rewrite bool_decide_eq_false_2 by apply not_elem_of_nil.
  rewrite Hid.
  assert (Hget : session_get pk s
    = (Ok (Some tgt), set_owned (fun l => l ++ [tgt]) (set_next_obj S
         (set_heap (fun h => <[tgt := MkInstance row (Some (getattr row "id"))]> h) s)))).
  { unfold session_get. rewrite bind_gets.
    rewrite identity_get_none by (rewrite Ho; intros x Hx; by apply elem_of_nil in Hx).
    rewrite bind_gets, Hfind. unfold load_instance. rewrite !bind_assoc, bind_gets.
    rewrite identity_get_none by (rewrite Ho; intros x Hx; by apply elem_of_nil in Hx).
    reflexivity. }
  destruct pk as [|z|str]; [done| |];
    (erewrite bind_ok by exact Hget; cbv beta iota;
     rewrite bind_modify, bind_modify; unfold ret; do 3 f_equal;
     unfold state_of, instance_of; cbn;
     by rewrite lookup_insert_eq).
Qed.

Lemma touch_one s o :
  dirty s = [o] →
  touch_updated_timestamp s
  = (Ok tt, set_heap (fun h => <[o := MkInstance (<["updated" := VInt (clock s)]> (state_of o s))
                                              (key (instance_of o s))]> h)
              (set_clock Z.succ s)).
Proof. intros Hd. unfold touch_updated_timestamp. rewrite bind_gets, Hd. reflexivity. Qed.

(** A flush with one modified persistent instance: the hook stamps it,
    its row is rewritten. *)
Lemma flush_update_one s o pk :
  dirty s = [o] → deleted s = [] → owned s = [o] → key (instance_of o s) = Some pk →
  pk ∈ ids (table s) →
  let new := <["updated" := VInt (clock s)]> (state_of o s) in
  flush s
  = (Ok tt,
     set_gone (fun g => g ++ []) (set_deleted (fun _ => []) (set_dirty (fun _ => [])
       (set_table (List.map (fun r => if has_id pk r then new else r))
          (set_heap (fun h => <[o := MkInstance new (Some pk)]> h)
             (set_clock Z.succ s)))))).
Proof.
  intros Hd Hdel Ho Hkey Hin new.
  assert (Hex : existsb (has_id pk) (table s) = true).
  { destruct (existsb _ _) eqn:E; [done|]. by apply existsb_has_id in E. }
  unfold flush. erewrite bind_ok by (by apply touch_one).
  rewrite Hkey. fold new. rewrite bind_gets.
  set (s1 := set_heap _ _).
  assert (Hinst : instance_of o s1 = MkInstance new (Some pk)).
  { unfold s1. rewrite instance_of_alloc. by rewrite bool_decide_eq_true_2. }
  change (owned s1) with (owned s). change (dirty s1) with (dirty s).
  change (deleted s1) with (deleted s). rewrite Ho, Hd, Hdel.
  cbn [List.filter]. rewrite Hinst. cbn [key].
  rewrite (bool_decide_eq_false_2 (Some pk = None)) by done.
  rewrite (bool_decide_eq_false_2 (o ∈ [])) by apply not_elem_of_nil.
  cbn [negb for_]. rewrite bind_ret.
  unfold flush_update. rewrite !bind_assoc, bind_gets, Hinst. cbn [key attrs].
  rewrite !bind_assoc, bind_gets. change (table s1) with (table s). rewrite Hex.
  reflexivity.
Qed.

Lemma getattr_union_l (d1 d2 : dict) k : getattr d1 k ≠ VNone → getattr (d1 ∪ d2) k = getattr d1 k.
Proof.
  unfold getattr. intros H. destruct (d1 !! k) as [v|] eqn:E; [|done].
  by rewrite (lookup_union_Some_l _ _ _ _ E).
Qed.

(** [upsert] of an entity whose identifier has a row. *)
Lemma upsert_found data s row :
  clean s → primary_key (table s) →
  row ∈ table s → getattr row "id" = getattr (state_of data s) "id" →
  let pk := getattr (state_of data s) "id" in
  let new := <["updated" := VInt (clock s)]> (state_of data s ∪ row) in
  ∃ s', upsert plain_repository data s = (Ok (next_obj s), s')
        ∧ clean s'
        ∧ table s' = (fun r => if has_id pk r then new else r) <$> table s
        ∧ state_of (next_obj s) s' = new
        ∧ clock s' = Z.succ (clock s) ∧ uuid_next s' = uuid_next s.
Proof.
  intros (Ho1 & Hd1 & Hdel1 & Hg1) Hpk Hin Hid pk new.
  assert (Hnn : pk ≠ VNone).
  { intros E. destruct Hpk as [_ Hn]. apply Hn. rewrite <- E. unfold pk. rewrite <- Hid.
    apply list_elem_of_fmap. by exists row. }
  assert (Hfind : List.find (has_id pk) (table s) = Some row).
  { apply find_has_id_some; [apply Hpk|done|done]. }
  pose proof (merge_existing data s pk row Ho1 eq_refl Hnn Hfind) as Hmerge.
  cbn zeta in Hmerge. rewrite Hid in Hmerge. fold pk in Hmerge.
  set (tgt := next_obj s) in *.
  set (s2 := set_dirty _ _) in Hmerge.
  assert (Hinst2 : instance_of tgt s2 = MkInstance (state_of data s ∪ row) (Some pk)).
  { unfold s2.
    change (instance_of tgt (set_dirty ?f ?x)) with (instance_of tgt x).
    rewrite instance_of_alloc. by rewrite bool_decide_eq_true_2. }
  assert (Ho2 : owned s2 = [tgt]) by (cbn; by rewrite Ho1).
  assert (Hd2 : dirty s2 = [tgt]).
  { cbn. rewrite Hd1. unfold add_once.
    by rewrite bool_decide_eq_false_2 by apply not_elem_of_nil. }
  assert (Hdel2 : deleted s2 = []) by exact Hdel1.
  assert (Ht2 : table s2 = table s) by done.
  assert (Hc2 : clock s2 = clock s) by done.
  assert (Hg2 : gone s2 = []) by exact Hg1.
  assert (Hmem : pk ∈ ids (table s)).
  { unfold pk. rewrite <- Hid. apply list_elem_of_fmap. by exists row. }
  pose proof (flush_update_one s2 tgt pk Hd2 Hdel2 Ho2) as Hflush.
  rewrite Hinst2 in Hflush. specialize (Hflush eq_refl).
  rewrite Ht2 in Hflush. specialize (Hflush Hmem). cbn zeta in Hflush.
  unfold state_of in Hflush. rewrite Hinst2 in Hflush. cbn [attrs] in Hflush.
  rewrite Hc2 in Hflush. fold (state_of data s) in Hflush. fold new in Hflush.
  set (s3 := set_gone _ _) in Hflush.
  assert (Hinst3 : instance_of tgt s3 = MkInstance new (Some pk)).
  { unfold s3.
    change (instance_of tgt (set_gone ?f (set_deleted ?g (set_dirty ?h (set_table ?k ?x)))))
      with (instance_of tgt x).
    rewrite instance_of_alloc. by rewrite bool_decide_eq_true_2. }
  assert (Ho3 : owned s3 = [tgt]) by exact Ho2.
  assert (Hd3 : dirty s3 = []) by done.
  assert (Hdel3 : deleted s3 = []) by done.
  assert (Hg3 : gone s3 = []) by (cbn; by rewrite Hg1).
  assert (Ht3 : table s3 = (fun r => if has_id pk r then new else r) <$> table s) by done.
  assert (Hnewid : has_id pk new = true).
  { unfold has_id. apply bool_decide_eq_true_2. unfold new.
    rewrite getattr_insert. rewrite bool_decide_eq_false_2 by done.
    by apply getattr_union_l. }
  assert (Hidle : flush s3 = (Ok tt, s3)).
  { apply flush_idle; [done|done|]. rewrite Ho3.
    intros o ->%list_elem_of_singleton. by rewrite Hinst3. }
  pose proof (refresh_persistent tgt s3 pk new Hidle) as Hrefresh.
  rewrite Hinst3 in Hrefresh. specialize (Hrefresh eq_refl).
  specialize (Hrefresh ltac:(rewrite Ho3; apply list_elem_of_here)
                       ltac:(rewrite Hg3; apply not_elem_of_nil)).
  rewrite Ht3 in Hrefresh. specialize (Hrefresh (find_has_id_replaced _ _ _ Hmem Hnewid)).
  set (s4 := set_heap _ s3) in Hrefresh.
  eexists. split.
  { unfold upsert. apply wrap_ok.
    unfold _attach_to_session. rewrite bool_decide_eq_false_2 by done.
    rewrite bool_decide_eq_true_2 by done.
    erewrite bind_ok by exact Hmerge.
    erewrite bind_ok by exact Hflush. erewrite bind_ok by exact Hrefresh.
    erewrite bind_ok; [reflexivity|].
    apply session_expunge_owned. change (owned s4) with (owned s3). rewrite Ho3.
    apply list_elem_of_here. }
  unfold clean.
  cbn [owned dirty deleted gone table clock uuid_next set_owned set_dirty set_deleted set_gone].
  change (owned s4) with (owned s3). change (gone s4) with (gone s3).
  change (dirty s4) with (dirty s3). change (deleted s4) with (deleted s3).
  change (table s4) with (table s3). change (clock s4) with (Z.succ (clock s)).
  change (uuid_next s4) with (uuid_next s).
  rewrite Ho3, Hg3, Hd3, Hdel3, Ht3, remove_singleton.
  repeat split; try done.
  unfold state_of, instance_of. cbn. by rewrite lookup_insert_eq.
Qed.

(** [update] of an entity whose identifier has a row: [get], then what
    [upsert] does. *)
Lemma update_found data s row :
  clean s → primary_key (table s) → (data < next_obj s)%nat →
  row ∈ table s → getattr row "id" = getattr (state_of data s) "id" →
  let pk := getattr (state_of data s) "id" in
  let new := <["updated" := VInt (clock s)]> (state_of data s ∪ row) in
  ∃ s', update plain_repository data s = (Ok (S (next_obj s)), s')
        ∧ clean s'
        ∧ table s' = (fun r => if has_id pk r then new else r) <$> table s
        ∧ state_of (S (next_obj s)) s' = new
        ∧ clock s' = Z.succ (clock s) ∧ uuid_next s' = uuid_next s.
Proof.
  intros Hclean Hpk Hlt Hin Hid pk new.
  destruct (get_found pk s row Hclean Hpk Hin Hid)
    as (s1 & Hget & Hclean1 & Hsame & Hn1 & Hinst1 & Hold).
  destruct Hsame as (Ht1 & _ & _ & _ & Hu1 & Hc1 & _).
  assert (Hgiven : state_of data s1 = state_of data s).
  { unfold state_of. by rewrite Hold. }
  destruct (upsert_found data s1 row) as (s' & Hrun & Hclean' & Ht' & Hst' & Hc' & Hu').
  { done. } { by rewrite Ht1. } { by rewrite Ht1. } { by rewrite Hgiven. }
  rewrite Hgiven, Ht1, Hc1, Hn1 in *. fold pk new in Ht', Hst'.
  apply wrap_inv in Hrun.
  exists s'. split; [|split; [done|split; [done|split; [done|split; [done|congruence]]]]].
  unfold update. apply wrap_ok. unfold get_id_attribute_value.
  rewrite bind_gets. change id_attribute with "id". fold pk.
  erewrite bind_ok by exact Hget. exact Hrun.
Qed.

(** [merge] of a detached instance whose identifier has no row. *)
Lemma merge_new data s :
  owned s = [] → getattr (state_of data s) "id" ∉ ids (table s) →
  let tgt := next_obj s in
  session_merge data s
  = (Ok tgt, set_owned (fun l => l ++ [tgt])
               (set_next_obj S
                  (set_heap (fun h => <[tgt := MkInstance (state_of data s) None]> h) s))).
Proof.
  intros Ho Hfree tgt. unfold session_merge.
  rewrite bind_gets, Ho. rewrite bool_decide_eq_false_2 by apply not_elem_of_nil.
  assert (Hget : ∀ pk, pk ∉ ids (table s) → session_get pk s = (Ok None, s)).
  { intros pk Hpk. unfold session_get. rewrite bind_gets.
    rewrite identity_get_none by (rewrite Ho; intros x Hx; by apply elem_of_nil in Hx).
    rewrite bind_gets. by rewrite find_has_id_none. }
  destruct (getattr (state_of data s) "id") as [|z|str] eqn:Hid.
  - reflexivity.
  - erewrite bind_ok by (by apply Hget). reflexivity.
  - erewrite bind_ok by (by apply Hget). reflexivity.
Qed.

(** Flushing, refreshing and expunging the one pending instance of a
    session: its row is inserted, it comes back as that row. *)
Lemma persist_pending o s :
  owned s = [o] → dirty s = [] → deleted s = [] → gone s = [] →
  key (instance_of o s) = None →
  let params := state_of o s in
  let pk := defaulted params "id" (VInt (uuid_next s)) in
  pk ∉ ids (table s) →
  ∃ row s',
    (flush;; session_refresh o;; session_expunge o;; ret o) s = (Ok o, s')
    ∧ clean s' ∧ table s' = table s ++ [row] ∧ state_of o s' = row
    ∧ getattr row "id" = pk
    ∧ (∀ k, k ≠ "id" → k ≠ "created" → k ≠ "updated" → row !! k = params !! k)
    ∧ (∀ k, getattr params k ≠ VNone → getattr row k = getattr params k).
Proof.
  intros Ho Hd Hdel Hg Hkey params pk Hfree.
  destruct (insert_row_ok params s) as (row & s2 & Hins & Ht2 & Hh2 & Ho2 & Hd2 & Hdel2
                                         & Hg2 & Hn2 & Hdi2 & Hid & Hother & Hgiven).
  { apply existsb_has_id. exact Hfree. }
  exists row.
  pose proof (flush_insert_one s o row s2 Hd Hdel Ho Hkey Hins) as Hflush.
  set (s3 := set_gone _ _) in Hflush.
  assert (Hfind : List.find (has_id pk) (table s3) = Some row).
  { cbn. rewrite Ht2. by apply find_has_id_last. }
  assert (Hkey3 : key (instance_of o s3) = Some pk).
  { unfold instance_of. cbn. rewrite lookup_insert_eq. cbn. f_equal. exact Hid. }
  assert (Ho3 : owned s3 = [o]) by (cbn; by rewrite Ho2).
  assert (Hg3 : gone s3 = []) by (cbn; rewrite Hg2; cbn; by rewrite Hg).
  assert (Hd3 : dirty s3 = []) by done.
  assert (Hdel3 : deleted s3 = []) by done.
  pose proof (refresh_persistent o s3 pk row) as Hrefresh.
  assert (Hidle : flush s3 = (Ok tt, s3)).
  { apply flush_idle; [done|done|]. rewrite Ho3.
    intros x ->%list_elem_of_singleton. by rewrite Hkey3. }
  specialize (Hrefresh Hidle Hkey3).
  specialize (Hrefresh ltac:(rewrite Ho3; apply list_elem_of_here)
                       ltac:(rewrite Hg3; apply not_elem_of_nil) Hfind).
  set (s4 := set_heap _ s3) in Hrefresh.
  eexists. split.
  { erewrite bind_ok by exact Hflush. erewrite bind_ok by exact Hrefresh.
    erewrite bind_ok; [reflexivity|].
    apply session_expunge_owned. change (owned s4) with (owned s3). rewrite Ho3.
    apply list_elem_of_here. }
  unfold clean.
  change (owned (set_owned ?f ?x)) with (f (owned x)).
  cbn [owned dirty deleted gone table set_owned set_dirty set_deleted set_gone].
  change (owned s4) with (owned s3). change (gone s4) with (gone s3).
  change (table s4) with (table s2).
  rewrite Ho3, Hg3, remove_singleton. cbn.
  repeat split; try done.
  unfold state_of, instance_of. cbn. by rewrite lookup_insert_eq.
Qed.

(** [upsert] of an entity whose identifier has no row. *)
Lemma upsert_new data s :
  clean s → primary_key (table s) →
  let given := state_of data s in
  let pk := defaulted given "id" (VInt (uuid_next s)) in
  pk ∉ ids (table s) →
  ∃ row s',
    upsert plain_repository data s = (Ok (next_obj s), s')
    ∧ clean s' ∧ table s' = table s ++ [row] ∧ state_of (next_obj s) s' = row
    ∧ getattr row "id" = pk
    ∧ (∀ k, k ≠ "id" → k ≠ "created" → k ≠ "updated" → row !! k = given !! k)
    ∧ (∀ k, getattr given k ≠ VNone → getattr row k = getattr given k).
Proof.
  intros (Hc1 & Hc2 & Hc3 & Hc4) Hpk given pk Hfree.
  assert (Hid : getattr given "id" ∉ ids (table s)).
  { unfold pk, defaulted in Hfree. destruct (getattr given "id"); [apply Hpk|done|done]. }
  pose proof (merge_new data s Hc1 Hid) as Hmerge. cbn zeta in Hmerge.
  set (tgt := next_obj s) in *. set (s1 := set_owned _ _) in Hmerge.
  assert (Hinst : instance_of tgt s1 = MkInstance given None).
  { unfold s1. change (instance_of tgt (set_owned ?f (set_next_obj ?g ?x)))
      with (instance_of tgt x).
    rewrite instance_of_alloc. by rewrite bool_decide_eq_true_2. }
  destruct (persist_pending tgt s1) as (row & s' & Hrun & H).
  { cbn. by rewrite Hc1. } { done. } { done. } { done. }
  { by rewrite Hinst. }
  { unfold state_of. rewrite Hinst. exact Hfree. }
  unfold state_of in H. rewrite Hinst in H. cbn [attrs] in H.
  exists row, s'. split; [|exact H].
  unfold upsert. apply wrap_ok.
  unfold _attach_to_session. rewrite bool_decide_eq_false_2 by done.
  rewrite bool_decide_eq_true_2 by done.
  erewrite bind_ok by exact Hmerge. exact Hrun.
Qed.

(** X16: [update] of an entity whose identifier no row has raises
    [NotFoundError] and leaves the session as it was; otherwise the
    row takes the values the entity has and keeps the others, its
    [updated] is the time of the flush, and the entity returned is this
    row. *)
Theorem update_merges_into_the_row_or_not_found data s :
  clean s → primary_key (table s) → (data < next_obj s)%nat →
  let given := state_of data s in
  let pk := getattr given "id" in
  (pk ∉ ids (table s) →
   update plain_repository data s
   = (Raise (new_exn NotFoundError "No item found when one was expected"), s))
  ∧ (∀ row, row ∈ table s → getattr row "id" = pk →
     let new := <["updated" := VInt (clock s)]> (given ∪ row) in
     ∃ o s', update plain_repository data s = (Ok o, s')
             ∧ state_of o s' = new
             ∧ table s' = (fun r => if has_id pk r then new else r) <$> table s
             ∧ (∀ k v, k ≠ "updated" → given !! k = Some v → new !! k = Some v)
             ∧ (∀ k, k ≠ "updated" → given !! k = None → new !! k = row !! k)
             ∧ clean s').
Proof.
  intros Hclean Hpk Hlt given pk. split.
  - intros Hfree. unfold update, wrap_sqlalchemy_exception, get_id_attribute_value.
    rewrite bind_gets. change id_attribute with "id". fold given pk.
    erewrite bind_raise by (by apply get_missing). reflexivity.
  - intros row Hin Hid new.
    destruct (update_found data s row Hclean Hpk Hlt Hin Hid)
      as (s' & Hrun & Hclean' & Ht & Hst & _).
    exists (S (next_obj s)), s'. split; [done|]. split; [done|]. split; [done|].
    split; [|split; [|done]].
    + intros k v Hk Hv. unfold new. rewrite lookup_insert_ne by done.
      by apply lookup_union_Some_l.
    + intros k Hk Hv. unfold new. rewrite lookup_insert_ne by done.
      by apply lookup_union_r.
Qed.

Lemma update_merges_into_the_row_or_not_found_witness :
  let s := transient_session (<["id" := VInt 2]> {["name" := VStr "B"]}) in
  ∃ o s', update plain_repository 0%nat s = (Ok o, s')
          ∧ state_of o s'
            = <["id" := VInt 2]> (<["name" := VStr "B"]>
                (<["created" := VInt 20]> (<["updated" := VInt 1000]> ∅)))
          ∧ ids (table s') = [VInt 1; VInt 2; VInt 3].
Proof.
  intros s.
  destruct (proj2 (update_merges_into_the_row_or_not_found 0%nat s
                     (transient_session_clean _) (transient_session_primary_key _)
                     ltac:(vm_compute; lia))
              (sample_row 2 "b" 20))
    as (o & s' & Hrun & Hst & Ht & _).
  - apply list_elem_of_further, list_elem_of_here.
  - vm_compute. reflexivity.
  - exists o, s'. split; [exact Hrun|]. split.
    + rewrite Hst. vm_compute. reflexivity.
    + rewrite Ht. vm_compute. reflexivity.
Defined.

(** X17: [upsert] of an entity whose identifier has a row changes this
    row as [update] does; of an entity whose identifier (its own, or
    the one generated) is free, it appends a row with the values given,
    as [add] does. *)
Theorem upsert_updates_or_inserts data s :
  clean s → primary_key (table s) →
  let given := state_of data s in
  (∀ row, row ∈ table s → getattr row "id" = getattr given "id" →
     let new := <["updated" := VInt (clock s)]> (given ∪ row) in
     ∃ o s', upsert plain_repository data s = (Ok o, s')
             ∧ state_of o s' = new
             ∧ table s'
               = (fun r => if has_id (getattr given "id") r then new else r) <$> table s
             ∧ clean s')
  ∧ (defaulted given "id" (VInt (uuid_next s)) ∉ ids (table s) →
     ∃ o s', upsert plain_repository data s = (Ok o, s')
             ∧ table s' = table s ++ [state_of o s']
             ∧ getattr (state_of o s') "id" = defaulted given "id" (VInt (uuid_next s))
             ∧ (∀ k, getattr given k ≠ VNone → getattr (state_of o s') k = getattr given k)
             ∧ clean s').
Proof.
  intros Hclean Hpk given. split.
  - intros row Hin Hid new.
    destruct (upsert_found data s row Hclean Hpk Hin Hid)
      as (s' & Hrun & Hclean' & Ht & Hst & _).
    by exists (next_obj s), s'.
  - intros Hfree.
    destruct (upsert_new data s Hclean Hpk Hfree)
      as (row & s' & Hrun & Hclean' & Ht & Hst & Hid & _ & Hgiven).
    exists (next_obj s), s'. rewrite Hst.
    split; [done|]. split; [done|]. split; [done|]. split; [exact Hgiven|done].
Qed.

Lemma upsert_updates_or_inserts_witness :
  let s := transient_session {["name" := VStr "z"]} in
  ∃ o s', upsert plain_repository 0%nat s = (Ok o, s')
          ∧ table s' = table s ++ [state_of o s']
          ∧ getattr (state_of o s') "id" = VInt 100
          ∧ getattr (state_of o s') "name" = VStr "z".
Proof.
  intros s.
  destruct (proj2 (upsert_updates_or_inserts 0%nat s
                     (transient_session_clean _) (transient_session_primary_key _)))
    as (o & s' & Hrun & Ht & Hid & Hgiven & _).
  - apply (bool_decide_unpack _). vm_compute. reflexivity.
  - exists o, s'. split; [exact Hrun|]. split; [exact Ht|]. split; [exact Hid|].
    apply Hgiven. vm_compute. discriminate.
Defined.

(** ** Bulk insert *)

Lemma mapM_as_dict data s : mapM as_dict data s = (Ok (record_of s <$> data), s).
Proof.
  induction data as [|v data IH]; [done|]. cbn [mapM fmap list_fmap].
  destruct v as [o|d].
  - unfold as_dict at 1, to_dict. rewrite bind_gets. erewrite bind_ok by exact IH. done.
  - unfold as_dict at 1. rewrite bind_ret. erewrite bind_ok by exact IH. done.
Qed.

Lemma assigned_not_none u data : VNone ∉ assigned u data.
Proof.
  revert u. induction data as [|d data IH]; intros u; simpl; [apply not_elem_of_nil|].
  destruct (getattr d "id") eqn:E; apply not_elem_of_cons; split; try done; apply IH.
Qed.

Lemma assigned_length u data : length (assigned u data) = length data.
Proof.
  revert u. induction data as [|d data IH]; intros u; simpl; [done|].
  destruct (getattr d "id"); simpl; by rewrite IH.
Qed.

Lemma insert_row_uuid params s r s' :
  insert_row params s = (r, s') →
  uuid_next s' = match getattr params "id" with
                 | VNone => Z.succ (uuid_next s)
                 | _ => uuid_next s
                 end.
Proof.
  unfold insert_row, column_default.
  destruct (getattr params "id") eqn:Hid;
    destruct (getattr params "created") eqn:Hcr;
    destruct (getattr params "updated") eqn:Hup;
    unfold bind, uuid4, datetime_now, ret, gets, modify, raise; simpl;
    destruct (existsb _ _); intros [= <- <-]; reflexivity.
Qed.

(** Rows inserted one after the other, each under an identifier that is free. *)
Lemma mapM_insert_row data : ∀ s,
  NoDup (assigned (uuid_next s) data) →
  (∀ pk, pk ∈ assigned (uuid_next s) data → pk ∉ ids (table s)) →
  ∃ rows s',
    mapM insert_row data s = (Ok rows, s')
    ∧ table s' = table s ++ rows ∧ heap s' = heap s ∧ owned s' = owned s
    ∧ dirty s' = dirty s ∧ deleted s' = deleted s ∧ gone s' = gone s
    ∧ next_obj s' = next_obj s ∧ dialect s' = dialect s
    ∧ ids rows = assigned (uuid_next s) data
    ∧ Forall2 keeps_given data rows.
Proof.
  induction data as [|d data IH]; intros s Hnd Hfree.
  - exists [], s. simpl. rewrite app_nil_r. repeat split; try done.
  - assert (Hhead : assigned (uuid_next s) (d :: data)
                    = defaulted d "id" (VInt (uuid_next s))
                      :: assigned (match getattr d "id" with
                                   | VNone => Z.succ (uuid_next s)
                                   | _ => uuid_next s
                                   end) data).
    { simpl. unfold defaulted. by destruct (getattr d "id"). }
    rewrite Hhead in Hnd, Hfree. apply NoDup_cons in Hnd as [Hd Hnd].
    destruct (insert_row_ok d s) as (row & s1 & Hins & Ht1 & Hh1 & Ho1 & Hd1 & Hdel1
                                     & Hg1 & Hn1 & Hdi1 & Hid & _ & Hgiven).
    { apply existsb_has_id. apply Hfree. apply list_elem_of_here. }
    pose proof (insert_row_uuid _ _ _ _ Hins) as Hu1.
    destruct (IH s1) as (rows & s' & Hrun & Ht & Hh & Ho & Hdd & Hdel & Hg & Hn & Hdi
                         & Hids & Hall).
    { by rewrite Hu1. }
    { rewrite Hu1. intros pk Hpk. rewrite Ht1. unfold ids. rewrite fmap_app.
      intros [Hin|Hin]%elem_of_app.
      - by apply (Hfree pk (list_elem_of_further _ _ _ Hpk)).
      - simpl in Hin. apply list_elem_of_singleton in Hin. rewrite Hid in Hin.
        subst. done. }
    exists (row :: rows), s'. split.
    { cbn [mapM]. erewrite bind_ok by exact Hins. erewrite bind_ok by exact Hrun. done. }
    rewrite Ht, Ht1, <- app_assoc. cbn [app].
    repeat split; try congruence.
    + rewrite Hhead. unfold ids in *. cbn [fmap list_fmap]. rewrite Hid, Hids, Hu1. done.
    + constructor; [exact Hgiven|done].
Qed.

Lemma assigned_given u data : VNone ∉ ids data → assigned u data = ids data.
Proof.
  revert u. induction data as [|d data IH]; intros u H; [done|].
  unfold ids in H. cbn [fmap list_fmap] in H. apply not_elem_of_cons in H as [Hd H].
  cbn [assigned]. unfold ids. cbn [fmap list_fmap].
  destruct (getattr d "id") eqn:E; [done| |]; f_equal; by apply IH.
Qed.

Lemma keeps_given_trans d1 d2 d3 :
  keeps_given d1 d2 → keeps_given d2 d3 → keeps_given d1 d3.
Proof.
  intros H12 H23 k Hk. rewrite <- (H12 k Hk). apply H23. by rewrite (H12 k Hk).
Qed.

(** The loop that gives every record an identifier. *)
Lemma ensure_primary_keys_run data : ∀ s,
  ∃ data' s',
    ensure_primary_keys data s = (Ok (data', assigned (uuid_next s) data), s')
    ∧ table s' = table s ∧ heap s' = heap s ∧ owned s' = owned s
    ∧ dirty s' = dirty s ∧ deleted s' = deleted s ∧ gone s' = gone s
    ∧ next_obj s' = next_obj s ∧ dialect s' = dialect s
    ∧ ids data' = assigned (uuid_next s) data
    ∧ Forall2 keeps_given data data'.
Proof.
  induction data as [|d data IH]; intros s.
  - exists [], s. simpl. repeat split; try done.
  - cbn [ensure_primary_keys assigned]. change id_attribute with "id".
    destruct (getattr d "id") as [|z|str] eqn:Hid.
    + destruct (IH (set_uuid_next Z.succ s))
        as (data' & s' & Hrun & Ht & Hh & Ho & Hd & Hdel & Hg & Hn & Hdi & Hids & Hall).
      exists (<["id" := VInt (uuid_next s)]> d :: data'), s'. split.
      { rewrite bind_assoc. unfold uuid4 at 1. unfold bind at 1. rewrite bind_ret.
        erewrite bind_ok by exact Hrun. cbn [ret fst snd].
        by rewrite getattr_insert, bool_decide_eq_true_2. }
      repeat split; try done.
      * unfold ids in *. cbn [fmap list_fmap].
        rewrite getattr_insert, bool_decide_eq_true_2 by done. by rewrite Hids.
      * constructor; [|done]. intros k Hk. rewrite getattr_insert.
        case_bool_decide; [subst; congruence|done].
    + destruct (IH s)
        as (data' & s' & Hrun & Ht & Hh & Ho & Hd & Hdel & Hg & Hn & Hdi & Hids & Hall).
      exists (d :: data'), s'. split.
      { rewrite bind_ret. erewrite bind_ok by exact Hrun. cbn [ret fst snd]. by rewrite Hid. }
      repeat split; try done.
      * unfold ids in *. cbn [fmap list_fmap]. by rewrite Hid, Hids.
      * constructor; [by intros k Hk|done].
    + destruct (IH s)
        as (data' & s' & Hrun & Ht & Hh & Ho & Hd & Hdel & Hg & Hn & Hdi & Hids & Hall).
      exists (d :: data'), s'. split.
      { rewrite bind_ret. erewrite bind_ok by exact Hrun. cbn [ret fst snd]. by rewrite Hid. }
      repeat split; try done.
      * unfold ids in *. cbn [fmap list_fmap]. by rewrite Hid, Hids.
      * constructor; [by intros k Hk|done].
Qed.

Lemma for_insert_row data : ∀ s,
  for_ data (fun params => insert_row params;; ret tt) s
  = (mapM insert_row data;; ret tt) s.
Proof.
  induction data as [|d data IH]; intros s; [done|].
  cbn [for_ mapM]. rewrite !bind_assoc.
  destruct (insert_row d s) as [[row|e] s1] eqn:E.
  - rewrite !(bind_ok _ _ _ _ _ E). rewrite bind_ret, IH, bind_assoc.
    apply bind_ext. intros rows s2. by rewrite bind_ret.
  - by rewrite !(bind_raise _ _ _ _ _ E).
Qed.

Lemma selected_in_new pks t rows :
  pks ≠ [] → (∀ pk, pk ∈ pks → pk ∉ ids t) → ids rows = pks → VNone ∉ pks →
  selected (_filter_in_collection id_attribute pks select_model) (t ++ rows) = rows.
Proof.
  intros Hne Hfree Hids Hnn.
  assert (Hsel : ∀ l, selected (_filter_in_collection id_attribute pks select_model) l
                      = List.filter (holds (In_ id_attribute pks)) l).
  { intros l. destruct pks as [|v vs]; [by destruct Hne|]. apply selected_in_collection. }
  rewrite Hsel, List.filter_app.
  rewrite (filter_all_false _ t); cycle 1.
  { intros r Hr. destruct (decide (getattr r id_attribute = VNone)) as [Hn|Hn].
    - cbn [holds]. by rewrite Hn.
    - rewrite holds_in by done. apply bool_decide_eq_false_2. intros Hin.
      apply (Hfree _ Hin). apply list_elem_of_fmap. by exists r. }
  cbn [app]. apply filter_all_true. intros r Hr.
  assert (Hin : getattr r "id" ∈ pks).
  { rewrite <- Hids. apply list_elem_of_fmap. by exists r. }
  rewrite holds_in; [by apply bool_decide_eq_true_2|].
  intros Hn. apply Hnn. change id_attribute with "id" in Hn. by rewrite <- Hn.
Qed.

Lemma Forall2_keeps_given_trans l1 : ∀ l2 l3,
  Forall2 keeps_given l1 l2 → Forall2 keeps_given l2 l3 → Forall2 keeps_given l1 l3.
Proof.
  induction l1 as [|d1 l1 IH]; intros l2 l3 H12 H23.
  - inversion H12; subst. inversion H23; subst. constructor.
  - inversion H12 as [|? d2 ? l2' Hd12 Hl12]; subst.
    inversion H23 as [|? d3 ? l3' Hd23 Hl23]; subst.
    constructor; [by eapply keeps_given_trans|by eapply IH].
Qed.

Lemma primary_key_app t rows :
  primary_key t → NoDup (ids rows) → VNone ∉ ids rows →
  (∀ pk, pk ∈ ids rows → pk ∉ ids t) → primary_key (t ++ rows).
Proof.
  intros [Hnd Hnn] Hnd' Hnn' Hfree. unfold primary_key, ids in *. rewrite fmap_app. split.
  - apply NoDup_app. split; [done|]. split; [|done].
    intros x Hx Hx'. by apply (Hfree x Hx').
  - intros [?|?]%elem_of_app; done.
Qed.

Lemma parameter_sets_nonempty data : data ≠ [] → parameter_sets data = data.
Proof. by destruct data. Qed.

(** [add_many] where INSERT returns the rows. *)
Lemma add_many_returning data s :
  clean s → insert_executemany_returning (dialect s) = true →
  data ≠ [] →
  let records := record_of s <$> data in
  let pks := assigned (uuid_next s) records in
  NoDup pks → (∀ pk, pk ∈ pks → pk ∉ ids (table s)) →
  ∃ instances s',
    add_many plain_repository data s = (Ok instances, s')
    ∧ table s' = table s ++ states instances s'
    ∧ ids (states instances s') = pks
    ∧ Forall2 keeps_given records (states instances s')
    ∧ clean s'.
Proof.
  intros Hclean Hflag Hne records pks Hnd Hfree.
  assert (Hsets : parameter_sets records = records).
  { apply parameter_sets_nonempty. unfold records. by destruct data. }
  destruct (mapM_insert_row records s Hnd Hfree)
    as (rows & s1 & Hins & Ht1 & Hh1 & Ho1 & Hd1 & Hdel1 & Hg1 & Hn1 & Hdi1 & Hids & Hall).
  destruct Hclean as (Hc1 & Hc2 & Hc3 & Hc4).
  destruct (mapM_load_instance rows s1) as (s2 & Hload & Hsame & Ho2 & Hn2 & Hnew & Hold).
  { by rewrite Hids. }
  { rewrite Ho1, Hc1. intros o Ho. by apply elem_of_nil in Ho. }
  rewrite Ho1, Hc1 in Ho2. cbn [app] in Ho2.
  destruct Hsame as (Ht2 & Hd2 & Hdel2 & Hg2 & Hu2 & Hcl2 & Hdi2).
  destruct (for_session_expunge (seq (next_obj s1) (length rows)) s2)
    as (s3 & Hexp & Ho3 & Hd3 & Hdel3 & Hg3 & Hheap3 & Hn3 & Ht3 & Hu3 & Hcl3 & Hdi3).
  { apply NoDup_seq. }
  { intros o Ho. by rewrite Ho2. }
  assert (Hstates : states (seq (next_obj s1) (length rows)) s3 = rows).
  { apply states_seq. intros i row Hi. rewrite (instance_of_heap _ s2 s3) by done.
    by apply Hnew. }
  exists (seq (next_obj s1) (length rows)), s3. split.
  { unfold add_many. erewrite bind_ok by apply mapM_as_dict. fold records.
    apply wrap_ok. rewrite bind_gets, Hflag.
    unfold session_scalars_insert_returning. rewrite Hsets, !bind_assoc.
    erewrite bind_ok by (by apply flush_clean). rewrite !bind_assoc.
    erewrite bind_ok by exact Hins. erewrite bind_ok by exact Hload.
    erewrite bind_ok by exact Hexp. reflexivity. }
  rewrite Hstates. split; [congruence|]. split; [done|]. split; [done|].
  repeat split.
  - rewrite Ho3, Ho2. by apply without_all.
  - rewrite Hd3, Hd2, Hd1, Hc2. apply without_nil.
  - rewrite Hdel3, Hdel2, Hdel1, Hc3. apply without_nil.
  - rewrite Hg3, Hg2, Hg1, Hc4. apply without_nil.
Qed.

(** [add_many] where INSERT cannot return rows: identifiers first,
    then the bulk insert, then [list] on the identifiers. *)
Lemma add_many_reselect data s :
  clean s → primary_key (table s) → insert_executemany_returning (dialect s) = false →
  data ≠ [] →
  let records := record_of s <$> data in
  let pks := assigned (uuid_next s) records in
  NoDup pks → (∀ pk, pk ∈ pks → pk ∉ ids (table s)) →
  ∃ instances s',
    add_many plain_repository data s = (Ok instances, s')
    ∧ table s' = table s ++ states instances s'
    ∧ ids (states instances s') = pks
    ∧ Forall2 keeps_given records (states instances s')
    ∧ clean s'.
Proof.
  intros Hclean Hpk Hflag Hne records pks Hnd Hfree.
  destruct (ensure_primary_keys_run records s)
    as (data' & su & Hkeys & Htu & Hhu & Hou & Hdu & Hdelu & Hgu & Hnu & Hdiu & Hidsu & Hallu).
  fold pks in Hkeys, Hidsu.
  assert (Hcleanu : clean su).
  { destruct Hclean as (? & ? & ? & ?). repeat split; congruence. }
  assert (Hass : assigned (uuid_next su) data' = pks).
  { rewrite assigned_given; [done|]. rewrite Hidsu. apply assigned_not_none. }
  destruct (mapM_insert_row data' su)
    as (rows & s1 & Hins & Ht1 & Hh1 & Ho1 & Hd1 & Hdel1 & Hg1 & Hn1 & Hdi1 & Hids & Hall).
  { by rewrite Hass. }
  { rewrite Hass, Htu. exact Hfree. }
  rewrite Hass in Hids.
  assert (Hclean1 : clean s1).
  { destruct Hcleanu as (? & ? & ? & ?). repeat split; congruence. }
  assert (Hpk1 : primary_key (table s1)).
  { rewrite Ht1, Htu. apply primary_key_app; [done| | |]; rewrite Hids.
    - done.
    - apply assigned_not_none.
    - exact Hfree. }
  assert (Hpks : pks ≠ []).
  { intros E. apply (f_equal length) in E. unfold pks in E.
    rewrite assigned_length in E. unfold records in E. rewrite length_fmap in E.
    destruct data; [done|simpl in E; lia]. }
  destruct (list_clean plain_repository [CollectionFilter id_attribute pks] ∅ s1
              _ Hclean1 Hpk1 eq_refl)
    as (s2 & Hlist & Hclean2 & Ht2 & _ & _ & _ & _ & Hstates & _).
  rewrite window_filter_in_collection in Hlist, Hstates. rewrite kwargs_empty in Hlist, Hstates.
  assert (Hsel : selected (_filter_in_collection id_attribute pks select_model) (table s1)
                 = rows).
  { rewrite Ht1. apply selected_in_new; [done| |done|apply assigned_not_none].
    rewrite Htu. exact Hfree. }
  change (statement plain_repository) with select_model in Hlist, Hstates.
  rewrite Hsel in Hlist, Hstates.
  exists (seq (next_obj s1) (length rows)), s2. split.
  { unfold add_many. erewrite bind_ok by apply mapM_as_dict. fold records.
    apply wrap_ok. rewrite bind_gets, Hflag.
    erewrite bind_ok by exact Hkeys. cbn [fst snd].
    assert (Hsets : parameter_sets data' = data').
    { apply parameter_sets_nonempty. intros ->. apply Forall2_length in Hallu.
      unfold records in Hallu. rewrite length_fmap in Hallu. by destruct data. }
    unfold session_execute_insert. rewrite Hsets, !bind_assoc.
    erewrite bind_ok by (by apply flush_clean).
    rewrite ?bind_assoc.
    assert (Hfor : for_ data' (fun params => insert_row params;; ret tt) su = (Ok tt, s1)).
    { rewrite for_insert_row. by erewrite bind_ok by exact Hins. }
    erewrite bind_ok by exact Hfor. exact Hlist. }
  rewrite Hstates. split; [congruence|]. split; [done|]. split; [|done].
  by eapply Forall2_keeps_given_trans.
Qed.

(** X18: [add_many] on a non-empty list of records whose identifiers
    (the ones given, the next generated ones for the others) are
    distinct and free appends one row per record, in order, with every
    value the record gives, and returns these rows, on either kind of
    backend. *)
Theorem add_many_inserts_every_record data s :
  clean s → primary_key (table s) → data ≠ [] →
  let records := record_of s <$> data in
  let pks := assigned (uuid_next s) records in
  NoDup pks → (∀ pk, pk ∈ pks → pk ∉ ids (table s)) →
  ∃ instances s',
    add_many plain_repository data s = (Ok instances, s')
    ∧ length instances = length data
    ∧ table s' = table s ++ states instances s'
    ∧ ids (states instances s') = pks
    ∧ Forall2 keeps_given records (states instances s')
    ∧ clean s'.
Proof.
  intros Hclean Hpk Hne records pks Hnd Hfree.
  assert (H : ∃ instances s',
    add_many plain_repository data s = (Ok instances, s')
    ∧ table s' = table s ++ states instances s'
    ∧ ids (states instances s') = pks
    ∧ Forall2 keeps_given records (states instances s')
    ∧ clean s').
  { destruct (insert_executemany_returning (dialect s)) eqn:Hflag.
    - by apply add_many_returning.
    - by apply add_many_reselect. }
  destruct H as (instances & s' & Hrun & Ht & Hids & Hall & Hclean').
  exists instances, s'. split; [done|]. split; [|done].
  apply (f_equal length) in Hids. unfold ids, states, pks in Hids.
  rewrite !length_fmap, assigned_length in Hids. unfold records in Hids.
  by rewrite length_fmap in Hids.
Qed.

Lemma add_many_inserts_every_record_witness :
  let data : list (nat + dict) :=
    [inr {["name" := VStr "x"]}; inr (<["id" := VInt 7]> {["name" := VStr "y"]})] in
  ∃ instances s',
    add_many plain_repository data (sample_session false) = (Ok instances, s')
    ∧ length instances = 2%nat
    ∧ table s' = table (sample_session false) ++ states instances s'
    ∧ ids (states instances s') = [VInt 100; VInt 7].
Proof.
  intros data.
  destruct (add_many_inserts_every_record data (sample_session false)
              (sample_session_clean false) (sample_session_primary_key false))
    as (instances & s' & Hrun & Hlen & Ht & Hids & _).
  - done.
  - apply (bool_decide_unpack _). vm_compute. reflexivity.
  - apply Forall_forall. apply (bool_decide_unpack _). vm_compute. reflexivity.
  - exists instances, s'. split; [exact Hrun|]. split; [exact Hlen|]. split; [exact Ht|].
    rewrite Hids. vm_compute. reflexivity.
Defined.

(** ** Bulk update *)

Lemma find_has_id_exists pk t :
  pk ∈ ids t → ∃ row, List.find (has_id pk) t = Some row ∧ row ∈ t ∧ getattr row "id" = pk.
Proof.
  intros Hin. destruct (List.find (has_id pk) t) as [row|] eqn:E.
  - exists row. split; [done|]. apply find_some in E as [Hr Hid].
    split; [by apply list_elem_of_In|]. by apply bool_decide_eq_true in Hid.
  - exfalso. apply list_elem_of_fmap in Hin as (r & -> & Hr).
    rewrite find_none_iff in E. specialize (E r Hr). unfold has_id in E.
    by apply bool_decide_eq_false in E.
Qed.

Lemma update_row_ok params s row :
  getattr params "id" ≠ VNone →
  List.find (has_id (getattr params "id")) (table s) = Some row →
  update_row params s = (Ok (params ∪ row), set_table (updated_by params) s).
Proof.
  intros Hnn Hfind. unfold update_row.
  destruct (getattr params "id") as [|z|str] eqn:Hid; [done| |];
    rewrite bind_gets, Hfind, bind_modify; unfold updated_by; by rewrite Hid.
Qed.

Lemma ids_updated_by params t :
  getattr params "id" ≠ VNone → ids (updated_by params t) = ids t.
Proof.
  intros Hnn. unfold ids, updated_by. induction t as [|r t IH]; [done|].
  cbn [List.map fmap list_fmap]. f_equal; [|exact IH].
  destruct (has_id _ r) eqn:E; [|done].
  rewrite getattr_union_l by done. unfold has_id in E. by apply bool_decide_eq_true in E.
Qed.

Lemma ids_updated_with data : ∀ t, VNone ∉ ids data → ids (updated_with data t) = ids t.
Proof.
  induction data as [|d data IH]; intros t H; [done|].
  unfold ids in H. cbn [fmap list_fmap] in H. apply not_elem_of_cons in H as [Hd H].
  cbn [updated_with foldl]. fold (updated_with data (updated_by d t)).
  rewrite IH by done. by apply ids_updated_by.
Qed.

Lemma elem_updated_by_other params t row :
  row ∈ t → getattr row "id" ≠ getattr params "id" → row ∈ updated_by params t.
Proof.
  intros Hin Hne. unfold updated_by. apply list_elem_of_In, in_map_iff.
  exists row. split; [|by apply list_elem_of_In].
  unfold has_id. by rewrite bool_decide_eq_false_2.
Qed.

Lemma elem_updated_by_same params t row :
  row ∈ t → getattr row "id" = getattr params "id" → params ∪ row ∈ updated_by params t.
Proof.
  intros Hin He. unfold updated_by. apply list_elem_of_In, in_map_iff.
  exists row. split; [|by apply list_elem_of_In].
  unfold has_id. by rewrite bool_decide_eq_true_2.
Qed.

Lemma elem_updated_with_other data : ∀ t row,
  row ∈ t → getattr row "id" ∉ ids data → row ∈ updated_with data t.
Proof.
  induction data as [|d data IH]; intros t row Hin Hne; [done|].
  unfold ids in Hne. cbn [fmap list_fmap] in Hne. apply not_elem_of_cons in Hne as [Hd Hne].
  cbn [updated_with foldl]. apply IH; [|done]. by apply elem_updated_by_other.
Qed.

Lemma elem_updated_with_same data : ∀ t params row,
  NoDup (ids data) → VNone ∉ ids data → params ∈ data → row ∈ t →
  getattr row "id" = getattr params "id" → params ∪ row ∈ updated_with data t.
Proof.
  induction data as [|d data IH]; intros t params row Hnd Hnn Hp Hin He.
  { by apply elem_of_nil in Hp. }
  unfold ids in Hnd, Hnn. cbn [fmap list_fmap] in Hnd, Hnn.
  apply NoDup_cons in Hnd as [Hd Hnd]. apply not_elem_of_cons in Hnn as [Hdn Hnn].
  cbn [updated_with foldl]. apply elem_of_cons in Hp as [->|Hp].
  - apply elem_updated_with_other; [by apply elem_updated_by_same|].
    by rewrite getattr_union_l.
  - apply IH; try done. apply elem_updated_by_other; [done|].
    intros E. apply Hd. rewrite <- E, He. apply list_elem_of_fmap. by exists params.
Qed.

(** Rows updated one after the other, each by its identifier. *)
Lemma mapM_update_row data : ∀ s,
  NoDup (ids data) → VNone ∉ ids data → (∀ pk, pk ∈ ids data → pk ∈ ids (table s)) →
  ∃ rows s',
    mapM update_row data s = (Ok rows, s')
    ∧ table s' = updated_with data (table s) ∧ heap s' = heap s ∧ owned s' = owned s
    ∧ dirty s' = dirty s ∧ deleted s' = deleted s ∧ gone s' = gone s
    ∧ next_obj s' = next_obj s ∧ dialect s' = dialect s
    ∧ clock s' = clock s ∧ uuid_next s' = uuid_next s
    ∧ ids rows = ids data
    ∧ (∀ row, row ∈ rows → row ∈ table s').
Proof.
  induction data as [|d data IH]; intros s Hnd Hnn Hin.
  - exists [], s. simpl. repeat split; try done. intros row Hr. by apply elem_of_nil in Hr.
  - unfold ids in Hnd, Hnn, Hin. cbn [fmap list_fmap] in Hnd, Hnn, Hin.
    apply NoDup_cons in Hnd as [Hd Hnd]. apply not_elem_of_cons in Hnn as [Hdn Hnn].
    destruct (find_has_id_exists (getattr d "id") (table s)) as (r & Hfind & Hr & Hrid).
    { apply Hin, list_elem_of_here. }
    pose proof (update_row_ok d s r ltac:(done) Hfind) as Hup.
    destruct (IH (set_table (updated_by d) s) Hnd Hnn)
      as (rows & s' & Hrun & Ht & Hh & Ho & Hdd & Hdel & Hg & Hn & Hdi & Hc & Hu & Hids & Hmem).
    { intros pk Hpk. cbn [table set_table]. rewrite ids_updated_by by done.
      apply Hin. by apply list_elem_of_further. }
    exists ((d ∪ r) :: rows), s'. split.
    { cbn [mapM]. erewrite bind_ok by exact Hup. erewrite bind_ok by exact Hrun. done. }
    split; [exact Ht|]. do 9 (split; [done|]). split.
    + unfold ids in *. cbn [fmap list_fmap]. rewrite Hids. f_equal.
      by rewrite getattr_union_l.
    + intros row [->|Hrow]%elem_of_cons; [|by apply Hmem].
      rewrite Ht. cbn [table set_table].
      apply elem_updated_with_other; [by apply elem_updated_by_same|].
      by rewrite getattr_union_l.
Qed.

Lemma for_update_row data : ∀ s,
  for_ data (fun params => update_row params;; ret tt) s
  = (mapM update_row data;; ret tt) s.
Proof.
  induction data as [|d data IH]; intros s; [done|].
  cbn [for_ mapM]. rewrite !bind_assoc.
  destruct (update_row d s) as [[row|e] s1] eqn:E.
  - rewrite !(bind_ok _ _ _ _ _ E). rewrite bind_ret, IH, bind_assoc.
    apply bind_ext. intros rows s2. by rewrite bind_ret.
  - by rewrite !(bind_raise _ _ _ _ _ E).
Qed.

Lemma ids_filter_holds_in pks t :
  primary_key t → NoDup pks → (∀ pk, pk ∈ pks → pk ∈ ids t) →
  ids (List.filter (holds (In_ id_attribute pks)) t) ≡ₚ pks.
Proof.
  intros Hpk Hnd Hin. apply NoDup_Permutation; [|done|].
  - apply (primary_key_sublist t); [apply sublist_List_filter|done].
  - intros x. split.
    + intros (r & -> & Hr)%list_elem_of_fmap.
      apply list_elem_of_In, filter_In in Hr as [Hr Hh].
      assert (Hnn : getattr r id_attribute ≠ VNone).
      { intros E. apply Hpk. change id_attribute with "id" in E. rewrite <- E.
        apply list_elem_of_fmap. exists r. split; [done|]. by apply list_elem_of_In. }
      rewrite holds_in in Hh by done. by apply bool_decide_eq_true in Hh.
    + intros Hx. pose proof (Hin x Hx) as Hxt.
      apply list_elem_of_fmap in Hxt as (r & -> & Hr).
      apply list_elem_of_fmap. exists r. split; [done|].
      apply list_elem_of_In, filter_In. split; [by apply list_elem_of_In|].
      rewrite holds_in; [by apply bool_decide_eq_true_2|].
      intros E. apply Hpk. change id_attribute with "id" in E. rewrite <- E.
      apply list_elem_of_fmap. by exists r.
Qed.

Lemma update_many_reselect data s :
  clean s → primary_key (table s) → update_executemany_returning (dialect s) = false →
  data ≠ [] →
  let records := record_of s <$> data in
  NoDup (ids records) → (∀ pk, pk ∈ ids records → pk ∈ ids (table s)) →
  ∃ instances s',
    update_many plain_repository data s = (Ok instances, s')
    ∧ table s' = updated_with records (table s)
    ∧ ids (states instances s') ≡ₚ ids records
    ∧ (∀ row, row ∈ states instances s' → row ∈ table s')
    ∧ clock s' = clock s
    ∧ clean s'.
Proof.
  intros Hclean Hpk Hflag Hne records Hnd Hin.
  assert (Hnn : VNone ∉ ids records).
  { intros H. by apply Hpk, Hin. }
  destruct (mapM_update_row records s Hnd Hnn Hin)
    as (rows & s1 & Hup & Ht1 & Hh1 & Ho1 & Hd1 & Hdel1 & Hg1 & Hn1 & Hdi1 & Hc1 & Hu1
        & Hids & Hmem).
  assert (Hclean1 : clean s1).
  { destruct Hclean as (? & ? & ? & ?). repeat split; congruence. }
  assert (Hids1 : ids (table s1) = ids (table s)).
  { rewrite Ht1. by apply ids_updated_with. }
  assert (Hpk1 : primary_key (table s1)).
  { unfold primary_key. by rewrite Hids1. }
  assert (Hpks : ids records ≠ []).
  { intros E. apply (f_equal length) in E. unfold ids, records in E.
    rewrite !length_fmap in E. destruct data; [done|simpl in E; lia]. }
  destruct (list_clean plain_repository [CollectionFilter "id" (ids records)] ∅ s1
              _ Hclean1 Hpk1 eq_refl)
    as (s2 & Hlist & Hclean2 & Ht2 & _ & Hc2 & _ & _ & Hstates & _).
  change "id" with id_attribute in Hlist, Hstates.
  rewrite window_filter_in_collection in Hlist, Hstates. rewrite kwargs_empty in Hlist, Hstates.
  change (statement plain_repository) with select_model in Hlist, Hstates.
  assert (Hsel : selected (_filter_in_collection id_attribute (ids records) select_model)
                   (table s1)
                 = List.filter (holds (In_ id_attribute (ids records))) (table s1)).
  { destruct (ids records) as [|v vs]; [done|]. apply selected_in_collection. }
  rewrite Hsel in Hlist, Hstates.
  eexists _, s2. split.
  { unfold update_many. erewrite bind_ok by apply mapM_as_dict. fold records.
    apply wrap_ok. rewrite bind_gets, Hflag.
    unfold session_execute_update. rewrite !bind_assoc.
    erewrite bind_ok by (by apply flush_clean). rewrite ?bind_assoc.
    assert (Hfor : for_ records (fun params => update_row params;; ret tt) s = (Ok tt, s1)).
    { rewrite for_update_row. by erewrite bind_ok by exact Hup. }
    erewrite bind_ok by exact Hfor.
    erewrite bind_ok by (by apply flush_clean).
    exact Hlist. }
  rewrite Hstates. split; [congruence|]. split.
  { apply ids_filter_holds_in; [done|done|]. by rewrite Hids1. }
  split.
  { intros row Hrow. rewrite Ht2. apply list_elem_of_In, filter_In in Hrow as [Hrow _].
    by apply list_elem_of_In. }
  split; [congruence|done].
Qed.

(** X19: where UPDATE cannot return rows, [update_many] on a non-empty
    list of records with distinct identifiers of existing entities:
    each identified row takes the values of its record and keeps its
    other values, the other rows and the identifiers stay, the entities
    returned are the updated rows, and the clock is not read:
    [updated] is not stamped. *)
Theorem update_many_updates_the_identified_rows data s :
  clean s → primary_key (table s) →
  update_executemany_returning (dialect s) = false → data ≠ [] →
  let records := record_of s <$> data in
  NoDup (ids records) → (∀ pk, pk ∈ ids records → pk ∈ ids (table s)) →
  ∃ instances s',
    update_many plain_repository data s = (Ok instances, s')
    ∧ table s' = updated_with records (table s)
    ∧ ids (table s') = ids (table s)
    ∧ (∀ params row, params ∈ records → row ∈ table s →
         getattr row "id" = getattr params "id" → params ∪ row ∈ table s')
    ∧ (∀ row, row ∈ table s → getattr row "id" ∉ ids records → row ∈ table s')
    ∧ ids (states instances s') ≡ₚ ids records
    ∧ (∀ row, row ∈ states instances s' → row ∈ table s')
    ∧ clock s' = clock s
    ∧ clean s'.
Proof.
  intros Hclean Hpk Hflag Hne records Hnd Hin.
  assert (Hnn : VNone ∉ ids records).
  { intros H. by apply Hpk, Hin. }
  destruct (update_many_reselect data s Hclean Hpk Hflag Hne Hnd Hin)
    as (instances & s' & Hrun & Ht & Hperm & Hmem & Hc & Hclean').
  exists instances, s'. split; [done|]. split; [done|]. rewrite Ht.
  split; [by apply ids_updated_with|].
  split. { intros params row Hp Hr He. by apply elem_updated_with_same. }
  split. { intros row Hr Hne'. by apply elem_updated_with_other. }
  split; [done|]. split; [|done].
  intros row Hrow. rewrite <- Ht. by apply Hmem.
Qed.

Lemma update_many_updates_the_identified_rows_witness :
  let data : list (nat + dict) :=
    [inr (<["id" := VInt 3]> {["name" := VStr "C"]});
     inr (<["id" := VInt 1]> {["name" := VStr "A"]})] in
  ∃ instances s',
    update_many plain_repository data (sample_session false) = (Ok instances, s')
    ∧ ids (table s') = [VInt 1; VInt 2; VInt 3]
    ∧ sample_row 2 "b" 20 ∈ table s'
    ∧ clock s' = 1000.
Proof.
  intros data.
  destruct (update_many_updates_the_identified_rows data (sample_session false)
              (sample_session_clean false) (sample_session_primary_key false) eq_refl)
    as (instances & s' & Hrun & _ & Hids & _ & Hother & _ & _ & Hc & _).
  - done.
  - apply (bool_decide_unpack _). vm_compute. reflexivity.
  - apply Forall_forall. apply (bool_decide_unpack _). vm_compute. reflexivity.
  - exists instances, s'. split; [exact Hrun|]. split; [|split; [|exact Hc]].
    + rewrite Hids. vm_compute. reflexivity.
    + apply Hother.
      * apply list_elem_of_further, list_elem_of_here.
      * apply (bool_decide_unpack _). vm_compute. reflexivity.
Defined.

(** ** The [before_flush] hook *)

Lemma stamp_loop l : ∀ s,
  ∃ s',
    for_ l (fun instance => now ← datetime_now; setattr instance "updated" now) s = (Ok tt, s')
    ∧ table s' = table s ∧ owned s' = owned s ∧ dirty s' = dirty s
    ∧ deleted s' = deleted s ∧ gone s' = gone s ∧ uuid_next s' = uuid_next s
    ∧ next_obj s' = next_obj s ∧ dialect s' = dialect s
    ∧ clock s' = clock s + Z.of_nat (length l)
    ∧ (∀ o, o ∉ l → instance_of o s' = instance_of o s)
    ∧ (∀ o, o ∈ l →
         key (instance_of o s') = key (instance_of o s)
         ∧ (∃ t, clock s ≤ t < clock s' ∧ state_of o s' !! "updated" = Some (VInt t))
         ∧ ∀ k, k ≠ "updated" → state_of o s' !! k = state_of o s !! k).
Proof.
  induction l as [|x l IH]; intros s.
  - exists s. simpl. rewrite Z.add_0_r.
    do 11 (split; [done|]). intros o Ho. by apply elem_of_nil in Ho.
  - set (s1 := set_heap (fun h => <[x := MkInstance (<["updated" := VInt (clock s)]> (state_of x s))
                                                   (key (instance_of x s))]> h)
                 (set_clock Z.succ s)).
    destruct (IH s1) as (s' & Hrun & Ht & Ho & Hd & Hdel & Hg & Hu & Hn & Hdi & Hc & Hout & Hin).
    exists s'. split.
    { cbn [for_]. erewrite bind_ok by reflexivity. exact Hrun. }
    change (clock s1) with (Z.succ (clock s)) in Hc.
    split; [done|]. split; [done|]. split; [done|]. split; [done|]. split; [done|].
    split; [done|]. split; [done|]. split; [done|].
    split. { rewrite Hc. cbn [length]. lia. }
    assert (Hx1 : ∀ o, instance_of o s1
                       = if bool_decide (o = x)
                         then MkInstance (<["updated" := VInt (clock s)]> (state_of x s))
                                         (key (instance_of x s))
                         else instance_of o s).
    { intros o. unfold s1. by rewrite instance_of_alloc. }
    split.
    + intros o Hnot. apply not_elem_of_cons in Hnot as [Hne Hnot].
      rewrite (Hout o Hnot), Hx1. by rewrite bool_decide_eq_false_2.
    + intros o Hmem. destruct (decide (o ∈ l)) as [Hl|Hl].
      * destruct (Hin o Hl) as (Hk & (t & Ht' & Hup) & Hrest).
        change (clock s1) with (Z.succ (clock s)) in Ht'.
        split; [|split].
        -- rewrite Hk, Hx1. case_bool_decide; by subst.
        -- exists t. split; [lia|done].
        -- intros k Hkne. rewrite (Hrest k Hkne). unfold state_of. rewrite Hx1.
           case_bool_decide; [|done]. subst. cbn [attrs]. by rewrite lookup_insert_ne.
      * apply elem_of_cons in Hmem as [->|Hmem]; [|done].
        rewrite (Hout x Hl). unfold state_of. rewrite (Hout x Hl), Hx1.
        rewrite bool_decide_eq_true_2 by done. cbn [key attrs].
        split; [done|]. split.
        -- exists (clock s). split; [lia|]. by rewrite lookup_insert_eq.
        -- intros k Hkne. by rewrite lookup_insert_ne.
Qed.

(** X20: the [before_flush] hook always returns; it gives every
    modified instance an [updated] taken from the clock during the
    hook and changes nothing else: not the other attributes or the
    identity of these instances, no other instance, not the table. *)
Theorem touch_updated_timestamp_stamps_dirty_only s :
  ∃ s',
    touch_updated_timestamp s = (Ok tt, s')
    ∧ table s' = table s ∧ owned s' = owned s ∧ dirty s' = dirty s
    ∧ deleted s' = deleted s
    ∧ clock s' = clock s + Z.of_nat (length (dirty s))
    ∧ (∀ o, o ∉ dirty s → instance_of o s' = instance_of o s)
    ∧ (∀ o, o ∈ dirty s →
         key (instance_of o s') = key (instance_of o s)
         ∧ (∃ t, clock s ≤ t < clock s' ∧ state_of o s' !! "updated" = Some (VInt t))
         ∧ ∀ k, k ≠ "updated" → state_of o s' !! k = state_of o s !! k).
Proof.
  destruct (stamp_loop (dirty s) s)
    as (s' & Hrun & Ht & Ho & Hd & Hdel & _ & _ & _ & _ & Hc & Hout & Hin).
  exists s'. split; [|done].
  unfold touch_updated_timestamp. rewrite bind_gets. exact Hrun.
Qed.

(** * Properties of the worker *)

(** X21: a heartbeat is enabled when the job has a positive time limit
    and a positive heartbeat limit, so a job without time limit
    ([timeout = 0]) has none.  When enabled, the interval is 1 or 5
    seconds, positive and at most the job's heartbeat limit; when not,
    the interval is 0 and the publishing loop ends at once.  Once
    stopped, the loop ends at once. *)
Theorem heartbeat_interval_within_limit (job : worker.Job) :
  let hb := worker.PeriodicHeartbeat.__init__ job in
  worker.PeriodicHeartbeat.heartbeat_enabled hb
  = bool_decide (0 < worker.timeout job ∧ 0 < worker.heartbeat job)
  ∧ (if worker.PeriodicHeartbeat.heartbeat_enabled hb
     then 0 < worker.PeriodicHeartbeat.heartbeat hb ≤ worker.heartbeat job
          ∧ (worker.PeriodicHeartbeat.heartbeat hb = 1
             ∨ worker.PeriodicHeartbeat.heartbeat hb = 5)
     else worker.PeriodicHeartbeat.heartbeat hb = 0
          ∧ worker.PeriodicHeartbeat._periodically_publish_step hb = None)
  ∧ worker.PeriodicHeartbeat._periodically_publish_step
      (worker.PeriodicHeartbeat.stop hb) = None.
Proof.
  unfold worker.PeriodicHeartbeat.__init__, worker.truthy, worker.TEN. cbn.
  destruct (Z.eqb_spec (worker.timeout job) 0), (Z.ltb_spec 0 (worker.timeout job)),
    (Z.eqb_spec (worker.heartbeat job) 0), (Z.ltb_spec 0 (worker.heartbeat job));
    cbn; try (split; [by rewrite bool_decide_eq_false_2 by lia|done]).
  split; [by rewrite bool_decide_eq_true_2 by lia|]. split; [|done].
  destruct (Z.leb_spec (worker.heartbeat job) 10); cbn.
  - split; [lia|by left].
  - destruct (Z.ltb_spec 10 (worker.heartbeat job)); [|lia]. split; [lia|by right].
Qed.

Lemma append_inj_l (p x y : string) : p +:+ x = p +:+ y → x = y.
Proof. induction p as [|c p IH]; simpl; [done|]. intros [= H]. by apply IH. Qed.

Lemma no_colon_cons c s : no_colon (String c s) ↔ c ≠ ":"%char ∧ no_colon s.
Proof.
  unfold no_colon. simpl. rewrite not_elem_of_cons. split; intros [? ?]; split; congruence.
Qed.

Lemma colon_split (a b x y : string) :
  no_colon a → no_colon b → a +:+ ":" +:+ x = b +:+ ":" +:+ y → a = b ∧ x = y.
Proof.
  revert b. induction a as [|c a IH]; intros b Ha Hb H.
  - destruct b as [|d b]; simpl in H.
    + injection H as Hxy. by subst.
    + injection H as <- _. apply no_colon_cons in Hb as [Hb _]. done.
  - destruct b as [|d b]; simpl in H.
    + injection H as -> _. apply no_colon_cons in Ha as [Ha _]. done.
    + injection H as -> H. apply no_colon_cons in Ha as [_ Ha].
      apply no_colon_cons in Hb as [_ Hb]. destruct (IH b Ha Hb H) as [-> ->]. done.
Qed.

(** X22: the namespaced key determines the application, the queue and
    the key, when the application's slug and the queues' names have no
    colon: two queues never share a key. *)
Theorem namespace_separates_applications_and_queues
    (slug1 slug2 : string) (q1 q2 : worker.Queue) (key1 key2 : string) :
  no_colon slug1 → no_colon slug2 → no_colon (worker.name q1) → no_colon (worker.name q2) →
  worker.namespace slug1 q1 key1 = worker.namespace slug2 q2 key2 →
  slug1 = slug2 ∧ worker.name q1 = worker.name q2 ∧ key1 = key2.
Proof.
  intros Hs1 Hs2 Hn1 Hn2 H. unfold worker.namespace in H.
  apply colon_split in H as [-> H]; [|done|done].
  apply colon_split in H as [-> ->]; done.
Qed.

Lemma namespace_separates_applications_and_queues_witness :
  "app" = "app"
  ∧ worker.name (worker.Queue__init__ None) = worker.name (worker.Queue__init__ None)
  ∧ "job:1" = "job:1".
Proof.
  apply (namespace_separates_applications_and_queues "app" "app"
           (worker.Queue__init__ None) (worker.Queue__init__ None) "job:1" "job:1").
  - apply (bool_decide_unpack _). vm_compute. reflexivity.
  - apply (bool_decide_unpack _). vm_compute. reflexivity.
  - apply (bool_decide_unpack _). vm_compute. reflexivity.
  - apply (bool_decide_unpack _). vm_compute. reflexivity.
  - reflexivity.
Defined.

(** * Properties of the startup handlers *)

Import lifespan.

Lemma db_ready_loop_waits db n : ∀ w turns,
  (∀ i, (i < n)%nat → db (db_attempts w + i)%nat ≠ None) → (turns ≤ n)%nat →
  ∃ w', _db_ready_loop db turns w = Waiting w'
        ∧ db_attempts w' = (db_attempts w + turns)%nat
        ∧ redis_attempts w' = redis_attempts w
        ∧ slept w' = slept w + 5 * Z.of_nat turns.
Proof.
  induction n as [|n IH]; intros w turns Hfail Hle.
  - assert (turns = 0%nat) as -> by lia. exists w. simpl.
    repeat split; try done; lia.
  - destruct turns as [|turns].
    { exists w. simpl. repeat split; try done; lia. }
    simpl. pose proof (Hfail 0%nat ltac:(lia)) as H0. rewrite Nat.add_0_r in H0.
    destruct (db (db_attempts w)) as [exc|]; [|done].
    edestruct (IH (asyncio_sleep 5 (logger_info ("Waiting for DB: " +:+ exc)
                 (MkWorld (S (db_attempts w)) (redis_attempts w) (slept w) (log w)))) turns)
      as (w' & -> & Ha & Hr & Hs).
    { intros i Hi. simpl. specialize (Hfail (S i) ltac:(lia)).
      by replace (S (db_attempts w + i)) with (db_attempts w + S i)%nat by lia. }
    { lia. }
    exists w'. cbn [db_attempts redis_attempts slept log asyncio_sleep logger_info] in *.
    repeat split; try done; lia.
Qed.

Lemma db_ready_loop_returns db n : ∀ w turns,
  (∀ i, (i < n)%nat → db (db_attempts w + i)%nat ≠ None) →
  db (db_attempts w + n)%nat = None → (n < turns)%nat →
  ∃ w' lines, _db_ready_loop db turns w = Returned w'
        ∧ db_attempts w' = (db_attempts w + S n)%nat
        ∧ redis_attempts w' = redis_attempts w
        ∧ slept w' = slept w + 5 * Z.of_nat n
        ∧ log w' = log w ++ lines ++ ["DB OK!"] ∧ length lines = n.
Proof.
  induction n as [|n IH]; intros w turns Hfail Hok Hlt.
  - destruct turns as [|turns]; [lia|]. simpl. rewrite Nat.add_0_r in Hok. rewrite Hok.
    eexists _, []. split; [reflexivity|]. simpl. repeat split; try done; lia.
  - destruct turns as [|turns]; [lia|]. simpl.
    pose proof (Hfail 0%nat ltac:(lia)) as H0. rewrite Nat.add_0_r in H0.
    destruct (db (db_attempts w)) as [exc|]; [|done].
    edestruct (IH (asyncio_sleep 5 (logger_info ("Waiting for DB: " +:+ exc)
                 (MkWorld (S (db_attempts w)) (redis_attempts w) (slept w) (log w)))) turns)
      as (w' & lines & -> & Ha & Hr & Hs & Hl & Hn).
    { intros i Hi. simpl. specialize (Hfail (S i) ltac:(lia)).
      by replace (S (db_attempts w + i)) with (db_attempts w + S i)%nat by lia. }
    { simpl. by replace (S (db_attempts w + n)) with (db_attempts w + S n)%nat by lia. }
    { lia. }
    exists w', (("Waiting for DB: " +:+ exc) :: lines).
    cbn [db_attempts redis_attempts slept log asyncio_sleep logger_info length] in *.
    repeat split; try done; try lia. by rewrite Hl, <- app_assoc.
Qed.

Lemma redis_ready_loop_returns redis n : ∀ w turns,
  (∀ i, (i < n)%nat → redis (redis_attempts w + i)%nat ≠ None) →
  redis (redis_attempts w + n)%nat = None → (n < turns)%nat →
  ∃ w' lines, _redis_ready_loop redis turns w = Returned w'
        ∧ db_attempts w' = db_attempts w
        ∧ redis_attempts w' = (redis_attempts w + S n)%nat
        ∧ slept w' = slept w + 5 * Z.of_nat n
        ∧ log w' = log w ++ lines ++ ["Redis OK!"] ∧ length lines = n.
Proof.
  induction n as [|n IH]; intros w turns Hfail Hok Hlt.
  - destruct turns as [|turns]; [lia|]. simpl. rewrite Nat.add_0_r in Hok. rewrite Hok.
    eexists _, []. split; [reflexivity|]. simpl. repeat split; try done; lia.
  - destruct turns as [|turns]; [lia|]. simpl.
    pose proof (Hfail 0%nat ltac:(lia)) as H0. rewrite Nat.add_0_r in H0.
    destruct (redis (redis_attempts w)) as [exc|]; [|done].
    edestruct (IH (asyncio_sleep 5 (logger_info ("Waiting  for Redis: " +:+ exc)
                 (MkWorld (db_attempts w) (S (redis_attempts w)) (slept w) (log w)))) turns)
      as (w' & lines & -> & Ha & Hr & Hs & Hl & Hn).
    { intros i Hi. simpl. specialize (Hfail (S i) ltac:(lia)).
      by replace (S (redis_attempts w + i)) with (redis_attempts w + S i)%nat by lia. }
    { simpl. by replace (S (redis_attempts w + n)) with (redis_attempts w + S n)%nat by lia. }
    { lia. }
    exists w', (("Waiting  for Redis: " +:+ exc) :: lines).
    cbn [db_attempts redis_attempts slept log asyncio_sleep logger_info length] in *.
    repeat split; try done; try lia. by rewrite Hl, <- app_assoc.
Qed.

(** X23: with both checks on, the startup handler returns once the
    database and then Redis have responded: after [n] failed attempts
    on the database and [m] on Redis it has slept 5 seconds for each of
    them and made one more attempt on each. *)
Theorem startup_returns_when_database_and_redis_respond
    (db redis : nat → option string) (w : World) (n m turns : nat) :
  (∀ i, (i < n)%nat → db (db_attempts w + i)%nat ≠ None) →
  db (db_attempts w + n)%nat = None →
  (∀ i, (i < m)%nat → redis (redis_attempts w + i)%nat ≠ None) →
  redis (redis_attempts w + m)%nat = None →
  (n < turns)%nat → (m < turns)%nat →
  ∃ w' waits waits',
    before_startup_handler true true true true db redis turns w = Returned w'
    ∧ db_attempts w' = (db_attempts w + S n)%nat
    ∧ redis_attempts w' = (redis_attempts w + S m)%nat
    ∧ slept w' = slept w + 5 * Z.of_nat (n + m)
    ∧ log w' = log w ++ waits ++ ["DB OK!"] ++ waits' ++ ["Redis OK!"]
    ∧ length waits = n ∧ length waits' = m.
Proof.
  intros Hdb Hdb_ok Hredis Hredis_ok Hn Hm.
  destruct (db_ready_loop_returns db n w turns Hdb Hdb_ok Hn)
    as (w1 & waits & Hrun1 & Ha1 & Hr1 & Hs1 & Hl1 & Hw1).
  destruct (redis_ready_loop_returns redis m w1 turns)
    as (w2 & waits' & Hrun2 & Ha2 & Hr2 & Hs2 & Hl2 & Hw2).
  { by rewrite Hr1. } { by rewrite Hr1. } { done. }
  exists w2, waits, waits'. split.
  { unfold before_startup_handler, _db_ready, _redis_ready. by rewrite Hrun1. }
  rewrite Ha2, Hr2, Hs2, Hl2, Ha1, Hr1, Hs1, Hl1.
  repeat split; try done; try lia. by rewrite <- !app_assoc.
Qed.

Lemma startup_returns_when_database_and_redis_respond_witness :
  ∃ w' waits waits',
    lifespan.before_startup_handler true true true true
      (fun i => if (i <? 2)%nat then Some "connection refused" else None) (fun _ => None)
      3 (lifespan.MkWorld 0 0 0 [])
    = lifespan.Returned w'
    ∧ lifespan.db_attempts w' = 3%nat
    ∧ lifespan.redis_attempts w' = 1%nat
    ∧ lifespan.slept w' = 10
    ∧ lifespan.log w' = [] ++ waits ++ ["DB OK!"] ++ waits' ++ ["Redis OK!"]
    ∧ length waits = 2%nat ∧ length waits' = 0%nat.
Proof.
  apply (startup_returns_when_database_and_redis_respond
           (fun i => if (i <? 2)%nat then Some "connection refused" else None) (fun _ => None)
           (lifespan.MkWorld 0 0 0 []) 2 0 3).
  - intros i Hi. destruct i as [|[|i]]; [done|done|lia].
  - reflexivity.
  - intros i Hi. lia.
  - reflexivity.
  - lia.
  - lia.
Defined.

(** X24: while the database does not respond the startup handler does
    not return, whatever the number of turns, sleeping 5 seconds a
    turn, and Redis is not tried. *)
Theorem startup_waits_for_the_database_first
    (IS_REDIS_INSTALLED CHECK_REDIS_READY : bool)
    (db redis : nat → option string) (w : World) (turns : nat) :
  (∀ i, db (db_attempts w + i)%nat ≠ None) →
  ∃ w',
    before_startup_handler true IS_REDIS_INSTALLED true CHECK_REDIS_READY db redis turns w
    = Waiting w'
    ∧ db_attempts w' = (db_attempts w + turns)%nat
    ∧ redis_attempts w' = redis_attempts w
    ∧ slept w' = slept w + 5 * Z.of_nat turns.
Proof.
  intros Hdown.
  destruct (db_ready_loop_waits db turns w turns) as (w' & Hrun & H); [by intros|done|].
  exists w'. split; [|done].
  unfold before_startup_handler, _db_ready. by rewrite Hrun.
Qed.

Lemma startup_waits_for_the_database_first_witness :
  ∃ w',
    lifespan.before_startup_handler true true true true
      (fun _ => Some "connection refused") (fun _ => None) 7 (lifespan.MkWorld 0 0 0 [])
    = lifespan.Waiting w'
    ∧ lifespan.db_attempts w' = 7%nat
    ∧ lifespan.redis_attempts w' = 0%nat
    ∧ lifespan.slept w' = 35.
Proof.
  apply (startup_waits_for_the_database_first true true
           (fun _ => Some "connection refused") (fun _ => None)
           (lifespan.MkWorld 0 0 0 []) 7).
  intros i. done.
Defined.
